(** * SplitJourney: the ledger and settlement engine of [core/logic.py]

    A shallow embedding of the functions of [logic.py] that allocate an
    expense over the members of a group ([create_expense], [update_expense]),
    aggregate the history of a group into net balances
    ([calculate_member_balances]), reduce balances to pairwise payments
    ([simplify_debts]) and report budget utilisation ([get_budget_status]),
    and of those around them: [delete_expense], [record_settlement],
    [update_group_budget], the place tag of an expense
    ([tag_place_to_expense], [get_expense_place], [remove_place_tag]) and
    the polls ([vote_poll], [get_member_vote], [get_poll_results]).

    Modelling conventions.
    - Python [int] is [Z]; row ids are [Z].
    - Python [float] amounts are exact rationals [Q], compared with [==];
      [round(x, 2)] is round-half-to-even on the exact value.  The code
      computes in binary64, which gives what the exact arithmetic gives as
      long as every value on the way is a float: so it is for whole amounts
      up to 2^53 ([whole]), on which sums, differences and [round(x, 2)]
      are exact.  A statement on a total or on a settled balance, which
      the rounding of a last binary digit can make or break, is made for
      such amounts, and every value on the way is shown to be whole
      ([balances_on_the_way], [balance_sums_on_the_way], [whole_inv_step],
      [settling_on_the_way]).  [Binary64] holds
      [calculate_member_balances] and [simplify_debts] over the floats of
      the machine, to run them where the rounding shows.
    - A Python [dict] is an association list in insertion order with
      distinct keys; assignment to a present key keeps its position.
    - The SQLAlchemy session is a record of tables (lists of rows);
      relationships ([group.members], [expense.splits]) are the filtered
      tables.
    - A Python exception is the [inl] of a sum.
    - The [while] loop of [simplify_debts] runs on fuel; it is shown to stop
      within the fuel it is given. *)

From Stdlib Require Import ZArith QArith Qabs Qround Lia Lqa List Bool.
From Stdlib Require Import String Ascii DecimalString Permutation.
From Stdlib Require Import Floats Uint63.
From stdpp Require Import base list.
Import ListNotations.

Open Scope Q_scope.

(** ** Exceptions *)

Inductive exn :=
| AttributeError
| ValueError (msg : string)
| ZeroDivisionError.

(** A computation that returns a value or raises. *)
Definition result (A : Type) : Type := exn + A.

Definition ret {A} (a : A) : result A := inr a.
Definition raise {A} (e : exn) : result A := inl e.

(** Sequencing, written [x ← c; k]: an exception of [c] skips [k]. *)
#[global] Instance result_bind : MBind result := fun A B k c =>
  match c with
  | inl e => inl e
  | inr a => k a
  end.

(** [[f(x) for x in xs]] where [f] may raise: the first exception wins. *)
Fixpoint for_each {A B} (f : A -> result B) (xs : list A) : result (list B) :=
  match xs with
  | [] => ret []
  | x :: xs' => y ← f x; ys ← for_each f xs'; ret (y :: ys)
  end.

(** ** Python values and dictionaries *)

Module Py.

(** The values the views put into [split_inputs]: check-box booleans for
    the Equal policy, floats for the others; [0] is the default of
    [split_inputs.get]. *)
Inductive value :=
| VBool (b : bool)
| VInt (z : Z)
| VFloat (q : Q).

(** Truth value of [v] in a condition. *)
Definition truthy (v : value) : bool :=
  match v with
  | VBool b => b
  | VInt z => negb (Z.eqb z 0)
  | VFloat q => negb (Qeq_bool q 0)
  end.

(** [float(v)]. *)
Definition float (v : value) : Q :=
  match v with
  | VBool true => 1
  | VBool false => 0
  | VInt z => inject_Z z
  | VFloat q => q
  end.

(** [a / b] on floats raises on a zero divisor. *)
Definition truediv (a b : Q) : result Q :=
  if Qeq_bool b 0 then raise ZeroDivisionError else ret (a / b).

(** Comparisons of floats: [a >= b], [a < b], [a > b]. *)
Definition ge (a b : Q) : bool := Qle_bool b a.
Definition lt (a b : Q) : bool := negb (Qle_bool b a).
Definition gt (a b : Q) : bool := negb (Qle_bool a b).

(** [min(a, b)]: the first of the smallest arguments. *)
Definition min (a b : Q) : Q := if lt b a then b else a.

(** [d.get(k)], [None] when the key is absent. *)
Fixpoint get {V : Type} (k : Z) (d : list (Z * V)) : option V :=
  match d with
  | [] => None
  | (k', v) :: d' => if Z.eqb k k' then Some v else get k d'
  end.

(** [d.get(k, default)]. *)
Definition get_default {V : Type} (k : Z) (default : V) (d : list (Z * V)) : V :=
  match get k d with
  | Some v => v
  | None => default
  end.

(** [d[k] = v]: in place when [k] is present, appended otherwise. *)
Fixpoint setitem {V : Type} (k : Z) (v : V) (d : list (Z * V)) : list (Z * V) :=
  match d with
  | [] => [(k, v)]
  | (k', v') :: d' =>
      if Z.eqb k k' then (k', v) :: d' else (k', v') :: setitem k v d'
  end.

(** [d.keys()] and [d.values()], in insertion order. *)
Definition keys {V : Type} (d : list (Z * V)) : list Z := map fst d.
Definition values {V : Type} (d : list (Z * V)) : list V := map snd d.

(** [bool(d)]: a dictionary is true when it is not empty. *)
Definition nonempty {V : Type} (d : list (Z * V)) : bool :=
  match d with
  | [] => false
  | _ :: _ => true
  end.

(** [sum(xs)] over floats, from the left. *)
Definition sum (xs : list Q) : Q := fold_left Qplus xs 0.

(** Rounding to the nearest integer, half-way cases to the even
    neighbour. *)
Definition round_half_even (x : Q) : Z :=
  let f := Qfloor x in
  match Qcompare (x - inject_Z f) (1 # 2) with
  | Lt => f
  | Gt => (f + 1)%Z
  | Eq => if Z.even f then f else (f + 1)%Z
  end.

(** [round(x, 2)]. *)
Definition round2 (x : Q) : Q := inject_Z (round_half_even (x * 100)) / 100.

(** [f"{x:.1f}"]: one digit after the point.  Its one use prints an
    overage, which is never negative; the sign of a negative number that
    rounds to zero is not printed. *)
Definition format_1f (x : Q) : string :=
  let t := round_half_even (x * 10) in
  let sign := if (t <? 0)%Z then "-"%string else ""%string in
  let whole := NilZero.string_of_uint (N.to_uint (Z.to_N (Z.abs t / 10))) in
  let tenth := NilZero.string_of_uint (N.to_uint (Z.to_N (Z.abs t mod 10))) in
  (sign ++ whole ++ "." ++ tenth)%string.

End Py.

(** ** The tables of [core/models.py] *)

Record Group := {
  group_id_ : Z;
  group_name : string;
  budget_amount : option Q
}.

Record GroupMember := {
  member_id_ : Z;
  member_group_id : Z;
  member_name : string
}.

Record Expense := {
  expense_id_ : Z;
  expense_group_id : Z;
  expense_description : string;
  expense_amount : Q;
  expense_payer_member_id : Z;
  expense_date : Z
}.

Record ExpenseSplit := {
  split_expense_id : Z;
  split_member_id : Z;
  amount_owed : Q
}.

Record Settlement := {
  settlement_group_id : Z;
  settlement_payer_member_id : Z;
  settlement_receiver_member_id : Z;
  settlement_amount : Q
}.

(** The session: one list of rows per table, in insertion order. *)
Record Session := {
  groups : list Group;
  group_members : list GroupMember;
  expenses : list Expense;
  expense_splits : list ExpenseSplit;
  settlements : list Settlement
}.

(** [db.query(Group).filter(Group.id == group_id).first()] *)
Definition query_group (db : Session) (group_id : Z) : option Group :=
  find (fun g => Z.eqb (group_id_ g) group_id) (groups db).

(** [group.members] *)
Definition members_of (db : Session) (g : Group) : list GroupMember :=
  List.filter (fun m => Z.eqb (member_group_id m) (group_id_ g)) (group_members db).

(** [db.query(Expense).filter(Expense.group_id == group_id).all()] *)
Definition query_expenses (db : Session) (group_id : Z) : list Expense :=
  List.filter (fun e => Z.eqb (expense_group_id e) group_id) (expenses db).

(** [exp.splits] *)
Definition splits_of (db : Session) (e : Expense) : list ExpenseSplit :=
  List.filter (fun s => Z.eqb (split_expense_id s) (expense_id_ e)) (expense_splits db).

(** [db.query(Settlement).filter(Settlement.group_id == group_id).all()] *)
Definition query_settlements (db : Session) (group_id : Z) : list Settlement :=
  List.filter (fun s => Z.eqb (settlement_group_id s) group_id) (settlements db).

(** ** [calculate_member_balances] *)

(** [if k in balances: balances[k] += x] *)
Definition credit (k : Z) (x : Q) (balances : list (Z * Q)) : list (Z * Q) :=
  match Py.get k balances with
  | Some b => Py.setitem k (b + x) balances
  | None => balances
  end.

(** [if k in balances: balances[k] -= x] *)
Definition debit (k : Z) (x : Q) (balances : list (Z * Q)) : list (Z * Q) :=
  match Py.get k balances with
  | Some b => Py.setitem k (b - x) balances
  | None => balances
  end.

(** [{m.id: 0.0 for m in group.members}] *)
Definition zero_balances (members : list GroupMember) : list (Z * Q) :=
  fold_left (fun d m => Py.setitem (member_id_ m) 0 d) members [].

(** Pass 1: amounts paid. *)
Definition add_paid (exps : list Expense) (balances : list (Z * Q)) : list (Z * Q) :=
  fold_left (fun b e => credit (expense_payer_member_id e) (expense_amount e) b)
            exps balances.

(** Pass 2: amounts owed, the inner loop over [exp.splits]. *)
Definition subtract_splits (ss : list ExpenseSplit) (balances : list (Z * Q))
  : list (Z * Q) :=
  fold_left (fun b s => debit (split_member_id s) (amount_owed s) b) ss balances.

Definition subtract_owed (db : Session) (exps : list Expense)
    (balances : list (Z * Q)) : list (Z * Q) :=
  fold_left (fun b e => subtract_splits (splits_of db e) b) exps balances.

(** Pass 3: one settlement credits its payer and debits its receiver. *)
Definition apply_settlement (payer receiver : Z) (amount : Q)
    (balances : list (Z * Q)) : list (Z * Q) :=
  debit receiver amount (credit payer amount balances).

Definition account_settlements (sts : list Settlement) (balances : list (Z * Q))
  : list (Z * Q) :=
  fold_left (fun b s => apply_settlement (settlement_payer_member_id s)
                          (settlement_receiver_member_id s)
                          (settlement_amount s) b)
            sts balances.

Definition calculate_member_balances (db : Session) (group_id : Z)
  : list (Z * Q) :=
  match query_group db group_id with
  | None => []
  | Some group =>
      let balances := zero_balances (members_of db group) in
      let expenses := query_expenses db group_id in
      let balances := add_paid expenses balances in
      let balances := subtract_owed db expenses balances in
      let settlements := query_settlements db group_id in
      account_settlements settlements balances
  end.

(** ** [create_expense] and [update_expense] *)

Definition split_for (expense_id : Z) (m : GroupMember) (owed : Q) : ExpenseSplit :=
  {| split_expense_id := expense_id;
     split_member_id := member_id_ m;
     amount_owed := owed |}.

(** The members an Equal split is shared among. *)
Definition selected_members (split_inputs : list (Z * Py.value))
    (members : list GroupMember) : list GroupMember :=
  if Py.nonempty split_inputs
  then List.filter
         (fun m => Py.truthy (Py.get_default (member_id_ m) (Py.VBool false) split_inputs))
         members
  else members.

(** The [if split_type == ...] chain that fills [splits]; the text of
    [create_expense] and of [update_expense] is the same here. *)
Definition build_splits (expense_id : Z) (amount : Q) (split_type : string)
    (split_inputs : list (Z * Py.value)) (members : list GroupMember)
  : result (list ExpenseSplit) :=
  if String.eqb split_type "Equal" then
    let selected := selected_members split_inputs members in
    let num_selected := length selected in
    if (0 <? num_selected)%nat then
      split_amount ← Py.truediv amount (inject_Z (Z.of_nat num_selected));
      ret (map (fun m => split_for expense_id m split_amount) selected)
    else ret []
  else if String.eqb split_type "Unequal" then
    ret (map (fun m =>
                let owed := Py.float (Py.get_default (member_id_ m) (Py.VInt 0) split_inputs) in
                split_for expense_id m owed)
             members)
  else if String.eqb split_type "Percentage" then
    for_each (fun m =>
                let pct := Py.float (Py.get_default (member_id_ m) (Py.VInt 0) split_inputs) in
                share ← Py.truediv pct 100;
                ret (split_for expense_id m (share * amount)))
             members
  else if String.eqb split_type "Shares" then
    let total_shares := Py.sum (map Py.float (Py.values split_inputs)) in
    if Py.gt total_shares 0 then
      cost_per_share ← Py.truediv amount total_shares;
      ret (map (fun m =>
                  let shares := Py.float (Py.get_default (member_id_ m) (Py.VInt 0) split_inputs) in
                  split_for expense_id m (shares * cost_per_share))
               members)
    else ret []
  else ret [].

(** The primary key the database gives a new expense at [db.flush()]: one
    more than the largest in the table. *)
Definition fresh_expense_id (db : Session) : Z :=
  1 + fold_right Z.max 0%Z (map expense_id_ (expenses db)).

Definition add_expense (db : Session) (e : Expense) : Session :=
  {| groups := groups db;
     group_members := group_members db;
     expenses := expenses db ++ [e];
     expense_splits := expense_splits db;
     settlements := settlements db |}.

(** [db.add_all(splits)] *)
Definition add_all_splits (db : Session) (splits : list ExpenseSplit) : Session :=
  {| groups := groups db;
     group_members := group_members db;
     expenses := expenses db;
     expense_splits := expense_splits db ++ splits;
     settlements := settlements db |}.

Definition create_expense (db : Session) (group_id payer_member_id : Z)
    (description : string) (amount : Q) (date : Z) (split_type : string)
    (split_inputs : list (Z * Py.value)) : result (Session * Expense) :=
  let expense :=
    {| expense_id_ := fresh_expense_id db;
       expense_group_id := group_id;
       expense_description := description;
       expense_amount := amount;
       expense_payer_member_id := payer_member_id;
       expense_date := date |} in
  let db := add_expense db expense in
  match query_group db group_id with
  | None => raise AttributeError
  | Some group =>
      let members := members_of db group in
      splits ← build_splits (expense_id_ expense) amount split_type split_inputs members;
      ret (add_all_splits db splits, expense)
  end.

(** [db.query(Expense).filter(Expense.id == expense_id).first()] *)
Definition query_expense (db : Session) (expense_id : Z) : option Expense :=
  find (fun e => Z.eqb (expense_id_ e) expense_id) (expenses db).

(** The assignments to the fields of the row [old]. *)
Definition store_expense (db : Session) (old new : Expense) : Session :=
  {| groups := groups db;
     group_members := group_members db;
     expenses := map (fun e => if Z.eqb (expense_id_ e) (expense_id_ old)
                               then new else e) (expenses db);
     expense_splits := expense_splits db;
     settlements := settlements db |}.

(** [db.query(ExpenseSplit).filter(ExpenseSplit.expense_id == expense_id).delete()] *)
Definition delete_splits (db : Session) (expense_id : Z) : Session :=
  {| groups := groups db;
     group_members := group_members db;
     expenses := expenses db;
     expense_splits :=
       List.filter (fun s => negb (Z.eqb (split_expense_id s) expense_id))
                   (expense_splits db);
     settlements := settlements db |}.

Definition update_expense (db : Session) (expense_id : Z) (description : string)
    (amount : Q) (payer_member_id : Z) (split_type : string)
    (split_inputs : list (Z * Py.value)) : result (Session * Expense) :=
  match query_expense db expense_id with
  | None => raise (ValueError "Expense not found")
  | Some old =>
      let expense :=
        {| expense_id_ := expense_id_ old;
           expense_group_id := expense_group_id old;
           expense_description := description;
           expense_amount := amount;
           expense_payer_member_id := payer_member_id;
           expense_date := expense_date old |} in
      let db := store_expense db old expense in
      let db := delete_splits db expense_id in
      match query_group db (expense_group_id expense) with
      | None => raise AttributeError
      | Some group =>
          let members := members_of db group in
          splits ← build_splits (expense_id_ expense) amount split_type
                                split_inputs members;
          ret (add_all_splits db splits, expense)
      end
  end.

(** ** [simplify_debts] *)

(** A [{'id': .., 'amount': ..}] dictionary of the debtor and creditor
    lists. *)
Record entry := {
  id : Z;
  amount : Q
}.

Definition transaction : Type := Z * Z * Q.

(** One round of [for m_id, amount in balances.items()]. *)
Definition classify (acc : list entry * list entry) (item : Z * Q)
  : list entry * list entry :=
  let '(debtors, creditors) := acc in
  let '(m_id, amount) := item in
  let amount := Py.round2 amount in
  if Py.lt amount (- (1 # 100)) then
    (debtors ++ [{| id := m_id; amount := amount |}], creditors)
  else if Py.gt amount (1 # 100) then
    (debtors, creditors ++ [{| id := m_id; amount := amount |}])
  else (debtors, creditors).

(** [list.sort(key=lambda x: x['amount'], reverse=...)]: stable, entries
    with equal amounts keep their order in both directions. *)
Fixpoint insert_by_amount (reverse : bool) (x : entry) (l : list entry)
  : list entry :=
  match l with
  | [] => [x]
  | y :: l' =>
      let before :=
        if reverse then Qle_bool (amount y) (amount x)
        else Qle_bool (amount x) (amount y) in
      if before then x :: l else y :: insert_by_amount reverse x l'
  end.

Definition sort_by_amount (reverse : bool) (l : list entry) : list entry :=
  fold_right (insert_by_amount reverse) [] l.

(** The variables of the [while] loop.  [debtors[i]] and [creditors[j]] are
    updated in place, so the lists hold the remaining amounts. *)
Record loop_state := {
  debtors : list entry;
  creditors : list entry;
  i : nat;
  j : nat;
  transactions : list transaction
}.

(** [i < len(debtors) and j < len(creditors)] *)
Definition loop_guard (st : loop_state) : bool :=
  (i st <? length (debtors st))%nat && (j st <? length (creditors st))%nat.

(** One round.  Under the guard both lookups succeed; the last case stands
    for the [IndexError] that the guard rules out. *)
Definition loop_body (st : loop_state) : loop_state :=
  match debtors st !! i st, creditors st !! j st with
  | Some debtor, Some creditor =>
      let amount_ := Py.min (Qabs (amount debtor)) (amount creditor) in
      let transactions_ := transactions st ++ [(id debtor, id creditor, amount_)] in
      let debtor := {| id := id debtor; amount := amount debtor + amount_ |} in
      let creditor := {| id := id creditor; amount := amount creditor - amount_ |} in
      {| debtors := <[i st := debtor]> (debtors st);
         creditors := <[j st := creditor]> (creditors st);
         i := if Py.lt (Qabs (amount debtor)) (1 # 100) then S (i st) else i st;
         j := if Py.lt (amount creditor) (1 # 100) then S (j st) else j st;
         transactions := transactions_ |}
  | _, _ => st
  end.

(** The [while] loop; [None] when [fuel] rounds were not enough. *)
Fixpoint while_loop (fuel : nat) (st : loop_state) : option loop_state :=
  if loop_guard st then
    match fuel with
    | O => None
    | S fuel' => while_loop fuel' (loop_body st)
    end
  else Some st.

(** The state on entry to the loop. *)
Definition loop_entry (balances : list (Z * Q)) : loop_state :=
  let '(debtors, creditors) := fold_left classify balances ([], []) in
  {| debtors := sort_by_amount false debtors;
     creditors := sort_by_amount true creditors;
     i := 0;
     j := 0;
     transactions := [] |}.

(** [None] would mean that the loop was still running after one round per
    entry; [simplify_debts_runs] shows that this never happens. *)
Definition simplify_debts (balances : list (Z * Q)) : option (list transaction) :=
  let st := loop_entry balances in
  transactions <$> while_loop (length (debtors st) + length (creditors st)) st.

(** Recording every transaction as a settlement of the group, as the third
    pass of [calculate_member_balances] then reads them. *)
Definition settle_all (txs : list transaction) (balances : list (Z * Q))
  : list (Z * Q) :=
  fold_left (fun b '(payer, receiver, amount) => apply_settlement payer receiver amount b)
            txs balances.

(** ** [get_budget_status] *)

Record BudgetStatus := {
  total_spent : Q;
  status_budget_amount : option Q;
  percentage_used : Q;
  alerts : list string
}.

Definition calculate_total_spent (db : Session) (group_id : Z) : Q :=
  Py.sum (map expense_amount (query_expenses db group_id)).

Definition get_budget_status (db : Session) (group_id : Z) : result BudgetStatus :=
  match query_group db group_id with
  | None =>
      ret {| total_spent := 0; status_budget_amount := None;
             percentage_used := 0; alerts := [] |}
  | Some group =>
      let total_spent := calculate_total_spent db group_id in
      let budget_amount := budget_amount group in
      match budget_amount with
      | Some b =>
          if Py.truthy (Py.VFloat b) && Py.gt b 0 then
            ratio ← Py.truediv total_spent b;
            let percentage_used := ratio * 100 in
            let alerts :=
              if Py.ge percentage_used 100 then
                let overage := percentage_used - 100 in
                [("❗ Budget exceeded by " ++ Py.format_1f overage ++ "%")%string]
              else if Py.ge percentage_used 80 then
                ["⚠ 80% of budget used - nearing limit"%string]
              else if Py.ge percentage_used 50 then
                ["⚠ 50% of budget used"%string]
              else [] in
            ret {| total_spent := total_spent; status_budget_amount := budget_amount;
                   percentage_used := percentage_used; alerts := alerts |}
          else
            ret {| total_spent := total_spent; status_budget_amount := budget_amount;
                   percentage_used := 0; alerts := [] |}
      | None =>
          ret {| total_spent := total_spent; status_budget_amount := budget_amount;
                 percentage_used := 0; alerts := [] |}
      end
  end.

(** ** Quantities the statements below speak about *)

(** Sum of a list of amounts, as the mathematical sum. *)
Definition Qsum (xs : list Q) : Q := fold_right Qplus 0 xs.

(** The ids of the current members of a group. *)
Definition member_ids (db : Session) (g : Group) : list Z :=
  map member_id_ (members_of db g).

(** Whether the check-box of member [m] is ticked in [split_inputs]. *)
Definition ticked (split_inputs : list (Z * Py.value)) (m : GroupMember) : bool :=
  Py.truthy (Py.get_default (member_id_ m) (Py.VBool false) split_inputs).

(** The number of ticked members. *)
Definition selected_count (split_inputs : list (Z * Py.value))
    (members : list GroupMember) : nat :=
  length (List.filter (ticked split_inputs) members).





(** Members whose rounded balance is below -0.01, resp. above 0.01. *)
Definition is_debtor (b : Q) : bool := Py.lt (Py.round2 b) (- (1 # 100)).
Definition is_creditor (b : Q) : bool := Py.gt (Py.round2 b) (1 # 100).

Definition debtor_count (balances : list (Z * Q)) : nat :=
  length (List.filter (fun kv => is_debtor (snd kv)) balances).

Definition creditor_count (balances : list (Z * Q)) : nat :=
  length (List.filter (fun kv => is_creditor (snd kv)) balances).

(** The part of a balance that [simplify_debts] sets out to settle: the
    rounded balance of a debtor or creditor, nothing for the others. *)
Definition open_amount (b : Q) : Q :=
  if is_debtor b || is_creditor b then Py.round2 b else 0.

(** A pass of [calculate_member_balances] seen as a list of adjustments
    [(member, signed amount)], each applied when the member is a key. *)
Definition adjust_all (adjs : list (Z * Q)) (balances : list (Z * Q))
  : list (Z * Q) :=
  fold_left (fun b a => credit (fst a) (snd a) b) adjs balances.

(** The sum of the adjustments of member [k]. *)
Definition delta (k : Z) (adjs : list (Z * Q)) : Q :=
  Qsum (map snd (List.filter (fun a => Z.eqb (fst a) k) adjs)).

Definition paid_adjustments (exps : list Expense) : list (Z * Q) :=
  map (fun e => (expense_payer_member_id e, expense_amount e)) exps.

Definition owed_adjustments (ss : list ExpenseSplit) : list (Z * Q) :=
  map (fun s => (split_member_id s, - amount_owed s)) ss.

Definition settlement_adjustments (sts : list Settlement) : list (Z * Q) :=
  flat_map (fun s => [(settlement_payer_member_id s, settlement_amount s);
                      (settlement_receiver_member_id s, - settlement_amount s)])
           sts.

(** The debtor or creditor entry made from an item of the balances. *)
Definition entry_of (item : Z * Q) : entry :=
  {| id := fst item; amount := Py.round2 (snd item) |}.

(** The adjustments that recording the transactions as settlements makes. *)
Definition transaction_adjustments (txs : list transaction) : list (Z * Q) :=
  flat_map (fun '(payer, receiver, amount) => [(payer, amount); (receiver, - amount)])
           txs.

(** What the entries of member [m] in a debtor or creditor list still
    hold. *)
Definition held (m : Z) (l : list entry) : Q :=
  Qsum (map (fun e => if Z.eqb (id e) m then amount e else 0) l).

(** Amounts that are a whole number of hundredths. *)
Definition cents (q : Q) : Prop := exists z : Z, q == inject_Z z / 100.

(** What holds of the loop variables at every test of the loop guard:
    the cursors are within the lists and no debtor entry is positive. *)
Record loop_inv (st : loop_state) : Prop := {
  inv_i : (i st <= length (debtors st))%nat;
  inv_j : (j st <= length (creditors st))%nat;
  inv_debtors : Forall (fun e => amount e <= 0) (debtors st)
}.

(** The transactions never outnumber the cursor moves, and stay one short
    of the number of entries. *)
Definition count_inv (nd nc : nat) (st : loop_state) : Prop :=
  loop_inv st
  /\ length (debtors st) = nd /\ length (creditors st) = nc
  /\ (length (transactions st) <= i st + j st)%nat
  /\ (length (transactions st) <= Nat.pred (nd + nc))%nat.

(** What holds between the state [st0] on entry to the loop and the state
    [st] at a later test of the guard: amounts are whole hundredths of the
    right sign, the entries behind the cursors are cleared, the total held
    is unchanged, and what each member holds has moved by exactly the
    transactions recorded so far. *)
Record settle_inv (st0 st : loop_state) : Prop := {
  settle_loop : loop_inv st;
  settle_debtor_cents : Forall (fun e => cents (amount e)) (debtors st);
  settle_creditors :
    Forall (fun e => cents (amount e) /\ 0 <= amount e) (creditors st);
  settle_debtors_done : Forall (fun e => amount e == 0) (take (i st) (debtors st));
  settle_creditors_done :
    Forall (fun e => amount e == 0) (take (j st) (creditors st));
  settle_total :
    Qsum (map amount (debtors st)) + Qsum (map amount (creditors st))
    == Qsum (map amount (debtors st0)) + Qsum (map amount (creditors st0));
  settle_ledger : forall m,
    held m (debtors st) + held m (creditors st)
    == held m (debtors st0) + held m (creditors st0)
       + delta m (transaction_adjustments (transactions st))
}.

(** ** Sample data *)

Definition alice : GroupMember :=
  {| member_id_ := 1; member_group_id := 1; member_name := "Alice" |}.
Definition bob : GroupMember :=
  {| member_id_ := 2; member_group_id := 1; member_name := "Bob" |}.

Definition trip : Group :=
  {| group_id_ := 1; group_name := "Trip"; budget_amount := Some 1000 |}.

(** The group of [test_flow.py] before any expense. *)
Definition trip_db : Session :=
  {| groups := [trip];
     group_members := [alice; bob];
     expenses := [];
     expense_splits := [];
     settlements := [] |}.

Definition lunch : Expense :=
  {| expense_id_ := 1; expense_group_id := 1; expense_description := "Lunch";
     expense_amount := 200; expense_payer_member_id := 1; expense_date := 0 |}.

(** After Alice paid a lunch of 200 shared equally, and Bob paid back 40. *)
Definition lunch_db : Session :=
  {| groups := [trip];
     group_members := [alice; bob];
     expenses := [lunch];
     expense_splits :=
       [ {| split_expense_id := 1; split_member_id := 1; amount_owed := 100 |};
         {| split_expense_id := 1; split_member_id := 2; amount_owed := 100 |} ];
     settlements :=
       [ {| settlement_group_id := 1; settlement_payer_member_id := 2;
            settlement_receiver_member_id := 1; settlement_amount := 40 |} ] |}.

(** The balances of the sample group when everybody is square. *)
Definition settled_balances : list (Z * Q) := [(1%Z, 0); (2%Z, 0)].


(** The balances of [lunch_db]. *)
Definition lunch_balances : list (Z * Q) := [(1%Z, 60); (2%Z, - 60)].

(** ** The other tables of [core/models.py] *)

Record PlaceTag := {
  tag_id_ : Z;
  tag_expense_id : Z;
  tag_place_id : string;
  tag_name : string;
  tag_address : option string;
  tag_latitude : option Q;
  tag_longitude : option Q
}.

Record Poll := {
  poll_id_ : Z;
  poll_group_id : Z;
  poll_question : string;
  poll_created_by_member_id : Z;
  poll_created_at : Z
}.

Record PollOption := {
  option_id_ : Z;
  option_poll_id : Z;
  option_text : string
}.

Record PollVote := {
  vote_id_ : Z;
  vote_poll_id : Z;
  vote_option_id : Z;
  vote_member_id : Z;
  vote_created_at : Z
}.

(** The session with the tables beside the ledger. *)
Record Database := {
  ledger : Session;
  place_tags : list PlaceTag;
  polls : list Poll;
  poll_options : list PollOption;
  poll_votes : list PollVote
}.

Definition with_ledger (db : Database) (l : Session) : Database :=
  {| ledger := l;
     place_tags := place_tags db;
     polls := polls db;
     poll_options := poll_options db;
     poll_votes := poll_votes db |}.

Definition with_place_tags (db : Database) (tags : list PlaceTag) : Database :=
  {| ledger := ledger db;
     place_tags := tags;
     polls := polls db;
     poll_options := poll_options db;
     poll_votes := poll_votes db |}.

Definition with_poll_votes (db : Database) (votes : list PollVote) : Database :=
  {| ledger := ledger db;
     place_tags := place_tags db;
     polls := polls db;
     poll_options := poll_options db;
     poll_votes := votes |}.

(** ** [delete_expense] and [record_settlement] *)

(** [db.delete(expense)]: the row goes, and with it, by the cascades of
    [Expense.splits] and [Expense.place_tag], its splits and its place
    tag. *)
Definition delete_expense (db : Database) (expense_id : Z) : Database :=
  match query_expense (ledger db) expense_id with
  | Some expense =>
      let gone := expense_id_ expense in
      {| ledger :=
           {| groups := groups (ledger db);
              group_members := group_members (ledger db);
              expenses :=
                List.filter (fun e => negb (Z.eqb (expense_id_ e) gone))
                            (expenses (ledger db));
              expense_splits :=
                List.filter (fun s => negb (Z.eqb (split_expense_id s) gone))
                            (expense_splits (ledger db));
              settlements := settlements (ledger db) |};
         place_tags :=
           List.filter (fun t => negb (Z.eqb (tag_expense_id t) gone))
                       (place_tags db);
         polls := polls db;
         poll_options := poll_options db;
         poll_votes := poll_votes db |}
  | None => db
  end.

(** The date of the settlement, the time of the call, is not a column of
    the model. *)
Definition record_settlement (db : Session) (group_id payer_member_id
    receiver_member_id : Z) (amount : Q) : Session * Settlement :=
  let settlement :=
    {| settlement_group_id := group_id;
       settlement_payer_member_id := payer_member_id;
       settlement_receiver_member_id := receiver_member_id;
       settlement_amount := amount |} in
  ({| groups := groups db;
      group_members := group_members db;
      expenses := expenses db;
      expense_splits := expense_splits db;
      settlements := settlements db ++ [settlement] |},
   settlement).

(** ** [update_group_budget] *)

(** The assignment to [group.budget_amount], written at commit. *)
Definition store_group (db : Session) (old new : Group) : Session :=
  {| groups := map (fun g => if Z.eqb (group_id_ g) (group_id_ old)
                            then new else g) (groups db);
     group_members := group_members db;
     expenses := expenses db;
     expense_splits := expense_splits db;
     settlements := settlements db |}.

(** [budget_amount] is a float or [None]. *)
Definition update_group_budget (db : Session) (group_id : Z)
    (budget_amount : option Q) : result (Session * Group) :=
  match query_group db group_id with
  | None => raise (ValueError "Group not found")
  | Some group =>
      let kept :=
        match budget_amount with
        | Some b => if Py.truthy (Py.VFloat b) && Py.gt b 0 then Some b else None
        | None => None
        end in
      let group' :=
        {| group_id_ := group_id_ group;
           group_name := group_name group;
           budget_amount := kept |} in
      ret (store_group db group group', group')
  end.

(** ** The place tag of an expense *)

(** The [place_data] dictionary: [place_id] and [name] are read with
    [place_data[..]], the others with [place_data.get(..)]. *)
Record PlaceData := {
  data_place_id : string;
  data_name : string;
  data_address : option string;
  data_latitude : option Q;
  data_longitude : option Q
}.

(** [db.query(PlaceTag).filter(PlaceTag.expense_id == expense_id).first()] *)
Definition get_expense_place (db : Database) (expense_id : Z) : option PlaceTag :=
  find (fun t => Z.eqb (tag_expense_id t) expense_id) (place_tags db).

(** The primary key of a new place tag. *)
Definition fresh_tag_id (db : Database) : Z :=
  1 + fold_right Z.max 0%Z (map tag_id_ (place_tags db)).

Definition tag_place_to_expense (db : Database) (expense_id : Z)
    (place_data : PlaceData) : result (Database * PlaceTag) :=
  match query_expense (ledger db) expense_id with
  | None => raise (ValueError "Expense not found")
  | Some expense =>
      match get_expense_place db expense_id with
      | Some existing_tag =>
          let tag :=
            {| tag_id_ := tag_id_ existing_tag;
               tag_expense_id := tag_expense_id existing_tag;
               tag_place_id := data_place_id place_data;
               tag_name := data_name place_data;
               tag_address := data_address place_data;
               tag_latitude := data_latitude place_data;
               tag_longitude := data_longitude place_data |} in
          ret (with_place_tags db
                 (map (fun t => if Z.eqb (tag_id_ t) (tag_id_ existing_tag)
                                then tag else t) (place_tags db)),
               tag)
      | None =>
          let place_tag :=
            {| tag_id_ := fresh_tag_id db;
               tag_expense_id := expense_id;
               tag_place_id := data_place_id place_data;
               tag_name := data_name place_data;
               tag_address := data_address place_data;
               tag_latitude := data_latitude place_data;
               tag_longitude := data_longitude place_data |} in
          ret (with_place_tags db (place_tags db ++ [place_tag]), place_tag)
      end
  end.

(** Returns the new state and whether a tag was removed. *)
Definition remove_place_tag (db : Database) (expense_id : Z) : Database * bool :=
  match get_expense_place db expense_id with
  | Some place_tag =>
      (with_place_tags db
         (List.filter (fun t => negb (Z.eqb (tag_id_ t) (tag_id_ place_tag)))
                      (place_tags db)),
       true)
  | None => (db, false)
  end.

(** ** Polls *)

(** [db.query(Poll).filter(Poll.id == poll_id).first()] *)
Definition query_poll (db : Database) (poll_id : Z) : option Poll :=
  find (fun p => Z.eqb (poll_id_ p) poll_id) (polls db).

(** [poll.options] *)
Definition options_of (db : Database) (poll : Poll) : list PollOption :=
  List.filter (fun o => Z.eqb (option_poll_id o) (poll_id_ poll)) (poll_options db).

Definition get_member_vote (db : Database) (poll_id member_id : Z)
  : option PollVote :=
  find (fun v => Z.eqb (vote_poll_id v) poll_id && Z.eqb (vote_member_id v) member_id)
       (poll_votes db).

(** The primary key of a new vote. *)
Definition fresh_vote_id (db : Database) : Z :=
  1 + fold_right Z.max 0%Z (map vote_id_ (poll_votes db)).

(** [now] is [datetime.utcnow()] at the call. *)
Definition vote_poll (db : Database) (now poll_id option_id member_id : Z)
  : result (Database * PollVote) :=
  match query_poll db poll_id with
  | None => raise (ValueError "Poll not found")
  | Some poll =>
      match find (fun o => Z.eqb (option_id_ o) option_id
                           && Z.eqb (option_poll_id o) poll_id)
                 (poll_options db) with
      | None => raise (ValueError "Option not found for this poll")
      | Some option =>
          match get_member_vote db poll_id member_id with
          | Some existing_vote =>
              let vote :=
                {| vote_id_ := vote_id_ existing_vote;
                   vote_poll_id := vote_poll_id existing_vote;
                   vote_option_id := option_id;
                   vote_member_id := vote_member_id existing_vote;
                   vote_created_at := now |} in
              ret (with_poll_votes db
                     (map (fun v => if Z.eqb (vote_id_ v) (vote_id_ existing_vote)
                                    then vote else v) (poll_votes db)),
                   vote)
          | None =>
              let vote :=
                {| vote_id_ := fresh_vote_id db;
                   vote_poll_id := poll_id;
                   vote_option_id := option_id;
                   vote_member_id := member_id;
                   vote_created_at := now |} in
              ret (with_poll_votes db (poll_votes db ++ [vote]), vote)
          end
      end
  end.

(** An entry of the ['options'] list of the results. *)
Record OptionResult := {
  result_id : Z;
  result_text : string;
  result_votes : Z;
  result_percentage : Q
}.

Record PollResults := {
  total_votes : Z;
  result_options : list OptionResult
}.

(** [vote_counts[vote.option_id] = vote_counts.get(vote.option_id, 0) + 1] *)
Definition count_vote (vote_counts : list (Z * Z)) (vote : PollVote)
  : list (Z * Z) :=
  Py.setitem (vote_option_id vote)
             (Py.get_default (vote_option_id vote) 0 vote_counts + 1)%Z
             vote_counts.

Definition get_poll_results (db : Database) (poll_id : Z) : result PollResults :=
  match query_poll db poll_id with
  | None => ret {| total_votes := 0; result_options := [] |}
  | Some poll =>
      let votes := List.filter (fun v => Z.eqb (vote_poll_id v) poll_id)
                               (poll_votes db) in
      let total_votes := Z.of_nat (length votes) in
      let vote_counts := fold_left count_vote votes [] in
      results ← for_each
        (fun option =>
           let vote_count := Py.get_default (option_id_ option) 0%Z vote_counts in
           percentage ←
             (if (0 <? total_votes)%Z
              then share ← Py.truediv (inject_Z vote_count) (inject_Z total_votes);
                   ret (share * 100)
              else ret 0);
           ret {| result_id := option_id_ option;
                  result_text := option_text option;
                  result_votes := vote_count;
                  result_percentage := percentage |})
        (options_of db poll);
      ret {| total_votes := total_votes; result_options := results |}
  end.

(** Recording the transactions of a settlement plan for a group, one
    [record_settlement] each, in order. *)
Definition record_transactions (db : Session) (group_id : Z)
    (txs : list transaction) : Session :=
  fold_left (fun d '(payer, receiver, amount) =>
               fst (record_settlement d group_id payer receiver amount))
            txs db.

(** The sample ledger with a place tag on the lunch and a poll with two
    options, on which Bob has voted. *)
Definition cafe : PlaceTag :=
  {| tag_id_ := 1; tag_expense_id := 1; tag_place_id := "p1"; tag_name := "Cafe";
     tag_address := None; tag_latitude := None; tag_longitude := None |}.

Definition where_poll : Poll :=
  {| poll_id_ := 1; poll_group_id := 1; poll_question := "Where next?";
     poll_created_by_member_id := 1; poll_created_at := 0 |}.

Definition sample_db : Database :=
  {| ledger := lunch_db;
     place_tags := [cafe];
     polls := [where_poll];
     poll_options :=
       [ {| option_id_ := 1; option_poll_id := 1; option_text := "Beach" |};
         {| option_id_ := 2; option_poll_id := 1; option_text := "Hills" |} ];
     poll_votes :=
       [ {| vote_id_ := 1; vote_poll_id := 1; vote_option_id := 1;
            vote_member_id := 2; vote_created_at := 5 |} ] |}.

(** A debtor and a creditor of the balances. *)
Definition debtor_key (balances : list (Z * Q)) (k : Z) : Prop :=
  exists b, In (k, b) balances /\ is_debtor b = true.

Definition creditor_key (balances : list (Z * Q)) (k : Z) : Prop :=
  exists b, In (k, b) balances /\ is_creditor b = true.

(** A transaction that moves at least one hundredth from a debtor to a
    creditor. *)
Definition sound_transaction (balances : list (Z * Q)) (tx : transaction) : Prop :=
  let '(payer, receiver, a) := tx in
  1 # 100 <= a /\ debtor_key balances payer /\ creditor_key balances receiver.

(** What holds of the loop variables besides [loop_inv]: the entries are
    those of debtors and of creditors, the entries under and after the
    cursors are at least one hundredth from zero, and every transaction
    recorded is sound. *)
Record pay_inv (balances : list (Z * Q)) (st : loop_state) : Prop := {
  pay_loop : loop_inv st;
  pay_debtor_keys : Forall (fun e => debtor_key balances (id e)) (debtors st);
  pay_creditor_keys : Forall (fun e => creditor_key balances (id e)) (creditors st);
  pay_debtors_open :
    Forall (fun e => amount e <= - (1 # 100)) (drop (i st) (debtors st));
  pay_creditors_open :
    Forall (fun e => 1 # 100 <= amount e) (drop (j st) (creditors st));
  pay_transactions : Forall (sound_transaction balances) (transactions st)
}.

(** Between the state on entry and a later state, what a member holds in
    either list has only moved towards zero. *)
Definition toward_zero (st0 st : loop_state) : Prop :=
  forall m,
    held m (debtors st0) <= held m (debtors st)
    /\ held m (creditors st) <= held m (creditors st0).

(** Alice paid 90 shared equally with Bob and Carol. *)
Definition three_balances : list (Z * Q) :=
  [(1%Z, 60); (2%Z, - (30)); (3%Z, - (30))].

(** The votes of a member in a poll, and the rule of the table that there
    is at most one. *)
Definition votes_of_member (votes : list PollVote) (poll_id member_id : Z)
  : list PollVote :=
  List.filter (fun v => Z.eqb (vote_poll_id v) poll_id
                        && Z.eqb (vote_member_id v) member_id) votes.

Definition one_vote_each (votes : list PollVote) : Prop :=
  forall poll_id member_id,
    (length (votes_of_member votes poll_id member_id) <= 1)%nat.

(** The votes cast in a poll, and those among them for an option. *)
Definition votes_in (db : Database) (poll_id : Z) : list PollVote :=
  List.filter (fun v => Z.eqb (vote_poll_id v) poll_id) (poll_votes db).

Definition votes_for (votes : list PollVote) (option_id : Z) : Z :=
  Z.of_nat (length (List.filter (fun v => Z.eqb (vote_option_id v) option_id) votes)).

Definition Zsum (xs : list Z) : Z := fold_right Z.add 0%Z xs.

(** A place to tag, and the sample database without its tag. *)
Definition bar_data : PlaceData :=
  {| data_place_id := "p2"; data_name := "Bar"; data_address := None;
     data_latitude := None; data_longitude := None |}.

Definition untagged_db : Database := with_place_tags sample_db [].

(** A group whose records are consistent: every expense is paid by a
    member and split in full among members, and every settlement is between
    members. *)
Definition consistent (db : Session) (group_id : Z) (g : Group) : Prop :=
  (forall e, In e (query_expenses db group_id) ->
     In (expense_payer_member_id e) (member_ids db g)
     /\ Qsum (map amount_owed (splits_of db e)) == expense_amount e
     /\ forall s, In s (splits_of db e) -> In (split_member_id s) (member_ids db g))
  /\ (forall s, In s (query_settlements db group_id) ->
        In (settlement_payer_member_id s) (member_ids db g)
        /\ In (settlement_receiver_member_id s) (member_ids db g)).

(** ** Whole amounts *)

(** A whole number. *)
Definition integer (q : Q) : Prop := exists z : Z, q == inject_Z z.

(** A whole amount up to 2^53.  Such a number is a float; a sum or a
    difference of two of them that stays within the bound is computed
    exactly, and [round(x, 2)] returns [x]. *)
Definition whole (q : Q) : Prop := integer q /\ Qabs q <= inject_Z (2 ^ 53).

(** The amounts in the records of a group: of its expenses, of their
    splits and of its settlements. *)
Definition ledger_amounts (db : Session) (group_id : Z) : list Q :=
  map expense_amount (query_expenses db group_id)
  ++ map amount_owed (flat_map (splits_of db) (query_expenses db group_id))
  ++ map settlement_amount (query_settlements db group_id).

(** A group whose amounts are whole and total at most 2^52 in absolute
    value.  Every balance on the way, and every partial sum of the
    balances, is then whole (a settlement counts twice, for its payer and
    for its receiver), so the three passes and the sum are computed
    exactly. *)
Definition whole_ledger (db : Session) (group_id : Z) : Prop :=
  Forall whole (ledger_amounts db group_id)
  /\ Qsum (map Qabs (ledger_amounts db group_id)) <= inject_Z (2 ^ 52).

(** The adjustments that the three passes make to the balances of a group,
    in the order in which they are made. *)
Definition group_adjustments (db : Session) (group_id : Z) : list (Z * Q) :=
  paid_adjustments (query_expenses db group_id)
  ++ owed_adjustments (flat_map (splits_of db) (query_expenses db group_id))
  ++ settlement_adjustments (query_settlements db group_id).

(** What holds of the loop variables of [simplify_debts] on whole
    balances: every amount that the lists hold, and every amount moved, is
    whole. *)
Record whole_inv (st : loop_state) : Prop := {
  whole_loop : loop_inv st;
  whole_debtors : Forall (fun e => whole (amount e)) (debtors st);
  whole_creditors :
    Forall (fun e => whole (amount e) /\ 0 <= amount e) (creditors st);
  whole_transactions :
    Forall (fun tx : transaction => whole (snd tx)) (transactions st)
}.

(** The integers that an [Integer] column of SQLite holds; on any other
    [db.flush()] raises [OverflowError]. *)
Definition sqlite_integer (z : Z) : Prop := (- 2 ^ 63 <= z < 2 ^ 63)%Z.


(** An amount that is zero, or between 2^-53 and 2^53 in absolute value.
    The sums, products and quotients that [create_expense] forms of such
    amounts stay within the range of the floats: none overflows to [inf]
    or yields [nan], which the database would store as NULL and refuse. *)
Definition moderate (q : Q) : Prop :=
  q == 0 \/ (/ inject_Z (2 ^ 53) <= Qabs q /\ Qabs q <= inject_Z (2 ^ 53)).

(** An input that [float(v)] converts to a moderate amount: a boolean, an
    integer up to 2^53, a moderate float.  (On an integer beyond the range
    of the floats [float(v)] raises [OverflowError].) *)
Definition moderate_input (v : Py.value) : Prop := moderate (Py.float v).

(** ** The ledger in binary64 *)

(** [calculate_member_balances] and [simplify_debts] once more, over the
    floats of the machine: [+=] and [-=] round to the nearest float, ties
    to the even one, and a decimal literal stands for the nearest float, as
    in Python. *)
Set Warnings "-inexact-float".

Module Binary64.

(** The columns that [calculate_member_balances] reads. *)
Record Expense := {
  expense_id_ : Z;
  expense_group_id : Z;
  expense_amount : float;
  expense_payer_member_id : Z
}.

Record ExpenseSplit := {
  split_expense_id : Z;
  split_member_id : Z;
  amount_owed : float
}.

Record Settlement := {
  settlement_group_id : Z;
  settlement_payer_member_id : Z;
  settlement_receiver_member_id : Z;
  settlement_amount : float
}.

Record Session := {
  groups : list Group;
  group_members : list GroupMember;
  expenses : list Expense;
  expense_splits : list ExpenseSplit;
  settlements : list Settlement
}.

Definition query_group (db : Session) (group_id : Z) : option Group :=
  find (fun g => Z.eqb (group_id_ g) group_id) (groups db).

Definition members_of (db : Session) (g : Group) : list GroupMember :=
  List.filter (fun m => Z.eqb (member_group_id m) (group_id_ g)) (group_members db).

Definition query_expenses (db : Session) (group_id : Z) : list Expense :=
  List.filter (fun e => Z.eqb (expense_group_id e) group_id) (expenses db).

Definition splits_of (db : Session) (e : Expense) : list ExpenseSplit :=
  List.filter (fun s => Z.eqb (split_expense_id s) (expense_id_ e)) (expense_splits db).

Definition query_settlements (db : Session) (group_id : Z) : list Settlement :=
  List.filter (fun s => Z.eqb (settlement_group_id s) group_id) (settlements db).

(** [if k in balances: balances[k] += x] *)
Definition credit (k : Z) (x : float) (balances : list (Z * float))
  : list (Z * float) :=
  match Py.get k balances with
  | Some b => Py.setitem k (PrimFloat.add b x) balances
  | None => balances
  end.

(** [if k in balances: balances[k] -= x] *)
Definition debit (k : Z) (x : float) (balances : list (Z * float))
  : list (Z * float) :=
  match Py.get k balances with
  | Some b => Py.setitem k (PrimFloat.sub b x) balances
  | None => balances
  end.

(** [{m.id: 0.0 for m in group.members}] *)
Definition zero_balances (members : list GroupMember) : list (Z * float) :=
  fold_left (fun d m => Py.setitem (member_id_ m) 0%float d) members [].

Definition add_paid (exps : list Expense) (balances : list (Z * float))
  : list (Z * float) :=
  fold_left (fun b e => credit (expense_payer_member_id e) (expense_amount e) b)
            exps balances.

Definition subtract_splits (ss : list ExpenseSplit) (balances : list (Z * float))
  : list (Z * float) :=
  fold_left (fun b s => debit (split_member_id s) (amount_owed s) b) ss balances.

Definition subtract_owed (db : Session) (exps : list Expense)
    (balances : list (Z * float)) : list (Z * float) :=
  fold_left (fun b e => subtract_splits (splits_of db e) b) exps balances.

Definition apply_settlement (payer receiver : Z) (amount : float)
    (balances : list (Z * float)) : list (Z * float) :=
  debit receiver amount (credit payer amount balances).

Definition account_settlements (sts : list Settlement) (balances : list (Z * float))
  : list (Z * float) :=
  fold_left (fun b s => apply_settlement (settlement_payer_member_id s)
                          (settlement_receiver_member_id s)
                          (settlement_amount s) b)
            sts balances.

Definition calculate_member_balances (db : Session) (group_id : Z)
  : list (Z * float) :=
  match query_group db group_id with
  | None => []
  | Some group =>
      let balances := zero_balances (members_of db group) in
      let expenses := query_expenses db group_id in
      let balances := add_paid expenses balances in
      let balances := subtract_owed db expenses balances in
      let settlements := query_settlements db group_id in
      account_settlements settlements balances
  end.

(** [sum(xs)]: from 0, from the left. *)
Definition sum (xs : list float) : float := fold_left PrimFloat.add xs 0%float.

(** The number that a finite float stands for. *)
Definition exact (x : float) : Q :=
  match Prim2SF x with
  | S754_finite s m e =>
      (if s then - inject_Z (Zpos m) else inject_Z (Zpos m)) * 2 ^ e
  | _ => 0
  end.

(** The float of an integer; exact up to 2^53. *)
Definition of_Z (n : Z) : float :=
  match n with
  | Z0 => 0%float
  | Zpos _ => of_uint63 (Uint63.of_Z n)
  | Zneg p => PrimFloat.opp (of_uint63 (Uint63.of_Z (Zpos p)))
  end.

(** [round(x, 2)]: the number that [x] stands for is rounded to a whole
    number of hundredths, half-way cases to the even one, and the result is
    the float nearest to that.  Below 2^46 the hundredths are an integer
    that is a float, and their quotient by 100, rounded once, is that
    nearest float; a zero keeps the sign of [x].  From 2^46 on, the floats
    are at least 1/64 apart and the float nearest to the rounded number is
    [x] itself; so it is for [inf] and [nan]. *)
Definition round2 (x : float) : float :=
  if PrimFloat.ltb (PrimFloat.abs x) 0x1p46%float then
    let n := Py.round_half_even (exact x * 100) in
    if Z.eqb n 0 then PrimFloat.mul x 0%float
    else PrimFloat.div (of_Z n) 100%float
  else x.

(** [min(a, b)]: the first of the smallest arguments. *)
Definition min (a b : float) : float := if PrimFloat.ltb b a then b else a.

Record entry := {
  id : Z;
  amount : float
}.

Definition transaction : Type := Z * Z * float.

Definition classify (acc : list entry * list entry) (item : Z * float)
  : list entry * list entry :=
  let '(debtors, creditors) := acc in
  let '(m_id, amount) := item in
  let amount := round2 amount in
  if PrimFloat.ltb amount (-0.01)%float then
    (debtors ++ [{| id := m_id; amount := amount |}], creditors)
  else if PrimFloat.ltb 0.01%float amount then
    (debtors, creditors ++ [{| id := m_id; amount := amount |}])
  else (debtors, creditors).

Fixpoint insert_by_amount (reverse : bool) (x : entry) (l : list entry)
  : list entry :=
  match l with
  | [] => [x]
  | y :: l' =>
      let before :=
        if reverse then PrimFloat.leb (amount y) (amount x)
        else PrimFloat.leb (amount x) (amount y) in
      if before then x :: l else y :: insert_by_amount reverse x l'
  end.

Definition sort_by_amount (reverse : bool) (l : list entry) : list entry :=
  fold_right (insert_by_amount reverse) [] l.

Record loop_state := {
  debtors : list entry;
  creditors : list entry;
  i : nat;
  j : nat;
  transactions : list transaction
}.

Definition loop_guard (st : loop_state) : bool :=
  (i st <? length (debtors st))%nat && (j st <? length (creditors st))%nat.

Definition loop_body (st : loop_state) : loop_state :=
  match debtors st !! i st, creditors st !! j st with
  | Some debtor, Some creditor =>
      let amount_ := min (PrimFloat.abs (amount debtor)) (amount creditor) in
      let transactions_ := transactions st ++ [(id debtor, id creditor, amount_)] in
      let debtor :=
        {| id := id debtor; amount := PrimFloat.add (amount debtor) amount_ |} in
      let creditor :=
        {| id := id creditor; amount := PrimFloat.sub (amount creditor) amount_ |} in
      {| debtors := <[i st := debtor]> (debtors st);
         creditors := <[j st := creditor]> (creditors st);
         i := if PrimFloat.ltb (PrimFloat.abs (amount debtor)) 0.01%float
              then S (i st) else i st;
         j := if PrimFloat.ltb (amount creditor) 0.01%float
              then S (j st) else j st;
         transactions := transactions_ |}
  | _, _ => st
  end.

Fixpoint while_loop (fuel : nat) (st : loop_state) : option loop_state :=
  if loop_guard st then
    match fuel with
    | O => None
    | S fuel' => while_loop fuel' (loop_body st)
    end
  else Some st.

Definition loop_entry (balances : list (Z * float)) : loop_state :=
  let '(debtors, creditors) := fold_left classify balances ([], []) in
  {| debtors := sort_by_amount false debtors;
     creditors := sort_by_amount true creditors;
     i := 0;
     j := 0;
     transactions := [] |}.

(** [None] would mean that the loop was still running after one round per
    entry. *)
Definition simplify_debts (balances : list (Z * float))
  : option (list transaction) :=
  let st := loop_entry balances in
  transactions <$> while_loop (length (debtors st) + length (creditors st)) st.

Definition settle_all (txs : list transaction) (balances : list (Z * float))
  : list (Z * float) :=
  fold_left (fun b '(payer, receiver, amount) => apply_settlement payer receiver amount b)
            txs balances.

End Binary64.


(** The lunch ledger [lunch_db], amounts as floats. *)
Definition lunch_db_binary64 : Binary64.Session :=
  {| Binary64.groups := [trip];
     Binary64.group_members := [alice; bob];
     Binary64.expenses :=
       [ {| Binary64.expense_id_ := 1; Binary64.expense_group_id := 1;
            Binary64.expense_amount := 200%float;
            Binary64.expense_payer_member_id := 1 |} ];
     Binary64.expense_splits :=
       [ {| Binary64.split_expense_id := 1; Binary64.split_member_id := 1;
            Binary64.amount_owed := 100%float |};
         {| Binary64.split_expense_id := 1; Binary64.split_member_id := 2;
            Binary64.amount_owed := 100%float |} ];
     Binary64.settlements :=
       [ {| Binary64.settlement_group_id := 1;
            Binary64.settlement_payer_member_id := 2;
            Binary64.settlement_receiver_member_id := 1;
            Binary64.settlement_amount := 40%float |} ] |}.

(** Debts and credits in hundredths that sum to zero, each beyond the
    thresholds: in exact arithmetic and as floats. *)
Definition cent_debts : list (Z * Q) :=
  [(1%Z, 8 # 100); (2%Z, - (9 # 100)); (3%Z, - (9 # 100)); (4%Z, 8 # 100);
   (5%Z, 2 # 100)].

Definition cent_debts_binary64 : list (Z * float) :=
  [(1%Z, 0.08%float); (2%Z, (-0.09)%float); (3%Z, (-0.09)%float);
   (4%Z, 0.08%float); (5%Z, 0.02%float)].

(** The sample balances of the scenarios, as floats. *)
Definition small_balances_binary64 : list (Z * float) :=
  [(1%Z, 0.02%float); (2%Z, (-0.01)%float); (3%Z, (-0.01)%float)].

Definition three_balances_binary64 : list (Z * float) :=
  [(1%Z, 60%float); (2%Z, (-30)%float); (3%Z, (-30)%float)].

(** The lunch ledger after Bob paid a taxi of 30, of which Alice owes 10
    and he 20. *)
Definition taxi : Expense :=
  {| expense_id_ := 2; expense_group_id := 1; expense_description := "Taxi";
     expense_amount := 30; expense_payer_member_id := 2; expense_date := 0 |}.

Definition taxi_db : Session :=
  {| groups := [trip];
     group_members := [alice; bob];
     expenses := [lunch; taxi];
     expense_splits :=
       [ {| split_expense_id := 1; split_member_id := 1; amount_owed := 100 |};
         {| split_expense_id := 1; split_member_id := 2; amount_owed := 100 |};
         {| split_expense_id := 2; split_member_id := 1; amount_owed := 10 |};
         {| split_expense_id := 2; split_member_id := 2; amount_owed := 20 |} ];
     settlements :=
       [ {| settlement_group_id := 1; settlement_payer_member_id := 2;
            settlement_receiver_member_id := 1; settlement_amount := 40 |} ] |}.

(** * Properties *)

(** ** The allocation of an expense *)

Section Allocation.
Variables (db : Session) (group_id payer_member_id : Z) (description : string)
          (amount : Q) (date : Z) (split_inputs : list (Z * Py.value)).

Lemma query_group_add_expense e :
  query_group (add_expense db e) group_id = query_group db group_id.
Proof. reflexivity. Qed.

Lemma members_of_add_expense e g :
  members_of (add_expense db e) g = members_of db g.
Proof. reflexivity. Qed.

(** On an existing group [create_expense] returns the new row and appends
    exactly the splits of [build_splits], unless that raises. *)
Lemma create_expense_splits g split_type splits :
  query_group db group_id = Some g ->
  build_splits (fresh_expense_id db) amount split_type split_inputs
               (members_of db g) = inr splits ->
  exists db' e,
    create_expense db group_id payer_member_id description amount date
                   split_type split_inputs = inr (db', e)
    /\ expenses db' = expenses db ++ [e]
    /\ expense_id_ e = fresh_expense_id db
    /\ expense_splits db' = expense_splits db ++ splits.
Proof.
  intros Hg Hs. unfold create_expense.
  rewrite query_group_add_expense, Hg, members_of_add_expense. simpl.
  rewrite Hs. simpl. eauto 10.
Qed.
End Allocation.

Lemma selected_members_ticked split_inputs members :
  split_inputs <> [] ->
  selected_members split_inputs members = List.filter (ticked split_inputs) members.
Proof. destruct split_inputs; [congruence | reflexivity]. Qed.

Lemma truediv_count a n :
  (0 < n)%nat ->
  Py.truediv a (inject_Z (Z.of_nat n)) = inr (a / inject_Z (Z.of_nat n)).
Proof.
  intros Hn. unfold Py.truediv.
  destruct (Qeq_bool (inject_Z (Z.of_nat n)) 0) eqn:E; [| reflexivity].
  apply Qeq_bool_iff in E. unfold Qeq in E. simpl in E. lia.
Qed.

(** The Equal branch of [build_splits] with some member selected. *)
Lemma build_splits_equal expense_id amount split_inputs members :
  let selected := selected_members split_inputs members in
  selected <> [] ->
  build_splits expense_id amount "Equal" split_inputs members
  = inr (map (fun m => split_for expense_id m
                         (amount / inject_Z (Z.of_nat (length selected))))
             selected).
Proof.
  intros selected Hne. unfold build_splits. simpl String.eqb. cbv iota.
  fold selected.
  destruct selected as [| m sel] eqn:E; [congruence |].
  replace (0 <? length (m :: sel))%nat with true
    by (symmetry; apply Nat.ltb_lt; simpl; lia).
  rewrite truediv_count by (simpl; lia). reflexivity.
Qed.

(** The Equal branch of [build_splits] with nobody selected. *)
Lemma build_splits_equal_none expense_id amount split_inputs members :
  selected_members split_inputs members = [] ->
  build_splits expense_id amount "Equal" split_inputs members = inr [].
Proof.
  intros Hsel. unfold build_splits. simpl String.eqb. cbv iota.
  rewrite Hsel. reflexivity.
Qed.

Lemma ticked_same_id split_inputs m m' :
  member_id_ m = member_id_ m' -> ticked split_inputs m = ticked split_inputs m'.
Proof. unfold ticked. intros ->. reflexivity. Qed.

(** C3, as stated, fails: with both check-boxes of the sample group
    unticked, [create_expense] raises nothing. *)
Lemma equal_none_selected_does_not_raise :
  ~ exists err : exn,
      create_expense trip_db 1 1 "Lunch" 200 0 "Equal"
                     [(1%Z, Py.VBool false); (2%Z, Py.VBool false)] = inl err.
Proof. intros [err H]. vm_compute in H. discriminate H. Qed.

(** C3, amended: for an Equal split of an existing group whose non-empty
    selection ticks no member, [create_expense] raises no error; it stores
    the expense and adds no split. *)
Theorem equal_none_selected_no_splits
    (db : Session) (group_id payer_member_id : Z) (description : string)
    (amount : Q) (date : Z) (split_inputs : list (Z * Py.value)) (g : Group) :
  query_group db group_id = Some g ->
  split_inputs <> [] ->
  selected_count split_inputs (members_of db g) = 0%nat ->
  exists db' e,
    create_expense db group_id payer_member_id description amount date
                   "Equal" split_inputs = inr (db', e)
    /\ expenses db' = expenses db ++ [e]
    /\ expense_splits db' = expense_splits db.
Proof.
  intros Hg Hne Hcount.
  assert (Hsel : selected_members split_inputs (members_of db g) = []).
  { rewrite selected_members_ticked by assumption.
    apply length_zero_iff_nil. exact Hcount. }
  destruct (create_expense_splits db group_id payer_member_id description amount
              date split_inputs g "Equal" []) as (db' & e & Hrun & He & _ & Hs).
  - exact Hg.
  - apply build_splits_equal_none. exact Hsel.
  - exists db', e. rewrite app_nil_r in Hs. auto.
Qed.

Lemma equal_none_selected_no_splits_witness :
  exists db' e,
    create_expense trip_db 1 1 "Lunch" 200 0 "Equal"
                   [(1%Z, Py.VBool false); (2%Z, Py.VBool false)] = inr (db', e)
    /\ expenses db' = expenses trip_db ++ [e]
    /\ expense_splits db' = expense_splits trip_db.
Proof.
  apply (equal_none_selected_no_splits trip_db 1 1 "Lunch" 200 0
           [(1%Z, Py.VBool false); (2%Z, Py.VBool false)] trip).
  - reflexivity.
  - discriminate.
  - reflexivity.
Defined.

(** C4: for an Equal split of an existing group whose selection ticks at
    least one member, one split is stored per ticked member, each of
    [amount / selectedCount], and no split is stored for a member that is
    not ticked. *)
Theorem equal_split_amounts
    (db : Session) (group_id payer_member_id : Z) (description : string)
    (amount : Q) (date : Z) (split_inputs : list (Z * Py.value)) (g : Group) :
  query_group db group_id = Some g ->
  split_inputs <> [] ->
  (0 < selected_count split_inputs (members_of db g))%nat ->
  exists db' e new,
    create_expense db group_id payer_member_id description amount date
                   "Equal" split_inputs = inr (db', e)
    /\ expense_splits db' = expense_splits db ++ new
    /\ length new = selected_count split_inputs (members_of db g)
    /\ (forall s, In s new ->
          split_expense_id s = expense_id_ e
          /\ amount_owed s
             == amount / inject_Z (Z.of_nat (selected_count split_inputs (members_of db g))))
    /\ (forall m, In m (members_of db g) -> ticked split_inputs m = true ->
          exists s, In s new /\ split_member_id s = member_id_ m)
    /\ (forall m, In m (members_of db g) -> ticked split_inputs m = false ->
          forall s, In s new -> split_member_id s <> member_id_ m).
Proof.
  intros Hg Hne Hcount. unfold selected_count in *.
  set (members := members_of db g) in *.
  set (sel := List.filter (ticked split_inputs) members) in *.
  assert (Hsel : selected_members split_inputs members = sel)
    by (apply selected_members_ticked; assumption).
  destruct (create_expense_splits db group_id payer_member_id description amount
              date split_inputs g "Equal"
              (map (fun m => split_for (fresh_expense_id db) m
                               (amount / inject_Z (Z.of_nat (length sel)))) sel))
    as (db' & e & Hrun & _ & Hid & Hs).
  - exact Hg.
  - fold members. rewrite <- Hsel. apply build_splits_equal.
    rewrite Hsel. intros E. rewrite E in Hcount. simpl in Hcount. lia.
  - exists db', e. eexists. split; [exact Hrun |]. split; [exact Hs |].
    split; [apply length_map |]. split; [| split].
    + intros s Hin. apply in_map_iff in Hin as (m & <- & _).
      simpl. rewrite Hid. split; reflexivity.
    + intros m Hm Ht. eexists. split.
      * apply in_map_iff. exists m. split; [reflexivity |].
        apply filter_In. auto.
      * reflexivity.
    + intros m Hm Ht s Hin Heq.
      apply in_map_iff in Hin as (m' & <- & Hm').
      apply filter_In in Hm' as [_ Ht']. simpl in Heq.
      rewrite (ticked_same_id split_inputs m' m Heq) in Ht'. congruence.
Qed.

Lemma equal_split_amounts_witness :
  exists db' e new,
    create_expense trip_db 1 1 "Lunch" 200 0 "Equal"
                   [(1%Z, Py.VBool true); (2%Z, Py.VBool false)] = inr (db', e)
    /\ expense_splits db' = expense_splits trip_db ++ new
    /\ length new = 1%nat
    /\ (forall s, In s new ->
          split_expense_id s = expense_id_ e
          /\ amount_owed s == 200 / inject_Z (Z.of_nat 1))
    /\ (forall m, In m (members_of trip_db trip) ->
          ticked [(1%Z, Py.VBool true); (2%Z, Py.VBool false)] m = true ->
          exists s, In s new /\ split_member_id s = member_id_ m)
    /\ (forall m, In m (members_of trip_db trip) ->
          ticked [(1%Z, Py.VBool true); (2%Z, Py.VBool false)] m = false ->
          forall s, In s new -> split_member_id s <> member_id_ m).
Proof.
  apply (equal_split_amounts trip_db 1 1 "Lunch" 200 0
           [(1%Z, Py.VBool true); (2%Z, Py.VBool false)] trip).
  - reflexivity.
  - discriminate.
  - vm_compute. lia.
Defined.

(** C9: for a Shares split of an existing group whose shares total zero,
    [create_expense] raises no error and adds no split; the division by the
    total is not reached. *)
Theorem shares_zero_total_no_splits
    (db : Session) (group_id payer_member_id : Z) (description : string)
    (amount : Q) (date : Z) (split_inputs : list (Z * Py.value)) (g : Group) :
  query_group db group_id = Some g ->
  Py.sum (map Py.float (Py.values split_inputs)) == 0 ->
  exists db' e,
    create_expense db group_id payer_member_id description amount date
                   "Shares" split_inputs = inr (db', e)
    /\ expense_splits db' = expense_splits db.
Proof.
  intros Hg Hzero.
  destruct (create_expense_splits db group_id payer_member_id description amount
              date split_inputs g "Shares" []) as (db' & e & Hrun & _ & _ & Hs).
  - exact Hg.
  - unfold build_splits. simpl String.eqb. cbv iota.
    replace (Py.gt (Py.sum (map Py.float (Py.values split_inputs))) 0) with false;
      [reflexivity |].
    symmetry. unfold Py.gt. apply negb_false_iff. apply Qle_bool_iff.
    rewrite Hzero. apply Qle_refl.
  - exists db', e. rewrite app_nil_r in Hs. auto.
Qed.

Lemma shares_zero_total_no_splits_witness :
  exists db' e,
    create_expense trip_db 1 1 "Taxi" 30 0 "Shares"
                   [(1%Z, Py.VFloat 0); (2%Z, Py.VFloat 0)] = inr (db', e)
    /\ expense_splits db' = expense_splits trip_db.
Proof.
  apply (shares_zero_total_no_splits trip_db 1 1 "Taxi" 30 0
           [(1%Z, Py.VFloat 0); (2%Z, Py.VFloat 0)] trip).
  - reflexivity.
  - reflexivity.
Defined.

(** C10: with the empty selection, an Equal split of an existing group gives
    every member of the group a split of [amount / memberCount], in
    [create_expense] and in [update_expense] alike. *)
Theorem equal_empty_inputs_all_members
    (db : Session) (group_id : Z) (amount : Q) (g : Group) :
  query_group db group_id = Some g ->
  let share := amount / inject_Z (Z.of_nat (length (members_of db g))) in
  (forall payer_member_id description date,
     exists db' e,
       create_expense db group_id payer_member_id description amount date
                      "Equal" [] = inr (db', e)
       /\ expense_splits db'
          = expense_splits db
            ++ map (fun m => split_for (expense_id_ e) m share) (members_of db g))
  /\ (forall expense_id old payer_member_id description,
        query_expense db expense_id = Some old ->
        expense_group_id old = group_id ->
        exists db' e,
          update_expense db expense_id description amount payer_member_id
                         "Equal" [] = inr (db', e)
          /\ expense_splits db'
             = expense_splits (delete_splits db expense_id)
               ++ map (fun m => split_for (expense_id_ e) m share) (members_of db g)).
Proof.
  intros Hg share.
  assert (Hall : forall eid,
             build_splits eid amount "Equal" [] (members_of db g)
             = inr (map (fun m => split_for eid m share) (members_of db g))).
  { intros eid. destruct (members_of db g) as [| m ms] eqn:E.
    - reflexivity.
    - subst share. rewrite <- E.
      apply (build_splits_equal eid amount [] (members_of db g)).
      simpl. rewrite E. discriminate. }
  split.
  - intros payer_member_id description date.
    destruct (create_expense_splits db group_id payer_member_id description amount
                date [] g "Equal" _ Hg (Hall _)) as (db' & e & Hrun & _ & Hid & Hs).
    exists db', e. rewrite Hid. auto.
  - intros expense_id old payer_member_id description Hold Hgid.
    unfold update_expense. rewrite Hold. cbv zeta.
    change (query_group _ (expense_group_id _))
      with (query_group db (expense_group_id old)).
    rewrite Hgid, Hg.
    change (members_of _ g) with (members_of db g).
    simpl expense_id_. rewrite Hall. simpl. eauto.
Qed.

Lemma equal_empty_inputs_all_members_witness :
  (exists db' e,
     create_expense trip_db 1 1 "Lunch" 200 0 "Equal" [] = inr (db', e)
     /\ amount_owed <$> expense_splits db' = [200 / 2; 200 / 2])
  /\ (exists db' e,
        update_expense lunch_db 1 "Dinner" 300 2 "Equal" [] = inr (db', e)
        /\ amount_owed <$> expense_splits db' = [300 / 2; 300 / 2]).
Proof.
  split.
  - destruct (equal_empty_inputs_all_members trip_db 1 200 trip eq_refl)
      as [Hcreate _].
    destruct (Hcreate 1%Z "Lunch"%string 0%Z) as (db' & e & Hrun & Hs).
    exists db', e. split; [exact Hrun |]. rewrite Hs. reflexivity.
  - destruct (equal_empty_inputs_all_members lunch_db 1 300 trip eq_refl)
      as [_ Hupdate].
    destruct (Hupdate 1%Z lunch 2%Z "Dinner"%string eq_refl eq_refl)
      as (db' & e & Hrun & Hs).
    exists db', e. split; [exact Hrun |]. rewrite Hs. reflexivity.
Defined.

(** ** Comparisons *)

Lemma ge_reflect a b : reflect (b <= a) (Py.ge a b).
Proof.
  unfold Py.ge. destruct (Qle_bool b a) eqn:E; constructor.
  - apply Qle_bool_iff. exact E.
  - intros H. apply Qle_bool_iff in H. congruence.
Qed.

Lemma lt_reflect a b : reflect (a < b) (Py.lt a b).
Proof.
  unfold Py.lt. destruct (Qle_bool b a) eqn:E; constructor.
  - apply Qle_not_lt, Qle_bool_iff, E.
  - apply Qnot_le_lt. intros H. apply Qle_bool_iff in H. congruence.
Qed.

Lemma gt_reflect a b : reflect (b < a) (Py.gt a b).
Proof. exact (lt_reflect b a). Qed.

Lemma lt_true a b : Py.lt a b = true -> a < b.
Proof. intros H. destruct (lt_reflect a b); [assumption | discriminate]. Qed.

Lemma truediv_nonzero a b : ~ b == 0 -> Py.truediv a b = inr (a / b).
Proof.
  intros Hb. unfold Py.truediv. destruct (Qeq_bool b 0) eqn:E; [| reflexivity].
  apply Qeq_bool_iff in E. contradiction.
Qed.

(** Case analysis on every comparison of the goal, keeping the ordering
    facts. *)
Ltac cases_cmp :=
  repeat match goal with
    | |- context [Py.lt ?a ?b] => destruct (lt_reflect a b)
    | |- context [Py.gt ?a ?b] => destruct (gt_reflect a b)
    | |- context [Py.ge ?a ?b] => destruct (ge_reflect a b)
    end.

(** ** The budget status *)

(** C7: for an existing group, without a positive budget the status has
    [percentage_used = 0] and no alert; with one, [percentage_used] is
    [total_spent / budget_amount * 100] and the alerts hold at most one
    string, that of the highest threshold among 100, 80 and 50 reached. *)
Theorem budget_status_thresholds (db : Session) (group_id : Z) (g : Group) :
  query_group db group_id = Some g ->
  exists st,
    get_budget_status db group_id = inr st
    /\ total_spent st = calculate_total_spent db group_id
    /\ ((budget_amount g = None \/ exists b, budget_amount g = Some b /\ b <= 0) ->
        percentage_used st = 0 /\ alerts st = [])
    /\ (forall b, budget_amount g = Some b -> 0 < b ->
        let pct := calculate_total_spent db group_id / b * 100 in
        percentage_used st = pct
        /\ (length (alerts st) <= 1)%nat
        /\ (100 <= pct ->
            alerts st
            = [("❗ Budget exceeded by " ++ Py.format_1f (pct - 100) ++ "%")%string])
        /\ (80 <= pct -> pct < 100 ->
            alerts st = ["⚠ 80% of budget used - nearing limit"%string])
        /\ (50 <= pct -> pct < 80 ->
            alerts st = ["⚠ 50% of budget used"%string])
        /\ (pct < 50 -> alerts st = [])).
Proof.
  intros Hg. unfold get_budget_status. rewrite Hg.
  destruct (budget_amount g) as [b |] eqn:Hb.
  - destruct (gt_reflect b 0) as [Hpos | Hnpos].
    + assert (Hnz : ~ b == 0) by lra.
      assert (Ht : Py.truthy (Py.VFloat b) = true).
      { simpl. destruct (Qeq_bool b 0) eqn:E; [| reflexivity].
        apply Qeq_bool_iff in E. contradiction. }
      rewrite Ht, truediv_nonzero by assumption. simpl.
      eexists. split; [reflexivity |]. split; [reflexivity |]. simpl. split.
      * intros [Hnone | (b' & Hb' & Hle)]; [discriminate |].
        injection Hb' as <-. lra.
      * intros b' Hb' _. injection Hb' as <-.
        split; [reflexivity |].
        cases_cmp; simpl; repeat split; intros; try reflexivity; try lia; lra.
    + rewrite andb_false_r.
      eexists. split; [reflexivity |]. split; [reflexivity |]. simpl. split.
      * auto.
      * intros b' Hb' Hpos. injection Hb' as <-. contradiction.
  - eexists. split; [reflexivity |]. split; [reflexivity |]. simpl. split.
    + auto.
    + intros b' Hb'. discriminate.
Qed.

Lemma budget_status_thresholds_witness :
  exists st,
    get_budget_status lunch_db 1 = inr st
    /\ percentage_used st = 200 / 1000 * 100
    /\ alerts st = [].
Proof.
  destruct (budget_status_thresholds lunch_db 1 trip eq_refl)
    as (st & Hrun & _ & _ & Hpos).
  destruct (Hpos 1000 eq_refl ltac:(reflexivity)) as (Hpct & _ & _ & _ & _ & Hlow).
  exists st. split; [exact Hrun |]. split.
  - exact Hpct.
  - apply Hlow. reflexivity.
Defined.

(** ** Dictionaries *)

Section DictFacts.
Context {V : Type}.
Implicit Types (k : Z) (v : V) (d : list (Z * V)).

Lemma get_setitem_eq k v d : Py.get k (Py.setitem k v d) = Some v.
Proof.
  induction d as [| [k' v'] d IH]; simpl.
  - rewrite Z.eqb_refl. reflexivity.
  - destruct (Z.eqb k k') eqn:E; simpl; rewrite E; auto.
Qed.

Lemma get_setitem_ne k k' v d :
  k <> k' -> Py.get k' (Py.setitem k v d) = Py.get k' d.
Proof.
  intros Hne. induction d as [| [k0 v0] d IH]; simpl.
  - destruct (Z.eqb_spec k' k); congruence.
  - destruct (Z.eqb_spec k k0); simpl.
    + subst k0. destruct (Z.eqb_spec k' k); congruence.
    + rewrite IH. reflexivity.
Qed.

Lemma get_None_keys k d : Py.get k d = None <-> ~ In k (Py.keys d).
Proof.
  induction d as [| [k' v'] d IH]; simpl.
  - tauto.
  - destruct (Z.eqb_spec k k').
    + split; [discriminate | intros H; exfalso; apply H; auto].
    + rewrite IH. split; [intros H [E | Hin]; congruence | tauto].
Qed.

Lemma get_Some_keys k d : In k (Py.keys d) -> exists v, Py.get k d = Some v.
Proof.
  intros Hin. destruct (Py.get k d) eqn:E; [eauto |].
  apply get_None_keys in E. contradiction.
Qed.

Lemma get_Some_In k v d : Py.get k d = Some v -> In (k, v) d.
Proof.
  induction d as [| [k' v'] d IH]; simpl; [discriminate |].
  destruct (Z.eqb_spec k k').
  - intros [= ->]. subst. auto.
  - auto.
Qed.

Lemma In_get_NoDup k v d : List.NoDup (Py.keys d) -> In (k, v) d -> Py.get k d = Some v.
Proof.
  induction d as [| [k' v'] d IH]; simpl; [tauto |].
  intros Hnd [E | Hin]; inversion Hnd as [| ? ? Hnotin Hnd']; subst.
  - injection E as -> ->. rewrite Z.eqb_refl. reflexivity.
  - destruct (Z.eqb_spec k k').
    + subst k'. exfalso. apply Hnotin. apply in_map_iff. exists (k, v). auto.
    + auto.
Qed.

(** Assigning to a present key keeps the keys and their order. *)
Lemma keys_setitem_present k v v0 d :
  Py.get k d = Some v0 -> Py.keys (Py.setitem k v d) = Py.keys d.
Proof.
  induction d as [| [k' v'] d IH]; simpl; [discriminate |].
  destruct (Z.eqb_spec k k'); simpl; [reflexivity |].
  intros H. rewrite IH by assumption. reflexivity.
Qed.

(** Assigning to an absent key appends it. *)
Lemma keys_setitem_absent k v d :
  Py.get k d = None -> Py.keys (Py.setitem k v d) = Py.keys d ++ [k].
Proof.
  induction d as [| [k' v'] d IH]; simpl; [reflexivity |].
  destruct (Z.eqb_spec k k'); simpl; [discriminate |].
  intros H. rewrite IH by assumption. reflexivity.
Qed.

Lemma keys_setitem_In k k' v d :
  In k' (Py.keys (Py.setitem k v d)) <-> k' = k \/ In k' (Py.keys d).
Proof.
  destruct (Py.get k d) eqn:E.
  - rewrite (keys_setitem_present _ _ _ _ E). split; [auto |].
    intros [-> | H]; [| assumption].
    destruct (in_dec Z.eq_dec k (Py.keys d)) as [Hin | Hout]; [assumption |].
    apply get_None_keys in Hout. congruence.
  - rewrite (keys_setitem_absent _ _ _ E), in_app_iff. simpl. intuition.
Qed.

Lemma keys_setitem_NoDup k v d :
  List.NoDup (Py.keys d) -> List.NoDup (Py.keys (Py.setitem k v d)).
Proof.
  intros Hnd. destruct (Py.get k d) eqn:E.
  - rewrite (keys_setitem_present _ _ _ _ E). assumption.
  - rewrite (keys_setitem_absent _ _ _ E).
    apply List.NoDup_app; [assumption | repeat constructor; simpl; tauto |].
    intros x Hx [<- | []]. apply get_None_keys in E. contradiction.
Qed.
End DictFacts.

(** ** Sums of amounts *)

Lemma Qsum_app xs ys : Qsum (xs ++ ys) == Qsum xs + Qsum ys.
Proof. induction xs as [| x xs IH]; simpl; [| rewrite IH]; lra. Qed.

Lemma fold_left_Qplus xs a : fold_left Qplus xs a == a + Qsum xs.
Proof.
  revert a. induction xs as [| x xs IH]; intros a; simpl.
  - lra.
  - rewrite IH. lra.
Qed.

(** Python's left-to-right [sum] is the mathematical sum. *)
Lemma sum_Qsum xs : Py.sum xs == Qsum xs.
Proof. unfold Py.sum. rewrite fold_left_Qplus. lra. Qed.

Lemma Qsum_map_opp {A} (f : A -> Q) (l : list A) :
  Qsum (map (fun x => - f x) l) == - Qsum (map f l).
Proof. induction l as [| x l IH]; simpl; [| rewrite IH]; lra. Qed.

Lemma Qsum_flat_map {A B} (f : A -> list B) (w : B -> Q) (l : list A) :
  Qsum (map w (flat_map f l)) == Qsum (map (fun x => Qsum (map w (f x))) l).
Proof.
  induction l as [| x l IH]; simpl; [lra |].
  rewrite map_app, Qsum_app, IH. lra.
Qed.

Lemma Qsum_ext_in {A} (f g : A -> Q) (l : list A) :
  (forall x, In x l -> f x == g x) -> Qsum (map f l) == Qsum (map g l).
Proof.
  induction l as [| x l IH]; simpl; intros H; [lra |].
  rewrite (H x), IH by auto. lra.
Qed.

Lemma Qsum_Permutation xs ys : Permutation xs ys -> Qsum xs == Qsum ys.
Proof.
  induction 1; simpl; lra.
Qed.

(** ** Adjusting balances *)

Lemma debit_credit k x b : debit k x b = credit k (- x) b.
Proof. reflexivity. Qed.

Lemma credit_keys k x b : Py.keys (credit k x b) = Py.keys b.
Proof.
  unfold credit. destruct (Py.get k b) eqn:E; [| reflexivity].
  eapply keys_setitem_present. exact E.
Qed.

Lemma credit_get_same k x b v0 :
  Py.get k b = Some v0 -> Py.get k (credit k x b) = Some (v0 + x).
Proof. intros E. unfold credit. rewrite E. apply get_setitem_eq. Qed.

Lemma credit_get_other k k' x b :
  k <> k' -> Py.get k' (credit k x b) = Py.get k' b.
Proof.
  intros Hne. unfold credit. destruct (Py.get k b); [| reflexivity].
  apply get_setitem_ne. assumption.
Qed.

Lemma Qsum_setitem k (v v0 : Q) b :
  Py.get k b = Some v0 ->
  Qsum (Py.values (Py.setitem k v b)) == Qsum (Py.values b) - v0 + v.
Proof.
  induction b as [| [k' v'] b IH]; simpl; [discriminate |].
  destruct (Z.eqb_spec k k'); simpl.
  - intros [= ->]. lra.
  - intros E. unfold Py.values in *. rewrite IH by assumption. lra.
Qed.

Lemma Qsum_credit k x b :
  In k (Py.keys b) ->
  Qsum (Py.values (credit k x b)) == Qsum (Py.values b) + x.
Proof.
  intros Hin. destruct (get_Some_keys k b Hin) as [v0 E].
  unfold credit. rewrite E, (Qsum_setitem _ _ _ _ E). lra.
Qed.

Lemma adjust_all_app a1 a2 b :
  adjust_all (a1 ++ a2) b = adjust_all a2 (adjust_all a1 b).
Proof. apply fold_left_app. Qed.

Lemma adjust_all_keys adjs b : Py.keys (adjust_all adjs b) = Py.keys b.
Proof.
  revert b. induction adjs as [| a adjs IH]; intros b; simpl; [reflexivity |].
  rewrite IH. apply credit_keys.
Qed.

Lemma delta_cons k a adjs :
  delta k (a :: adjs) == (if Z.eqb (fst a) k then snd a else 0) + delta k adjs.
Proof. unfold delta. simpl. destruct (Z.eqb (fst a) k); simpl; lra. Qed.

Lemma delta_app k a1 a2 : delta k (a1 ++ a2) == delta k a1 + delta k a2.
Proof. unfold delta. rewrite List.filter_app, map_app. apply Qsum_app. Qed.

(** The balance of a key after a pass is its balance before plus the sum
    of its adjustments. *)
Lemma adjust_all_get k adjs b v0 :
  Py.get k b = Some v0 ->
  exists v, Py.get k (adjust_all adjs b) = Some v /\ v == v0 + delta k adjs.
Proof.
  revert b v0. induction adjs as [| a adjs IH]; intros b v0 E; simpl.
  - exists v0. split; [assumption |]. unfold delta. simpl. lra.
  - destruct (Z.eqb_spec (fst a) k) as [Heq | Hne].
    + subst k. destruct (IH _ _ (credit_get_same _ (snd a) _ _ E)) as (v & Hv & Hsum).
      exists v. split; [assumption |].
      rewrite Hsum, delta_cons, Z.eqb_refl. lra.
    + rewrite <- (credit_get_other _ _ (snd a) _ Hne) in E.
      destruct (IH _ _ E) as (v & Hv & Hsum).
      exists v. split; [assumption |].
      rewrite Hsum, delta_cons. destruct (Z.eqb_spec (fst a) k); [contradiction | lra].
Qed.

(** When every adjusted member is a key, the total moves by the total of
    the adjustments. *)
Lemma adjust_all_total adjs b :
  (forall a, In a adjs -> In (fst a) (Py.keys b)) ->
  Qsum (Py.values (adjust_all adjs b)) == Qsum (Py.values b) + Qsum (map snd adjs).
Proof.
  revert b. induction adjs as [| a adjs IH]; intros b Hin; simpl.
  - lra.
  - rewrite IH.
    + rewrite Qsum_credit by (apply Hin; simpl; auto). lra.
    + intros a' Ha'. rewrite credit_keys. apply Hin. simpl. auto.
Qed.

(** The three passes are passes of adjustments. *)
Lemma add_paid_adjust exps b : add_paid exps b = adjust_all (paid_adjustments exps) b.
Proof.
  revert b. induction exps as [| e exps IH]; intros b; simpl; [reflexivity |].
  apply IH.
Qed.

Lemma subtract_splits_adjust ss b :
  subtract_splits ss b = adjust_all (owed_adjustments ss) b.
Proof.
  revert b. induction ss as [| s ss IH]; intros b; simpl; [reflexivity |].
  apply IH.
Qed.

Lemma subtract_owed_adjust db exps b :
  subtract_owed db exps b
  = adjust_all (owed_adjustments (flat_map (splits_of db) exps)) b.
Proof.
  revert b. induction exps as [| e exps IH]; intros b; simpl; [reflexivity |].
  unfold owed_adjustments. rewrite map_app, adjust_all_app.
  rewrite subtract_splits_adjust. apply IH.
Qed.

Lemma account_settlements_adjust sts b :
  account_settlements sts b = adjust_all (settlement_adjustments sts) b.
Proof.
  revert b. induction sts as [| s sts IH]; intros b; simpl; [reflexivity |].
  apply IH.
Qed.




(** ** The initial balances *)

Lemma zero_balances_gen members d :
  List.NoDup (Py.keys d) ->
  Forall (fun kv => snd kv = 0) d ->
  let d' := fold_left (fun d m => Py.setitem (member_id_ m) 0 d) members d in
  List.NoDup (Py.keys d')
  /\ Forall (fun kv => snd kv = 0) d'
  /\ (forall k, In k (Py.keys d') <-> In k (Py.keys d) \/ In k (map member_id_ members)).
Proof.
  revert d. induction members as [| m members IH]; intros d Hnd Hz; simpl.
  - repeat split; try assumption; tauto.
  - destruct (IH (Py.setitem (member_id_ m) 0 d)) as (H1 & H2 & H3).
    + apply keys_setitem_NoDup. assumption.
    + clear IH Hnd. induction d as [| [k v] d IHd]; simpl.
      * repeat constructor.
      * inversion Hz; subst. destruct (Z.eqb (member_id_ m) k); constructor; auto.
    + repeat split; try assumption.
      * intros H. apply H3 in H. rewrite keys_setitem_In in H.
        intuition (subst; auto).
      * intros H. apply H3. rewrite keys_setitem_In.
        intuition (subst; auto).
Qed.

Lemma zero_balances_spec members :
  List.NoDup (Py.keys (zero_balances members))
  /\ Forall (fun kv => snd kv = 0) (zero_balances members)
  /\ (forall k, In k (Py.keys (zero_balances members)) <-> In k (map member_id_ members)).
Proof.
  destruct (zero_balances_gen members []) as (H1 & H2 & H3);
    [constructor | constructor |].
  repeat split; try assumption.
  - intros H. apply H3 in H. simpl in H. tauto.
  - intros H. apply H3. auto.
Qed.

Lemma zero_balances_get members k v :
  Py.get k (zero_balances members) = Some v -> v = 0.
Proof.
  intros E. apply get_Some_In in E.
  destruct (zero_balances_spec members) as (_ & Hz & _).
  rewrite List.Forall_forall in Hz. exact (Hz _ E).
Qed.

Lemma zero_balances_total members : Qsum (Py.values (zero_balances members)) == 0.
Proof.
  destruct (zero_balances_spec members) as (_ & Hz & _).
  induction Hz as [| [k v] d Hv Hz IH]; simpl in *; [lra |].
  subst v. unfold Py.values in IH. rewrite IH. lra.
Qed.

(** [calculate_member_balances] on an existing group, as one pass. *)
Lemma calculate_member_balances_adjust db group_id g :
  query_group db group_id = Some g ->
  calculate_member_balances db group_id
  = adjust_all
      (paid_adjustments (query_expenses db group_id)
       ++ owed_adjustments (flat_map (splits_of db) (query_expenses db group_id))
       ++ settlement_adjustments (query_settlements db group_id))
      (zero_balances (members_of db g)).
Proof.
  intros Hg. unfold calculate_member_balances. rewrite Hg. cbv zeta.
  rewrite !adjust_all_app, account_settlements_adjust, subtract_owed_adjust,
    add_paid_adjust.
  reflexivity.
Qed.

(** ** The balances of a group *)

(** C8: for a group id that names no group, [calculate_member_balances]
    returns the empty mapping. *)
Theorem balances_of_missing_group (db : Session) (group_id : Z) :
  query_group db group_id = None ->
  calculate_member_balances db group_id = [].
Proof. intros Hg. unfold calculate_member_balances. rewrite Hg. reflexivity. Qed.

Lemma balances_of_missing_group_witness :
  calculate_member_balances lunch_db 7 = [].
Proof. apply (balances_of_missing_group lunch_db 7). reflexivity. Defined.



Lemma paid_adjustments_total exps :
  Qsum (map snd (paid_adjustments exps)) == Qsum (map expense_amount exps).
Proof. unfold paid_adjustments. rewrite map_map. reflexivity. Qed.

Lemma owed_adjustments_total ss :
  Qsum (map snd (owed_adjustments ss)) == - Qsum (map amount_owed ss).
Proof. unfold owed_adjustments. rewrite map_map. simpl. apply Qsum_map_opp. Qed.

Lemma settlement_adjustments_total sts :
  Qsum (map snd (settlement_adjustments sts)) == 0.
Proof. induction sts as [| s sts IH]; simpl; [| rewrite IH]; lra. Qed.

(** Where every expense is split in full among members and every record
    names members only, the balances add up to nothing. *)
Lemma balances_total_exact db group_id g :
  query_group db group_id = Some g ->
  (forall e, In e (query_expenses db group_id) ->
     In (expense_payer_member_id e) (member_ids db g)
     /\ Qsum (map amount_owed (splits_of db e)) == expense_amount e
     /\ forall s, In s (splits_of db e) -> In (split_member_id s) (member_ids db g)) ->
  (forall s, In s (query_settlements db group_id) ->
     In (settlement_payer_member_id s) (member_ids db g)
     /\ In (settlement_receiver_member_id s) (member_ids db g)) ->
  Qsum (Py.values (calculate_member_balances db group_id)) == 0.
Proof.
  intros Hg Hexp Hset.
  rewrite (calculate_member_balances_adjust db group_id g Hg).
  destruct (zero_balances_spec (members_of db g)) as (_ & _ & Hkeys).
  rewrite adjust_all_total.
  - rewrite zero_balances_total, !map_app, !Qsum_app.
    rewrite paid_adjustments_total, owed_adjustments_total,
      settlement_adjustments_total, Qsum_flat_map.
    rewrite (Qsum_ext_in (fun e => Qsum (map amount_owed (splits_of db e)))
               expense_amount (query_expenses db group_id))
      by (intros e He; apply (Hexp e He)).
    lra.
  - intros a Ha. apply Hkeys. fold (member_ids db g).
    rewrite !in_app_iff in Ha. destruct Ha as [Ha | [Ha | Ha]].
    + apply in_map_iff in Ha as (e & <- & He). apply (Hexp e He).
    + apply in_map_iff in Ha as (s & <- & Hs).
      apply in_flat_map in Hs as (e & He & Hs). apply (Hexp e He). assumption.
    + apply in_flat_map in Ha as (s & Hs & Ha).
      destruct (Hset s Hs) as [Hp Hr].
      destruct Ha as [<- | [<- | []]]; assumption.
Qed.

(** ** Whole ledgers *)

Lemma integer_wd a b : a == b -> integer a -> integer b.
Proof. intros E [z Hz]. exists z. rewrite <- E. exact Hz. Qed.

Lemma integer_zero : integer 0.
Proof. exists 0%Z. reflexivity. Qed.

Lemma integer_plus a b : integer a -> integer b -> integer (a + b).
Proof.
  intros [x Hx] [y Hy]. exists (x + y)%Z. rewrite inject_Z_plus, Hx, Hy. reflexivity.
Qed.

Lemma integer_opp a : integer a -> integer (- a).
Proof. intros [x Hx]. exists (- x)%Z. rewrite inject_Z_opp, Hx. reflexivity. Qed.

Lemma integer_minus a b : integer a -> integer b -> integer (a - b).
Proof. intros Ha Hb. apply integer_plus; [assumption | apply integer_opp; assumption]. Qed.

Lemma whole_wd a b : a == b -> whole a -> whole b.
Proof.
  intros E [Hz Hb]. split; [exact (integer_wd a b E Hz) | rewrite <- E; exact Hb].
Qed.

Lemma whole_zero : whole 0.
Proof. split; [exact integer_zero | vm_compute; discriminate]. Qed.

Lemma Qsum_cons x xs : Qsum (x :: xs) == x + Qsum xs.
Proof. reflexivity. Qed.

Lemma Qsum_all_zero_abs (d : list (Z * Q)) :
  Forall (fun kv => snd kv = 0) d -> Qsum (map Qabs (Py.values d)) == 0.
Proof.
  induction 1 as [| [k v] d Hv _ IH]; [reflexivity |].
  unfold Py.values in *. rewrite !map_cons, Qsum_cons, IH.
  cbn [snd] in *. subst v. reflexivity.
Qed.

Lemma Qsum_abs_nonneg {A} (f : A -> Q) (l : list A) :
  0 <= Qsum (map (fun x => Qabs (f x)) l).
Proof.
  induction l as [| x l IH]; simpl; [lra |].
  pose proof (Qabs_nonneg (f x)). lra.
Qed.

Lemma Qsum_abs_app_l {A} (f : A -> Q) (pre post : list A) :
  Qsum (map (fun x => Qabs (f x)) pre)
  <= Qsum (map (fun x => Qabs (f x)) (pre ++ post)).
Proof.
  rewrite map_app, Qsum_app. pose proof (Qsum_abs_nonneg f post). lra.
Qed.

(** What the adjustments of a member add up to is whole when they are, and
    no larger than the adjustments taken together. *)
Lemma delta_integer k adjs :
  Forall (fun a => integer (snd a)) adjs -> integer (delta k adjs).
Proof.
  induction 1 as [| a adjs Ha _ IH].
  - exact integer_zero.
  - apply (integer_wd _ _ (Qeq_sym _ _ (delta_cons k a adjs))).
    apply integer_plus; [| exact IH].
    destruct (Z.eqb (fst a) k); [exact Ha | exact integer_zero].
Qed.

Lemma delta_bound k adjs :
  Qabs (delta k adjs) <= Qsum (map (fun a => Qabs (snd a)) adjs).
Proof.
  induction adjs as [| a adjs IH].
  - unfold delta. simpl. apply Qle_refl.
  - rewrite delta_cons. simpl.
    eapply Qle_trans; [apply Qabs_triangle |].
    pose proof (Qabs_nonneg (snd a)).
    destruct (Z.eqb (fst a) k); [lra |].
    change (Qabs 0) with 0. lra.
Qed.

(** The adjustments of a group are its amounts, those of the settlements
    twice. *)
Lemma group_adjustments_integer db group_id :
  Forall whole (ledger_amounts db group_id) ->
  Forall (fun a => integer (snd a)) (group_adjustments db group_id).
Proof.
  unfold ledger_amounts, group_adjustments. rewrite !Forall_app.
  intros (Hp & Ho & Hs). repeat split.
  - unfold paid_adjustments. rewrite Forall_map in Hp |- *.
    eapply Forall_impl; [exact Hp |]. simpl. intros e [He _]. exact He.
  - unfold owed_adjustments. rewrite Forall_map in Ho. rewrite Forall_map.
    eapply Forall_impl; [exact Ho |]. simpl. intros x [Hx _].
    apply integer_opp. exact Hx.
  - rewrite Forall_map in Hs. unfold settlement_adjustments.
    induction Hs as [| x l [Hx _] _ IH]; simpl; [constructor |].
    constructor; [exact Hx |]. constructor; [apply integer_opp; exact Hx | exact IH].
Qed.

Lemma group_adjustments_total db group_id :
  Qsum (map (fun a => Qabs (snd a)) (group_adjustments db group_id))
  <= 2 * Qsum (map Qabs (ledger_amounts db group_id)).
Proof.
  unfold ledger_amounts, group_adjustments.
  rewrite !map_app, !Qsum_app, !map_map.
  set (exps := query_expenses db group_id).
  set (ss := flat_map (splits_of db) exps).
  set (sts := query_settlements db group_id).
  assert (Hp : Qsum (map (fun x => Qabs (snd x)) (paid_adjustments exps))
               == Qsum (map (fun e => Qabs (expense_amount e)) exps)).
  { unfold paid_adjustments. rewrite map_map. reflexivity. }
  assert (Ho : Qsum (map (fun x => Qabs (snd x)) (owed_adjustments ss))
               == Qsum (map (fun x => Qabs (amount_owed x)) ss)).
  { unfold owed_adjustments. rewrite map_map. apply Qsum_ext_in.
    intros x _. apply Qabs_opp. }
  assert (Hs : Qsum (map (fun x => Qabs (snd x)) (settlement_adjustments sts))
               == 2 * Qsum (map (fun x => Qabs (settlement_amount x)) sts)).
  { induction sts as [| x l IH]; [reflexivity |].
    change (settlement_adjustments (x :: l))
      with ((settlement_payer_member_id x, settlement_amount x)
            :: (settlement_receiver_member_id x, - settlement_amount x)
            :: settlement_adjustments l).
    rewrite !map_cons, !Qsum_cons, IH. cbn [snd]. rewrite Qabs_opp. ring. }
  rewrite Hp, Ho, Hs.
  pose proof (Qsum_abs_nonneg expense_amount exps).
  pose proof (Qsum_abs_nonneg amount_owed ss).
  lra.
Qed.

(** In a whole ledger every balance on the way through the three passes is
    whole. *)
Lemma balances_on_the_way db group_id g pre post :
  whole_ledger db group_id ->
  group_adjustments db group_id = pre ++ post ->
  forall k v, In (k, v) (adjust_all pre (zero_balances (members_of db g))) ->
    whole v.
Proof.
  intros [Hw Htotal] Hsplit k v Hin.
  destruct (zero_balances_spec (members_of db g)) as (Hnd & _ & _).
  assert (Hk : In k (Py.keys (zero_balances (members_of db g)))).
  { rewrite <- (adjust_all_keys pre). apply in_map_iff. exists (k, v). auto. }
  destruct (get_Some_keys k _ Hk) as [v0 E].
  pose proof (zero_balances_get _ _ _ E) as ->.
  destruct (adjust_all_get k pre _ _ E) as (v' & Hv' & Hsum).
  assert (v = v') as <-.
  { apply In_get_NoDup in Hin; [congruence |]. rewrite adjust_all_keys. exact Hnd. }
  pose proof (group_adjustments_integer db group_id Hw) as Hint.
  rewrite Hsplit in Hint. apply Forall_app in Hint as [Hint _].
  assert (E0 : v == delta k pre) by lra.
  apply (whole_wd (delta k pre)); [symmetry; exact E0 |].
  split; [apply delta_integer; exact Hint |].
  eapply Qle_trans; [apply delta_bound |].
  eapply Qle_trans; [apply (Qsum_abs_app_l snd pre post) |].
  rewrite <- Hsplit.
  eapply Qle_trans; [apply group_adjustments_total |].
  change (inject_Z (2 ^ 53)) with (2 * inject_Z (2 ^ 52)). lra.
Qed.

Lemma abs_total_setitem k (v v0 : Q) b :
  Py.get k b = Some v0 ->
  Qsum (map Qabs (Py.values (Py.setitem k v b)))
  == Qsum (map Qabs (Py.values b)) - Qabs v0 + Qabs v.
Proof.
  induction b as [| [k' v'] b IH]; [discriminate |].
  cbn [Py.get Py.setitem]. destruct (Z.eqb k k').
  - intros [= ->]. unfold Py.values. rewrite !map_cons, !Qsum_cons. cbn [snd]. ring.
  - intros E. unfold Py.values in *. rewrite !map_cons, !Qsum_cons, (IH E).
    cbn [snd]. ring.
Qed.

Lemma abs_total_credit k x b :
  Qsum (map Qabs (Py.values (credit k x b)))
  <= Qsum (map Qabs (Py.values b)) + Qabs x.
Proof.
  unfold credit. destruct (Py.get k b) as [v0 |] eqn:E.
  - rewrite (abs_total_setitem _ _ _ _ E).
    pose proof (Qabs_triangle v0 x). lra.
  - pose proof (Qabs_nonneg x). lra.
Qed.

Lemma abs_total_adjust adjs b :
  Qsum (map Qabs (Py.values (adjust_all adjs b)))
  <= Qsum (map Qabs (Py.values b)) + Qsum (map (fun a => Qabs (snd a)) adjs).
Proof.
  revert b. induction adjs as [| a adjs IH]; intros b.
  - cbn [adjust_all fold_left map]. change (Qsum []) with 0. lra.
  - change (adjust_all (a :: adjs) b) with (adjust_all adjs (credit (fst a) (snd a) b)).
    rewrite map_cons, Qsum_cons.
    eapply Qle_trans; [apply IH |].
    pose proof (abs_total_credit (fst a) (snd a) b). lra.
Qed.

Lemma Qsum_integer xs : Forall integer xs -> integer (Qsum xs).
Proof.
  induction 1 as [| x xs Hx _ IH]; [exact integer_zero |].
  apply (integer_wd _ _ (Qeq_sym _ _ (Qsum_cons x xs))).
  apply integer_plus; assumption.
Qed.

Lemma Qsum_abs_triangle xs : Qabs (Qsum xs) <= Qsum (map Qabs xs).
Proof.
  induction xs as [| x xs IH]; [apply Qle_refl |].
  rewrite map_cons, !Qsum_cons.
  eapply Qle_trans; [apply Qabs_triangle |]. lra.
Qed.

(** In a whole ledger every partial sum of the balances returned is
    whole. *)
Lemma balance_sums_on_the_way db group_id g pre post :
  query_group db group_id = Some g ->
  whole_ledger db group_id ->
  Py.values (calculate_member_balances db group_id) = pre ++ post ->
  whole (Qsum pre).
Proof.
  intros Hg Hw Hsplit.
  rewrite (calculate_member_balances_adjust db group_id g Hg) in Hsplit.
  fold (group_adjustments db group_id) in Hsplit.
  assert (Hall : Forall whole (pre ++ post)).
  { rewrite <- Hsplit. apply List.Forall_forall. intros v Hv.
    apply in_map_iff in Hv as ([k v'] & <- & Hin).
    apply (balances_on_the_way db group_id g (group_adjustments db group_id) [] Hw
             (eq_sym (app_nil_r _)) k v' Hin). }
  split.
  - apply Qsum_integer. apply Forall_app in Hall as [Hpre _].
    eapply Forall_impl; [exact Hpre |]. intros v [Hv _]. exact Hv.
  - eapply Qle_trans; [apply Qsum_abs_triangle |].
    eapply Qle_trans; [apply (Qsum_abs_app_l (fun x => x) pre post) |].
    rewrite map_ext with (g := Qabs) by reflexivity.
    rewrite <- Hsplit.
    eapply Qle_trans; [apply abs_total_adjust |].
    assert (Hzero : Qsum (map Qabs (Py.values (zero_balances (members_of db g)))) == 0).
    { destruct (zero_balances_spec (members_of db g)) as (_ & Hz & _).
      apply Qsum_all_zero_abs. exact Hz. }
    rewrite Hzero. destruct Hw as [_ Htotal].
    eapply Qle_trans;
      [apply Qplus_le_r; apply group_adjustments_total |].
    change (inject_Z (2 ^ 53)) with (2 * inject_Z (2 ^ 52)). lra.
Qed.




Lemma lunch_consistent : consistent lunch_db 1 trip.
Proof.
  split.
  - intros e [<- | []]. split; [simpl; auto |]. split; [reflexivity |].
    intros s [<- | [<- | []]]; simpl; auto.
  - intros s [<- | []]. simpl. auto.
Qed.


(** ** Debtors and creditors *)

Lemma debtor_not_creditor b : is_debtor b = true -> is_creditor b = false.
Proof.
  unfold is_debtor, is_creditor. intros H.
  destruct (lt_reflect (Py.round2 b) (- (1 # 100))); [| discriminate].
  destruct (gt_reflect (Py.round2 b) (1 # 100)); [lra | reflexivity].
Qed.

(** The loop over [balances.items()] files the items in order. *)
Lemma classify_all balances ds cs :
  fold_left classify balances (ds, cs)
  = (ds ++ map entry_of (List.filter (fun kv => is_debtor (snd kv)) balances),
     cs ++ map entry_of (List.filter (fun kv => is_creditor (snd kv)) balances)).
Proof.
  revert ds cs. induction balances as [| [k b] balances IH]; intros ds cs; simpl.
  - rewrite !app_nil_r. reflexivity.
  - fold (is_debtor b). fold (is_creditor b).
    destruct (is_debtor b) eqn:Ed.
    + rewrite (debtor_not_creditor b Ed), IH. simpl. rewrite <- app_assoc.
      reflexivity.
    + destruct (is_creditor b) eqn:Ec; rewrite IH; simpl;
        rewrite <- ?app_assoc; reflexivity.
Qed.

Lemma insert_by_amount_Permutation reverse x l :
  Permutation (insert_by_amount reverse x l) (x :: l).
Proof.
  induction l as [| y l IH]; simpl; [reflexivity |].
  destruct (if reverse then _ else _); [reflexivity |].
  rewrite IH. apply perm_swap.
Qed.

Lemma sort_by_amount_Permutation reverse l :
  Permutation (sort_by_amount reverse l) l.
Proof.
  induction l as [| x l IH]; simpl; [reflexivity |].
  rewrite insert_by_amount_Permutation, IH. reflexivity.
Qed.

Lemma loop_entry_debtors balances :
  Permutation (debtors (loop_entry balances))
    (map entry_of (List.filter (fun kv => is_debtor (snd kv)) balances)).
Proof.
  unfold loop_entry. rewrite classify_all. simpl.
  apply sort_by_amount_Permutation.
Qed.

Lemma loop_entry_creditors balances :
  Permutation (creditors (loop_entry balances))
    (map entry_of (List.filter (fun kv => is_creditor (snd kv)) balances)).
Proof.
  unfold loop_entry. rewrite classify_all. simpl.
  apply sort_by_amount_Permutation.
Qed.

Lemma loop_entry_cursors balances :
  i (loop_entry balances) = 0%nat /\ j (loop_entry balances) = 0%nat
  /\ transactions (loop_entry balances) = [].
Proof. unfold loop_entry. rewrite classify_all. simpl. auto. Qed.

Lemma loop_entry_lengths balances :
  length (debtors (loop_entry balances)) = debtor_count balances
  /\ length (creditors (loop_entry balances)) = creditor_count balances.
Proof.
  unfold debtor_count, creditor_count.
  rewrite (Permutation_length (loop_entry_debtors balances)),
    (Permutation_length (loop_entry_creditors balances)), !length_map.
  auto.
Qed.

Lemma loop_entry_inv balances : loop_inv (loop_entry balances).
Proof.
  destruct (loop_entry_cursors balances) as (Hi & Hj & _).
  split.
  - rewrite Hi. lia.
  - rewrite Hj. lia.
  - eapply Permutation_Forall; [symmetry; apply loop_entry_debtors |].
    apply List.Forall_forall. intros e He.
    apply in_map_iff in He as ([k b] & <- & Hin).
    apply filter_In in Hin as [_ Hd]. simpl in *. unfold is_debtor in Hd.
    destruct (lt_reflect (Py.round2 b) (- (1 # 100))); [lra | discriminate].
Qed.

(** ** One round of the loop *)

Lemma loop_guard_true st :
  loop_guard st = true <->
  (i st < length (debtors st))%nat /\ (j st < length (creditors st))%nat.
Proof.
  unfold loop_guard. rewrite andb_true_iff, !Nat.ltb_lt. reflexivity.
Qed.

Lemma loop_guard_lookup st :
  loop_guard st = true ->
  exists d c, debtors st !! i st = Some d /\ creditors st !! j st = Some c.
Proof.
  intros H. apply loop_guard_true in H as [Hi Hj].
  destruct (lookup_lt_is_Some_2 _ _ Hi) as [d Hd].
  destruct (lookup_lt_is_Some_2 _ _ Hj) as [c Hc].
  eauto.
Qed.

(** The round that settles between the debtor [d] and the creditor [c]. *)
Lemma loop_body_eq st d c :
  debtors st !! i st = Some d ->
  creditors st !! j st = Some c ->
  let a := Py.min (Qabs (amount d)) (amount c) in
  loop_body st
  = {| debtors := <[i st := {| id := id d; amount := amount d + a |}]> (debtors st);
       creditors := <[j st := {| id := id c; amount := amount c - a |}]> (creditors st);
       i := if Py.lt (Qabs (amount d + a)) (1 # 100) then S (i st) else i st;
       j := if Py.lt (amount c - a) (1 # 100) then S (j st) else j st;
       transactions := transactions st ++ [(id d, id c, a)] |}.
Proof. intros Hd Hc. unfold loop_body. rewrite Hd, Hc. reflexivity. Qed.

Lemma min_cases a b :
  (b < a /\ Py.min a b = b) \/ (a <= b /\ Py.min a b = a).
Proof.
  unfold Py.min. destruct (lt_reflect b a); [left | right]; split; auto; lra.
Qed.

(** The amount settled clears the debtor or the creditor, and never turns a
    debt into a credit. *)
Lemma settle_progress (d c : Q) :
  d <= 0 ->
  let a := Py.min (Qabs d) c in
  d + a <= 0
  /\ (Py.lt (Qabs (d + a)) (1 # 100) = true \/ Py.lt (c - a) (1 # 100) = true).
Proof.
  intros Hd a. subst a. pose proof (Qabs_neg d Hd) as Habs.
  destruct (min_cases (Qabs d) c) as [[Hlt ->] | [Hle ->]].
  - split; [lra |]. right.
    destruct (lt_reflect (c - c) (1 # 100)); [reflexivity | lra].
  - split; [lra |]. left.
    assert (Hz : Qabs (d + Qabs d) == 0).
    { assert (E : d + Qabs d == 0) by lra. rewrite E. reflexivity. }
    destruct (lt_reflect (Qabs (d + Qabs d)) (1 # 100)); [reflexivity | lra].
Qed.

(** A round keeps the invariant and the lengths, records one transaction
    and moves a cursor. *)
Lemma loop_body_step st :
  loop_guard st = true ->
  loop_inv st ->
  let st' := loop_body st in
  loop_inv st'
  /\ length (debtors st') = length (debtors st)
  /\ length (creditors st') = length (creditors st)
  /\ length (transactions st') = S (length (transactions st))
  /\ (i st <= i st')%nat /\ (j st <= j st')%nat
  /\ (i st + j st < i st' + j st')%nat.
Proof.
  intros Hguard [Hi Hj Hneg] st'.
  destruct (loop_guard_lookup st Hguard) as (d & c & Hd & Hc).
  apply loop_guard_true in Hguard as [Hi' Hj'].
  subst st'. rewrite (loop_body_eq st d c Hd Hc).
  assert (Hdneg : amount d <= 0).
  { rewrite List.Forall_forall in Hneg. apply Hneg.
    apply list_elem_of_In, list_elem_of_lookup. eauto. }
  destruct (settle_progress (amount d) (amount c) Hdneg) as [Hsum Hmove].
  set (a := Py.min (Qabs (amount d)) (amount c)) in *.
  cbn [debtors creditors i j transactions].
  rewrite !length_insert, length_app. cbn [length].
  assert (Hcursors :
    (i st <= (if Py.lt (Qabs (amount d + a)) (1 # 100) then S (i st) else i st)
              <= length (debtors st))%nat
    /\ (j st <= (if Py.lt (amount c - a) (1 # 100) then S (j st) else j st)
              <= length (creditors st))%nat
    /\ (i st + j st
        < (if Py.lt (Qabs (amount d + a)) (1 # 100) then S (i st) else i st)
          + (if Py.lt (amount c - a) (1 # 100) then S (j st) else j st))%nat).
  { destruct Hmove as [-> | ->];
      [destruct (Py.lt (amount c - a) _) | destruct (Py.lt (Qabs _) _)]; lia. }
  split; [| repeat split; lia].
  split; cbn [debtors creditors i j]; rewrite ?length_insert; try lia.
  apply Forall_insert; assumption.
Qed.

(** ** The whole loop *)

(** A property kept by every round holds when the loop is left, and the
    guard is then false. *)
Lemma while_loop_invariant (P : loop_state -> Prop) :
  (forall st, loop_guard st = true -> P st -> P (loop_body st)) ->
  forall fuel st st',
    P st -> while_loop fuel st = Some st' -> P st' /\ loop_guard st' = false.
Proof.
  intros Hstep fuel. induction fuel as [| fuel IH]; intros st st' HP Hrun;
    simpl in Hrun; destruct (loop_guard st) eqn:Hguard;
    try discriminate; try (injection Hrun as <-; auto).
  eapply IH; [| exact Hrun]. auto.
Qed.

(** The loop is left within as many rounds as entries remain. *)
Lemma while_loop_terminates fuel st :
  loop_inv st ->
  ((length (debtors st) - i st) + (length (creditors st) - j st) <= fuel)%nat ->
  exists st', while_loop fuel st = Some st'.
Proof.
  revert st. induction fuel as [| fuel IH]; intros st Hinv Hfuel; simpl;
    destruct (loop_guard st) eqn:Hguard; eauto.
  - apply loop_guard_true in Hguard. lia.
  - destruct (loop_body_step st Hguard Hinv)
      as (Hinv' & Hnd & Hnc & _ & Hi & Hj & Hmove).
    apply IH; [assumption |].
    destruct Hinv' as [Hi' Hj' _]. apply loop_guard_true in Hguard.
    rewrite Hnd, Hnc in *. lia.
Qed.

(** [simplify_debts] returns, and returns the transactions of the state in
    which the loop is left. *)
Lemma simplify_debts_runs balances :
  exists st',
    while_loop (length (debtors (loop_entry balances))
                + length (creditors (loop_entry balances)))
               (loop_entry balances) = Some st'
    /\ simplify_debts balances = Some (transactions st').
Proof.
  destruct (while_loop_terminates
              (length (debtors (loop_entry balances))
               + length (creditors (loop_entry balances)))
              (loop_entry balances) (loop_entry_inv balances)) as [st' Hrun].
  - lia.
  - exists st'. split; [assumption |]. unfold simplify_debts. rewrite Hrun.
    reflexivity.
Qed.

(** ** The number of transactions *)

Lemma count_inv_step nd nc st :
  loop_guard st = true -> count_inv nd nc st -> count_inv nd nc (loop_body st).
Proof.
  intros Hguard (Hinv & Hnd & Hnc & Hlen & _).
  destruct (loop_body_step st Hguard Hinv)
    as (Hinv' & Hnd' & Hnc' & Htx & Hi & Hj & Hmove).
  apply loop_guard_true in Hguard.
  unfold count_inv. rewrite Hnd', Hnc', Htx.
  split; [assumption |]. repeat split; lia.
Qed.

(** C6, as stated, fails: for a group that is all square there are no
    debtors and no creditors, the bound is [-1], and the list returned is
    empty. *)
Lemma settled_group_exceeds_bound :
  exists txs,
    simplify_debts settled_balances = Some txs
    /\ ~ (Z.of_nat (length txs)
          <= Z.of_nat (debtor_count settled_balances)
             + Z.of_nat (creditor_count settled_balances) - 1)%Z.
Proof.
  exists []. split; [reflexivity |]. vm_compute. intros H. apply H. reflexivity.
Qed.

(** C6, amended: [simplify_debts] returns a list of at most
    [debtorCount + creditorCount - 1] transactions when there is a debtor or
    a creditor, and the empty list when there is none. *)
Theorem simplify_debts_length_bound (balances : list (Z * Q)) :
  exists txs,
    simplify_debts balances = Some txs
    /\ (Z.of_nat (length txs)
        <= Z.max 0 (Z.of_nat (debtor_count balances)
                    + Z.of_nat (creditor_count balances) - 1))%Z.
Proof.
  destruct (simplify_debts_runs balances) as (st' & Hrun & Hres).
  exists (transactions st'). split; [assumption |].
  destruct (loop_entry_lengths balances) as [Hnd Hnc].
  destruct (loop_entry_cursors balances) as (Hi & Hj & Htx).
  assert (Hentry : count_inv (debtor_count balances) (creditor_count balances)
                     (loop_entry balances)).
  { split; [apply loop_entry_inv |]. rewrite Htx. simpl. repeat split; auto; lia. }
  destruct (while_loop_invariant _ (count_inv_step _ _) _ _ _ Hentry Hrun)
    as [(_ & _ & _ & _ & Hbound) _].
  lia.
Qed.

(** ** Whole hundredths *)

(** Division by 100 as a product, for linear arithmetic. *)
Ltac hundredths := unfold Qdiv in *; change (/ 100) with (1 # 100) in *.

Lemma cents_round2 x : cents (Py.round2 x).
Proof. eexists. reflexivity. Qed.

Lemma cents_plus a b : cents a -> cents b -> cents (a + b).
Proof.
  intros [x Hx] [y Hy]. exists (x + y)%Z. rewrite inject_Z_plus, Hx, Hy. field.
Qed.

Lemma cents_opp a : cents a -> cents (- a).
Proof.
  intros [x Hx]. exists (- x)%Z. rewrite inject_Z_opp, Hx. field.
Qed.

Lemma cents_minus a b : cents a -> cents b -> cents (a - b).
Proof. intros Ha Hb. apply cents_plus; [assumption | apply cents_opp; assumption]. Qed.

Lemma cents_wd a b : a == b -> cents a -> cents b.
Proof. intros E [x Hx]. exists x. rewrite <- E. assumption. Qed.

Lemma cents_abs a : cents a -> cents (Qabs a).
Proof.
  intros Ha. destruct (Qlt_le_dec a 0) as [Hneg | Hpos].
  - apply (cents_wd (- a)); [| apply cents_opp; assumption].
    symmetry. apply Qabs_neg. lra.
  - apply (cents_wd a); [| assumption]. symmetry. apply Qabs_pos. assumption.
Qed.

Lemma cents_min a b : cents a -> cents b -> cents (Py.min a b).
Proof. intros Ha Hb. destruct (min_cases a b) as [[_ ->] | [_ ->]]; assumption. Qed.

(** A whole number of hundredths strictly between -0.01 and 0.01 is zero. *)
Lemma cents_small a : cents a -> - (1 # 100) < a -> a < 1 # 100 -> a == 0.
Proof.
  intros [z Hz] Hlo Hhi. rewrite Hz in *. hundredths.
  assert (Hz1 : -1 < inject_Z z) by lra.
  assert (Hz2 : inject_Z z < 1) by lra.
  change (-1) with (inject_Z (-1)) in Hz1. change 1 with (inject_Z 1) in Hz2.
  rewrite <- Zlt_Qlt in Hz1, Hz2.
  assert (z = 0%Z) as -> by lia. reflexivity.
Qed.

Lemma cents_abs_small a : cents a -> Qabs a < 1 # 100 -> a == 0.
Proof.
  intros Ha Habs. apply Qabs_Qlt_condition in Habs as [Hlo Hhi].
  apply cents_small; assumption.
Qed.

(** ** Sums over the debtor and creditor lists *)

Lemma Qsum_map_insert {A} (f : A -> Q) (l : list A) (n : nat) (x x' : A) :
  l !! n = Some x ->
  Qsum (map f (<[n := x']> l)) == Qsum (map f l) - f x + f x'.
Proof.
  revert n. induction l as [| y l IH]; intros [| n]; simpl; try discriminate.
  - intros [= ->]. lra.
  - intros H. rewrite (IH n H). lra.
Qed.

Lemma Qsum_all_zero {A} (f : A -> Q) (l : list A) :
  Forall (fun x => f x == 0) l -> Qsum (map f l) == 0.
Proof. induction 1 as [| x l Hx _ IH]; simpl; [| rewrite Hx, IH]; lra. Qed.

Lemma Qsum_nonneg_zero {A} (f : A -> Q) (l : list A) :
  Forall (fun x => 0 <= f x) l -> Qsum (map f l) == 0 ->
  Forall (fun x => f x == 0) l.
Proof.
  induction 1 as [| x l Hx Hl IH]; simpl; intros Hsum; constructor.
  - assert (0 <= Qsum (map f l)).
    { clear -Hl. induction Hl; simpl; lra. }
    lra.
  - apply IH.
    assert (0 <= Qsum (map f l)).
    { clear -Hl. induction Hl; simpl; lra. }
    lra.
Qed.

Lemma Qsum_nonpos_zero {A} (f : A -> Q) (l : list A) :
  Forall (fun x => f x <= 0) l -> Qsum (map f l) == 0 ->
  Forall (fun x => f x == 0) l.
Proof.
  intros Hl Hsum.
  assert (H : Forall (fun x => - f x == 0) l).
  { apply (Qsum_nonneg_zero (fun x => - f x)).
    - eapply Forall_impl; [exact Hl |]. simpl. intros x Hx. lra.
    - rewrite Qsum_map_opp, Hsum. reflexivity. }
  eapply Forall_impl; [exact H |]. simpl. intros x Hx. lra.
Qed.

Lemma held_all_zero m l : Forall (fun e => amount e == 0) l -> held m l == 0.
Proof.
  intros H. unfold held. apply Qsum_all_zero.
  eapply Forall_impl; [exact H |]. simpl. intros e He.
  destruct (Z.eqb (id e) m); [assumption | reflexivity].
Qed.

Lemma delta_transaction m txs payer receiver a :
  delta m (transaction_adjustments (txs ++ [(payer, receiver, a)]))
  == delta m (transaction_adjustments txs)
     + (if Z.eqb payer m then a else 0) - (if Z.eqb receiver m then a else 0).
Proof.
  unfold transaction_adjustments. rewrite flat_map_app, delta_app. simpl.
  rewrite !delta_cons. simpl. unfold delta. simpl.
  destruct (Z.eqb payer m), (Z.eqb receiver m); lra.
Qed.

(** ** The invariant of the settlement *)

(** Updating the entry under a cursor, and passing it only when it is
    cleared, keeps the entries behind the cursor cleared. *)
Lemma done_prefix_insert (l : list entry) (n : nat) (e' : entry) (advance : bool) :
  (n < length l)%nat ->
  Forall (fun e => amount e == 0) (take n l) ->
  (advance = true -> amount e' == 0) ->
  Forall (fun e => amount e == 0)
         (take (if advance then S n else n) (<[n := e']> l)).
Proof.
  intros Hn Hdone He'. destruct advance.
  - rewrite (take_S_r _ _ e') by (apply list_lookup_insert_eq; assumption).
    rewrite take_insert_ge by lia.
    apply Forall_app. split; [assumption |]. constructor; auto.
  - rewrite take_insert_ge by lia. assumption.
Qed.

Lemma settle_inv_step st0 st :
  loop_guard st = true -> settle_inv st0 st -> settle_inv st0 (loop_body st).
Proof.
  intros Hguard [Hloop Hdc Hcr Hdd Hcd Htot Hled].
  destruct (loop_body_step st Hguard Hloop) as (Hloop' & _).
  destruct (loop_guard_lookup st Hguard) as (d & c & Hd & Hc).
  apply loop_guard_true in Hguard as [Hi Hj].
  pose proof (Forall_lookup_1 _ _ _ _ (inv_debtors _ Hloop) Hd) as Hdneg.
  pose proof (Forall_lookup_1 _ _ _ _ Hdc Hd) as Hdcents.
  destruct (Forall_lookup_1 _ _ _ _ Hcr Hc) as [Hccents Hcpos].
  simpl in Hdneg, Hdcents, Hccents, Hcpos.
  destruct (settle_progress (amount d) (amount c) Hdneg) as [Hsum _].
  revert Hloop'. rewrite (loop_body_eq st d c Hd Hc).
  set (a := Py.min (Qabs (amount d)) (amount c)) in *. intros Hloop'.
  assert (Hacents : cents a) by (apply cents_min; [apply cents_abs |]; assumption).
  assert (Hrest : 0 <= amount c - a).
  { subst a. pose proof (Qabs_neg _ Hdneg).
    destruct (min_cases (Qabs (amount d)) (amount c)) as [[? ->] | [? ->]]; lra. }
  split; cbn [debtors creditors i j transactions].
  - exact Hloop'.
  - apply Forall_insert; [assumption |]. apply cents_plus; assumption.
  - apply Forall_insert; [assumption |]. split; [| assumption].
    apply cents_minus; assumption.
  - apply done_prefix_insert; try assumption. simpl. intros Hlt.
    apply cents_abs_small; [apply cents_plus; assumption |].
    apply lt_true. exact Hlt.
  - apply done_prefix_insert; try assumption. simpl. intros Hlt.
    apply cents_small; [apply cents_minus; assumption | lra |].
    apply lt_true. exact Hlt.
  - rewrite (Qsum_map_insert amount _ _ _ _ Hd), (Qsum_map_insert amount _ _ _ _ Hc).
    simpl. lra.
  - intros m. specialize (Hled m). unfold held in *.
    rewrite (Qsum_map_insert _ _ _ _ _ Hd), (Qsum_map_insert _ _ _ _ _ Hc).
    rewrite delta_transaction. simpl.
    destruct (Z.eqb (id d) m), (Z.eqb (id c) m); lra.
Qed.

(** When the loop is left with nothing held in total, every entry is
    cleared. *)
Lemma settle_inv_exit st0 st :
  settle_inv st0 st ->
  loop_guard st = false ->
  Qsum (map amount (debtors st0)) + Qsum (map amount (creditors st0)) == 0 ->
  Forall (fun e => amount e == 0) (debtors st)
  /\ Forall (fun e => amount e == 0) (creditors st).
Proof.
  intros [[Hi Hj Hneg] Hdc Hcr Hdd Hcd Htot Hled] Hguard Hzero.
  rewrite Hzero in Htot.
  assert (Hpos : Forall (fun e => 0 <= amount e) (creditors st)).
  { eapply Forall_impl; [exact Hcr |]. simpl. tauto. }
  assert (Hend : i st = length (debtors st) \/ j st = length (creditors st)).
  { destruct (loop_guard st) eqn:E; [discriminate |].
    unfold loop_guard in E. apply andb_false_iff in E as [E | E];
      apply Nat.ltb_ge in E; lia. }
  destruct Hend as [E | E]; rewrite E, take_ge in * by lia.
  - split; [assumption |].
    apply Qsum_nonneg_zero; [assumption |].
    rewrite (Qsum_all_zero amount _ Hdd) in Htot. lra.
  - split; [| assumption].
    apply Qsum_nonpos_zero; [assumption |].
    rewrite (Qsum_all_zero amount _ Hcd) in Htot. lra.
Qed.

(** ** Rounding *)

Lemma round_half_even_error x :
  Qabs (x - inject_Z (Py.round_half_even x)) <= 1 # 2.
Proof.
  pose proof (Qfloor_le x) as Hlo. pose proof (Qlt_floor x) as Hhi.
  rewrite inject_Z_plus in Hhi. change (inject_Z 1) with 1 in Hhi.
  apply Qabs_Qle_condition. unfold Py.round_half_even.
  destruct (Qcompare (x - inject_Z (Qfloor x)) (1 # 2)) eqn:E.
  - apply Qeq_alt in E.
    destruct (Z.even (Qfloor x)); rewrite ?inject_Z_plus;
      change (inject_Z 1) with 1; lra.
  - apply Qlt_alt in E. lra.
  - apply Qgt_alt in E. rewrite inject_Z_plus. change (inject_Z 1) with 1. lra.
Qed.

(** Rounding to two places moves a balance by half a hundredth at most. *)
Lemma round2_error b : Qabs (b - Py.round2 b) <= 1 # 200.
Proof.
  pose proof (round_half_even_error (b * 100)) as H.
  apply Qabs_Qle_condition in H. apply Qabs_Qle_condition.
  unfold Py.round2. hundredths. lra.
Qed.

(** ** The state on entry to the loop *)

Lemma classified_sum (w : entry -> Q) balances :
  Qsum (map w (map entry_of (List.filter (fun kv => is_debtor (snd kv)) balances)))
  + Qsum (map w (map entry_of (List.filter (fun kv => is_creditor (snd kv)) balances)))
  == Qsum (map (fun kv => if is_debtor (snd kv) || is_creditor (snd kv)
                          then w (entry_of kv) else 0) balances).
Proof.
  induction balances as [| [k b] balances IH]; simpl; [lra |].
  destruct (is_debtor b) eqn:Ed.
  - rewrite (debtor_not_creditor b Ed). simpl. lra.
  - destruct (is_creditor b); simpl; lra.
Qed.

Lemma loop_entry_sum (w : entry -> Q) balances :
  Qsum (map w (debtors (loop_entry balances)))
  + Qsum (map w (creditors (loop_entry balances)))
  == Qsum (map (fun kv => if is_debtor (snd kv) || is_creditor (snd kv)
                          then w (entry_of kv) else 0) balances).
Proof.
  rewrite (Qsum_Permutation _ _ (Permutation_map w (loop_entry_debtors balances))),
    (Qsum_Permutation _ _ (Permutation_map w (loop_entry_creditors balances))).
  apply classified_sum.
Qed.

(** On entry the lists hold the open amounts of the balances. *)
Lemma loop_entry_total balances :
  Qsum (map amount (debtors (loop_entry balances)))
  + Qsum (map amount (creditors (loop_entry balances)))
  == Qsum (map (fun kv => open_amount (snd kv)) balances).
Proof. rewrite loop_entry_sum. reflexivity. Qed.

Lemma Qsum_single_key (g : Z * Q -> Q) m b balances :
  List.NoDup (Py.keys balances) ->
  In (m, b) balances ->
  (forall kv, fst kv <> m -> g kv == 0) ->
  Qsum (map g balances) == g (m, b).
Proof.
  intros Hnd Hin Hg. induction balances as [| [k v] balances IH]; [contradiction |].
  simpl in *. inversion Hnd as [| ? ? Hnotin Hnd']; subst.
  destruct Hin as [[= -> ->] | Hin].
  - assert (Hrest : Qsum (map g balances) == 0).
    { apply Qsum_all_zero. apply List.Forall_forall. intros [k v] Hkv.
      apply Hg. simpl. intros ->. apply Hnotin.
      apply in_map_iff. exists (m, v). auto. }
    lra.
  - rewrite (IH Hnd' Hin), Hg; [lra |].
    simpl. intros ->. apply Hnotin. apply in_map_iff. exists (m, b). auto.
Qed.

(** On entry a member holds the open amount of its balance. *)
Lemma loop_entry_held m b balances :
  List.NoDup (Py.keys balances) ->
  In (m, b) balances ->
  held m (debtors (loop_entry balances)) + held m (creditors (loop_entry balances))
  == open_amount b.
Proof.
  intros Hnd Hin. unfold held. rewrite loop_entry_sum.
  rewrite (Qsum_single_key _ m b balances Hnd Hin).
  - simpl. rewrite Z.eqb_refl. reflexivity.
  - intros [k v] Hne. simpl in *.
    destruct (Z.eqb_spec k m); [contradiction |].
    destruct (is_debtor v || is_creditor v); reflexivity.
Qed.

Lemma loop_entry_settle_inv balances :
  settle_inv (loop_entry balances) (loop_entry balances).
Proof.
  destruct (loop_entry_cursors balances) as (Hi & Hj & Htx).
  split.
  - apply loop_entry_inv.
  - eapply Permutation_Forall; [symmetry; apply loop_entry_debtors |].
    apply List.Forall_forall. intros e He.
    apply in_map_iff in He as (kv & <- & _). apply cents_round2.
  - eapply Permutation_Forall; [symmetry; apply loop_entry_creditors |].
    apply List.Forall_forall. intros e He.
    apply in_map_iff in He as ([k b] & <- & Hin).
    apply filter_In in Hin as [_ Hc]. simpl in *.
    split; [apply cents_round2 |].
    unfold is_creditor in Hc.
    destruct (gt_reflect (Py.round2 b) (1 # 100)); [lra | discriminate].
  - rewrite Hi. constructor.
  - rewrite Hj. constructor.
  - reflexivity.
  - intros m. rewrite Htx. unfold delta. simpl. lra.
Qed.

(** ** Settling the transactions *)

Lemma settle_all_adjust txs balances :
  settle_all txs balances = adjust_all (transaction_adjustments txs) balances.
Proof.
  revert balances. induction txs as [| [[payer receiver] a] txs IH];
    intros balances; simpl; [reflexivity |].
  apply IH.
Qed.

(** After the transactions of a run that clears every entry, a member is
    left with its balance less its open amount. *)
Lemma settled_balance balances st' k v :
  List.NoDup (Py.keys balances) ->
  settle_inv (loop_entry balances) st' ->
  Forall (fun e => amount e == 0) (debtors st') ->
  Forall (fun e => amount e == 0) (creditors st') ->
  In (k, v) (settle_all (transactions st') balances) ->
  exists b, In (k, b) balances /\ v == b - open_amount b.
Proof.
  intros Hnd Hinv Hd Hc Hin. rewrite settle_all_adjust in Hin.
  assert (Hk : In k (Py.keys balances)).
  { rewrite <- (adjust_all_keys (transaction_adjustments (transactions st'))).
    apply in_map_iff. exists (k, v). auto. }
  destruct (get_Some_keys k balances Hk) as [b Hb].
  destruct (adjust_all_get k (transaction_adjustments (transactions st')) _ _ Hb)
    as (v' & Hv' & Hsum).
  assert (v = v') as <-.
  { apply In_get_NoDup in Hin; [congruence |].
    rewrite adjust_all_keys. assumption. }
  apply get_Some_In in Hb. exists b. split; [assumption |].
  pose proof (settle_ledger _ _ Hinv k) as Hled.
  rewrite (held_all_zero k _ Hd), (held_all_zero k _ Hc),
    (loop_entry_held k b balances Hnd Hb) in Hled.
  lra.
Qed.

(** The plan of [simplify_debts] for balances whose open amounts sum to
    zero, and what it leaves to every member. *)
Lemma settled_residue balances :
  List.NoDup (Py.keys balances) ->
  Qsum (map (fun kv => open_amount (snd kv)) balances) == 0 ->
  exists txs,
    simplify_debts balances = Some txs
    /\ forall k v, In (k, v) (settle_all txs balances) ->
         exists b, In (k, b) balances /\ v == b - open_amount b.
Proof.
  intros Hnd Hzero.
  destruct (simplify_debts_runs balances) as (st' & Hrun & Hres).
  exists (transactions st'). split; [assumption |].
  destruct (while_loop_invariant _ (settle_inv_step (loop_entry balances)) _ _ _
              (loop_entry_settle_inv balances) Hrun) as [Hinv Hguard].
  destruct (settle_inv_exit _ _ Hinv Hguard) as [Hd Hc].
  { rewrite loop_entry_total. assumption. }
  intros k v Hin. exact (settled_balance balances st' k v Hnd Hinv Hd Hc Hin).
Qed.

(** ** Whole balances *)

Lemma round_half_even_inject_Z x n :
  x == inject_Z n -> Py.round_half_even x = n.
Proof.
  intros E. unfold Py.round_half_even.
  assert (Hf : Qfloor x = n) by (rewrite E; apply Qfloor_Z).
  rewrite Hf.
  assert (Hc : Qcompare (x - inject_Z n) (1 # 2) = Lt).
  { apply Qlt_alt.
    assert (H0 : x - inject_Z n == 0) by (rewrite E; ring).
    rewrite H0. reflexivity. }
  rewrite Hc. reflexivity.
Qed.

(** Rounding a whole amount to two places returns it. *)
Lemma round2_whole b : whole b -> Py.round2 b == b.
Proof.
  intros [[z Hz] _]. unfold Py.round2.
  rewrite (round_half_even_inject_Z (b * 100) (z * 100)).
  - rewrite inject_Z_mult, Hz. change (inject_Z 100) with 100. field.
  - rewrite inject_Z_mult, Hz. reflexivity.
Qed.

(** A whole amount within one hundredth of zero is zero. *)
Lemma whole_small b : whole b -> - (1 # 100) <= b -> b <= 1 # 100 -> b == 0.
Proof.
  intros [[z Hz] _] Hlo Hhi. rewrite Hz in *.
  assert (Hz1 : inject_Z (-1) < inject_Z z) by (change (inject_Z (-1)) with (-1); lra).
  assert (Hz2 : inject_Z z < inject_Z 1) by (change (inject_Z 1) with 1; lra).
  rewrite <- Zlt_Qlt in Hz1, Hz2.
  assert (z = 0%Z) as -> by lia. reflexivity.
Qed.

(** A whole balance is zero, or it is the balance of a debtor or a
    creditor, and then all of it is open. *)
Lemma whole_open_amount b : whole b -> open_amount b == b.
Proof.
  intros Hb. pose proof (round2_whole b Hb) as Hr.
  unfold open_amount, is_debtor, is_creditor.
  destruct (lt_reflect (Py.round2 b) (- (1 # 100))); cbn [orb]; [exact Hr |].
  destruct (gt_reflect (Py.round2 b) (1 # 100)); [exact Hr |].
  symmetry. apply whole_small; [exact Hb | lra | lra].
Qed.

Lemma whole_open_total balances :
  (forall k b, In (k, b) balances -> whole b) ->
  Qsum (map (fun kv => open_amount (snd kv)) balances) == Qsum (Py.values balances).
Proof.
  intros Hw. unfold Py.values. apply Qsum_ext_in.
  intros [k b] Hin. apply whole_open_amount. exact (Hw k b Hin).
Qed.



Lemma integer_abs a : integer a -> integer (Qabs a).
Proof.
  intros Ha. destruct (Qlt_le_dec a 0) as [Hneg | Hpos].
  - apply (integer_wd (- a)); [| apply integer_opp; assumption].
    symmetry. apply Qabs_neg. lra.
  - apply (integer_wd a); [| assumption]. symmetry. apply Qabs_pos. assumption.
Qed.

Lemma whole_abs a : whole a -> whole (Qabs a).
Proof.
  intros [Hz Hb]. split; [apply integer_abs; exact Hz |].
  rewrite (Qabs_pos (Qabs a)) by apply Qabs_nonneg. exact Hb.
Qed.

Lemma whole_min a b : whole a -> whole b -> whole (Py.min a b).
Proof. intros Ha Hb. destruct (min_cases a b) as [[_ ->] | [_ ->]]; assumption. Qed.

(** A whole number no further from zero than a whole amount is a whole
    amount. *)
Lemma whole_within a v : whole a -> integer v -> Qabs v <= Qabs a -> whole v.
Proof. intros [_ Hb] Hv Hle. split; [exact Hv | lra]. Qed.

(** On whole balances the lists hold whole amounts on entry to the loop,
    and every round keeps them whole and moves a whole amount. *)
Lemma loop_entry_whole_inv balances :
  (forall k b, In (k, b) balances -> whole b) -> whole_inv (loop_entry balances).
Proof.
  intros Hw. destruct (loop_entry_cursors balances) as (_ & _ & Htx).
  split.
  - apply loop_entry_inv.
  - eapply Permutation_Forall; [symmetry; apply loop_entry_debtors |].
    apply List.Forall_forall. intros e He.
    apply in_map_iff in He as ([k b] & <- & Hin).
    apply filter_In in Hin as [Hin _]. cbn [entry_of amount fst snd].
    apply (whole_wd b); [symmetry; apply round2_whole |]; exact (Hw k b Hin).
  - eapply Permutation_Forall; [symmetry; apply loop_entry_creditors |].
    apply List.Forall_forall. intros e He.
    apply in_map_iff in He as ([k b] & <- & Hin).
    apply filter_In in Hin as [Hin Hc]. cbn [entry_of amount fst snd] in *.
    split.
    + apply (whole_wd b); [symmetry; apply round2_whole |]; exact (Hw k b Hin).
    + unfold is_creditor in Hc. apply (lt_true (1 # 100)) in Hc. lra.
  - rewrite Htx. constructor.
Qed.

Lemma whole_inv_step st :
  loop_guard st = true -> whole_inv st -> whole_inv (loop_body st).
Proof.
  intros Hguard [Hloop Hd Hc Htx].
  destruct (loop_body_step st Hguard Hloop) as (Hloop' & _).
  destruct (loop_guard_lookup st Hguard) as (d & c & Hdl & Hcl).
  pose proof (Forall_lookup_1 _ _ _ _ (inv_debtors _ Hloop) Hdl) as Hdneg.
  pose proof (Forall_lookup_1 _ _ _ _ Hd Hdl) as Hdw.
  destruct (Forall_lookup_1 _ _ _ _ Hc Hcl) as [Hcw Hcpos].
  cbn beta in Hdneg, Hdw, Hcw, Hcpos.
  revert Hloop'. rewrite (loop_body_eq st d c Hdl Hcl).
  set (a := Py.min (Qabs (amount d)) (amount c)) in *. intros Hloop'.
  pose proof (Qabs_neg _ Hdneg) as Habs.
  pose proof (Qabs_pos _ Hcpos) as Habsc.
  assert (Haw : whole a) by (apply whole_min; [apply whole_abs |]; assumption).
  assert (Ha : 0 <= a /\ a <= - amount d /\ a <= amount c).
  { subst a.
    destruct (min_cases (Qabs (amount d)) (amount c)) as [[? ->] | [? ->]];
      repeat split; lra. }
  destruct Ha as (Ha0 & Had & Hac).
  split; cbn [debtors creditors i j transactions].
  - exact Hloop'.
  - apply Forall_insert; [assumption |]. cbn [amount].
    apply (whole_within (amount d)); [exact Hdw | |].
    + apply integer_plus; [apply Hdw | apply Haw].
    + apply Qabs_Qle_condition. lra.
  - apply Forall_insert; [assumption |]. cbn [amount]. split; [| lra].
    apply (whole_within (amount c)); [exact Hcw | |].
    + apply integer_minus; [apply Hcw | apply Haw].
    + apply Qabs_Qle_condition. lra.
  - apply Forall_app. split; [assumption |]. constructor; [exact Haw | constructor].
Qed.

(** The plan for whole balances moves whole amounts. *)
Lemma whole_plan balances txs :
  (forall k b, In (k, b) balances -> whole b) ->
  simplify_debts balances = Some txs ->
  Forall (fun tx : transaction => whole (snd tx)) txs.
Proof.
  intros Hw Hres.
  destruct (simplify_debts_runs balances) as (st' & Hrun & Hres').
  rewrite Hres in Hres'. injection Hres' as ->.
  destruct (while_loop_invariant _ whole_inv_step _ _ _
              (loop_entry_whole_inv balances Hw) Hrun) as [Hinv _].
  exact (whole_transactions _ Hinv).
Qed.

(** For whole balances that sum to zero [simplify_debts] returns a plan
    that leaves nothing to anybody. *)
Lemma whole_settled balances :
  List.NoDup (Py.keys balances) ->
  (forall k b, In (k, b) balances -> whole b) ->
  Qsum (Py.values balances) == 0 ->
  exists txs,
    simplify_debts balances = Some txs
    /\ forall k v, In (k, v) (settle_all txs balances) -> v == 0.
Proof.
  intros Hnd Hw Hzero.
  destruct (settled_residue balances Hnd) as (txs & Hres & Hleft).
  { rewrite (whole_open_total balances Hw). exact Hzero. }
  exists txs. split; [exact Hres |].
  intros k v Hin. destruct (Hleft k v Hin) as (b & Hb & ->).
  rewrite (whole_open_amount b (Hw k b Hb)). lra.
Qed.



Lemma lunch_balances_whole k b : In (k, b) lunch_balances -> whole b.
Proof.
  intros [[= <- <-] | [[= <- <-] | []]]; (split; [| vm_compute; discriminate]).
  - exists 60%Z. reflexivity.
  - exists (-60)%Z. reflexivity.
Qed.


(** ** The scenarios of [test_flow.py] *)

(** Alice pays a lunch of 200 split equally with Bob: she is owed 100, he
    owes 100, and one payment from Bob to Alice settles the group. *)
Example test_flow_lunch :
  match create_expense trip_db 1 1 "Lunch" 200 0 "Equal" [] with
  | inr (db, _) =>
      let balances := calculate_member_balances db 1 in
      match Py.get 1 balances, Py.get 2 balances, simplify_debts balances with
      | Some a, Some b, Some [(payer, receiver, x)] =>
          a == 100 /\ b == - (100) /\ payer = 2%Z /\ receiver = 1%Z /\ x == 100
      | _, _, _ => False
      end
  | inl _ => False
  end.
Proof. vm_compute. repeat split; reflexivity. Qed.

(** Alice pays 90 split equally among three: Bob and Carol pay her 30
    each, in the order of the member list. *)
Example three_way_split :
  match simplify_debts [(1%Z, 60); (2%Z, - (30)); (3%Z, - (30))] with
  | Some [(p1, r1, x1); (p2, r2, x2)] =>
      (p1, r1) = (2%Z, 1%Z) /\ x1 == 30 /\ (p2, r2) = (3%Z, 1%Z) /\ x2 == 30
  | _ => False
  end.
Proof. vm_compute. repeat split; reflexivity. Qed.

(** 850 spent of a budget of 1000: 85 percent used and the one alert of the
    80 percent threshold. *)
Example budget_nearing_limit :
  match create_expense trip_db 1 1 "Hotel" 850 0 "Equal" [] with
  | inr (db, _) =>
      match get_budget_status db 1 with
      | inr st =>
          percentage_used st == 85
          /\ alerts st = ["⚠ 80% of budget used - nearing limit"%string]
      | inl _ => False
      end
  | inl _ => False
  end.
Proof. vm_compute. split; reflexivity. Qed.

(** 1125 spent of a budget of 1000: the overage is printed with one
    decimal. *)
Example budget_exceeded :
  match create_expense trip_db 1 1 "Hotel" 1125 0 "Equal" [] with
  | inr (db, _) =>
      match get_budget_status db 1 with
      | inr st => alerts st = ["❗ Budget exceeded by 12.5%"%string]
      | inl _ => False
      end
  | inl _ => False
  end.
Proof. vm_compute. reflexivity. Qed.

(** * Further properties of [logic.py] *)

(** ** [build_splits] never raises *)

Lemma for_each_total {A B} (f : A -> result B) (g : A -> B) (xs : list A) :
  (forall x, In x xs -> f x = inr (g x)) -> for_each f xs = inr (map g xs).
Proof.
  induction xs as [| x xs IH]; intros H; simpl; [reflexivity |].
  rewrite (H x) by (simpl; auto). simpl.
  rewrite IH by (intros y Hy; apply H; simpl; auto). reflexivity.
Qed.

Lemma truediv_100 a : Py.truediv a 100 = inr (a / 100).
Proof. reflexivity. Qed.

(** The Unequal branch. *)
Lemma build_splits_unequal expense_id amount split_inputs members :
  build_splits expense_id amount "Unequal" split_inputs members
  = inr (map (fun m => split_for expense_id m
                         (Py.float (Py.get_default (member_id_ m) (Py.VInt 0)
                                                   split_inputs)))
             members).
Proof. reflexivity. Qed.

(** The Percentage branch. *)
Lemma build_splits_percentage expense_id amount split_inputs members :
  build_splits expense_id amount "Percentage" split_inputs members
  = inr (map (fun m => split_for expense_id m
                         (Py.float (Py.get_default (member_id_ m) (Py.VInt 0)
                                                   split_inputs) / 100 * amount))
             members).
Proof.
  unfold build_splits. simpl String.eqb. cbv iota.
  apply for_each_total. intros m _. reflexivity.
Qed.

(** The Shares branch with a positive total. *)
Lemma build_splits_shares expense_id amount split_inputs members :
  let total_shares := Py.sum (map Py.float (Py.values split_inputs)) in
  0 < total_shares ->
  build_splits expense_id amount "Shares" split_inputs members
  = inr (map (fun m => split_for expense_id m
                         (Py.float (Py.get_default (member_id_ m) (Py.VInt 0)
                                                   split_inputs)
                          * (amount / total_shares)))
             members).
Proof.
  intros total_shares Hpos. unfold build_splits. simpl String.eqb. cbv iota.
  fold total_shares.
  destruct (gt_reflect total_shares 0); [| contradiction].
  rewrite truediv_nonzero by lra. reflexivity.
Qed.

(** The Shares branch with a total that is not positive. *)
Lemma build_splits_shares_none expense_id amount split_inputs members :
  Py.sum (map Py.float (Py.values split_inputs)) <= 0 ->
  build_splits expense_id amount "Shares" split_inputs members = inr [].
Proof.
  intros Hle. unfold build_splits. simpl String.eqb. cbv iota.
  destruct (gt_reflect (Py.sum (map Py.float (Py.values split_inputs))) 0);
    [lra | reflexivity].
Qed.

(** Whatever the policy and the inputs, the splits are computed without an
    exception, each for the expense at hand and for a member of the
    group. *)
Lemma build_splits_total expense_id amount split_type split_inputs members :
  exists splits,
    build_splits expense_id amount split_type split_inputs members = inr splits
    /\ forall s, In s splits ->
         split_expense_id s = expense_id
         /\ exists m, In m members /\ split_member_id s = member_id_ m.
Proof.
  assert (Hmap : forall (owed : GroupMember -> Q) (l : list GroupMember),
             (forall m, In m l -> In m members) ->
             forall s, In s (map (fun m => split_for expense_id m (owed m)) l) ->
               split_expense_id s = expense_id
               /\ exists m, In m members /\ split_member_id s = member_id_ m).
  { intros owed l Hl s Hs. apply in_map_iff in Hs as (m & <- & Hm).
    split; [reflexivity |]. exists m. auto. }
  destruct (String.eqb split_type "Equal") eqn:E1.
  { apply String.eqb_eq in E1 as ->.
    destruct (selected_members split_inputs members) as [| m0 sel] eqn:Esel.
    - rewrite build_splits_equal_none by assumption. exists []. simpl. tauto.
    - rewrite build_splits_equal by (rewrite Esel; discriminate).
      eexists. split; [reflexivity |]. rewrite Esel.
      apply (Hmap (fun _ => _)). intros m Hm. rewrite <- Esel in Hm.
      unfold selected_members in Hm.
      destruct (Py.nonempty split_inputs); [| assumption].
      apply filter_In in Hm. tauto. }
  destruct (String.eqb split_type "Unequal") eqn:E2.
  { apply String.eqb_eq in E2 as ->. rewrite build_splits_unequal.
    eexists. split; [reflexivity |]. apply (Hmap (fun m => _)). auto. }
  destruct (String.eqb split_type "Percentage") eqn:E3.
  { apply String.eqb_eq in E3 as ->. rewrite build_splits_percentage.
    eexists. split; [reflexivity |]. apply (Hmap (fun m => _)). auto. }
  destruct (String.eqb split_type "Shares") eqn:E4.
  { apply String.eqb_eq in E4 as ->.
    destruct (Qlt_le_dec 0 (Py.sum (map Py.float (Py.values split_inputs)))).
    - rewrite build_splits_shares by assumption.
      eexists. split; [reflexivity |]. apply (Hmap (fun m => _)). auto.
    - rewrite build_splits_shares_none by assumption. exists []. simpl. tauto. }
  exists []. split; [| simpl; tauto].
  unfold build_splits. rewrite E1, E2, E3, E4. reflexivity.
Qed.



(** X2: a policy other than the four known ones is accepted in silence:
    on an existing group the expense is stored with no split. *)
Theorem unknown_policy_no_splits
    (db : Session) (group_id payer_member_id : Z) (description : string)
    (amount : Q) (date : Z) (split_type : string)
    (split_inputs : list (Z * Py.value)) (g : Group) :
  query_group db group_id = Some g ->
  split_type <> "Equal"%string -> split_type <> "Unequal"%string ->
  split_type <> "Percentage"%string -> split_type <> "Shares"%string ->
  exists db' e,
    create_expense db group_id payer_member_id description amount date
                   split_type split_inputs = inr (db', e)
    /\ expenses db' = expenses db ++ [e]
    /\ expense_splits db' = expense_splits db.
Proof.
  intros Hg H1 H2 H3 H4.
  destruct (create_expense_splits db group_id payer_member_id description amount
              date split_inputs g split_type []) as (db' & e & Hrun & He & _ & Hs).
  - exact Hg.
  - unfold build_splits.
    apply String.eqb_neq in H1, H2, H3, H4. rewrite H1, H2, H3, H4. reflexivity.
  - exists db', e. rewrite app_nil_r in Hs. auto.
Qed.

Lemma unknown_policy_no_splits_witness :
  exists db' e,
    create_expense trip_db 1 1 "Lunch" 200 0 "equal" [] = inr (db', e)
    /\ expenses db' = expenses trip_db ++ [e]
    /\ expense_splits db' = expense_splits trip_db.
Proof.
  apply (unknown_policy_no_splits trip_db 1 1 "Lunch" 200 0 "equal" [] trip);
    [reflexivity | discriminate ..].
Defined.

(** ** The splits of the policies *)

Lemma Qsum_const {A} (c : Q) (l : list A) :
  Qsum (map (fun _ => c) l) == inject_Z (Z.of_nat (length l)) * c.
Proof.
  induction l as [| x l IH];
    [change (0 == 0 * c); ring |].
  cbn [map Qsum fold_right length]. fold (Qsum (map (fun _ : A => c) l)).
  rewrite IH, Nat2Z.inj_succ. unfold Z.succ. rewrite inject_Z_plus.
  change (inject_Z 1) with 1. ring.
Qed.

Lemma split_amounts expense_id (owed : GroupMember -> Q) (l : list GroupMember) :
  map amount_owed (map (fun m => split_for expense_id m (owed m)) l) = map owed l.
Proof. rewrite map_map. reflexivity. Qed.

Lemma split_members expense_id (owed : GroupMember -> Q) (l : list GroupMember) :
  map split_member_id (map (fun m => split_for expense_id m (owed m)) l)
  = map member_id_ l.
Proof. rewrite map_map. reflexivity. Qed.

(** X3: an Equal split of a whole amount among a number of members that
    divides it into whole shares gives whole splits that add up to the
    amount. *)
Theorem equal_split_total
    (db : Session) (group_id payer_member_id : Z) (description : string)
    (amount : Q) (date : Z) (split_inputs : list (Z * Py.value)) (g : Group) :
  query_group db group_id = Some g ->
  sqlite_integer payer_member_id ->
  selected_members split_inputs (members_of db g) <> [] ->
  whole amount ->
  whole (amount / inject_Z (Z.of_nat (length (selected_members split_inputs
                                                (members_of db g))))) ->
  exists db' e new,
    create_expense db group_id payer_member_id description amount date
                   "Equal" split_inputs = inr (db', e)
    /\ expense_splits db' = expense_splits db ++ new
    /\ Forall (fun s => whole (amount_owed s)) new
    /\ Qsum (map amount_owed new) == amount.
Proof.
  intros Hg _ Hsel _ Hshare.
  destruct (create_expense_splits db group_id payer_member_id description amount
              date split_inputs g "Equal" _ Hg
              (build_splits_equal _ amount split_inputs _ Hsel))
    as (db' & e & Hrun & _ & _ & Hs).
  exists db', e. eexists. split; [exact Hrun |]. split; [exact Hs |].
  split.
  - apply List.Forall_forall. intros s Hin.
    apply in_map_iff in Hin as (m & <- & _). exact Hshare.
  - rewrite split_amounts, Qsum_const.
    destruct (selected_members split_inputs (members_of db g)) as [| m sel];
      [congruence |].
    assert (Hn : ~ inject_Z (Z.of_nat (length (m :: sel))) == 0).
    { unfold Qeq. simpl. lia. }
    field. exact Hn.
Qed.

Lemma equal_split_total_witness :
  exists db' e new,
    create_expense trip_db 1 1 "Lunch" 200 0 "Equal"
                   [(1%Z, Py.VBool true); (2%Z, Py.VBool true)] = inr (db', e)
    /\ expense_splits db' = expense_splits trip_db ++ new
    /\ Forall (fun s => whole (amount_owed s)) new
    /\ Qsum (map amount_owed new) == 200.
Proof.
  apply (equal_split_total trip_db 1 1 "Lunch" 200 0
           [(1%Z, Py.VBool true); (2%Z, Py.VBool true)] trip).
  - reflexivity.
  - unfold sqlite_integer. lia.
  - discriminate.
  - split; [exists 200%Z; reflexivity | vm_compute; discriminate].
  - split; [exists 100%Z; reflexivity | vm_compute; discriminate].
Defined.

(** Changing one term of a sum over distinct ids. *)
Lemma Qsum_point (g : Z -> Q) (a : Q) (k : Z) (ids : list Z) :
  List.NoDup ids -> In k ids ->
  Qsum (map (fun x => if Z.eqb x k then a else g x) ids)
  == a - g k + Qsum (map g ids).
Proof.
  induction ids as [| x ids IH]; intros Hnd Hin; [contradiction |].
  inversion Hnd as [| ? ? Hnotin Hnd']; subst. simpl.
  destruct (Z.eqb_spec x k) as [-> | Hne].
  - rewrite (Qsum_ext_in (fun x => if Z.eqb x k then a else g x) g ids); [lra |].
    intros y Hy. destruct (Z.eqb_spec y k); [subst; contradiction | reflexivity].
  - destruct Hin as [-> | Hin]; [contradiction |].
    rewrite (IH Hnd' Hin). lra.
Qed.

(** The inputs read member by member add up to the inputs, when every key
    is the id of a member. *)
Lemma inputs_by_member (split_inputs : list (Z * Py.value)) (ids : list Z) :
  List.NoDup ids ->
  List.NoDup (Py.keys split_inputs) ->
  (forall k, In k (Py.keys split_inputs) -> In k ids) ->
  Qsum (map (fun x => Py.float (Py.get_default x (Py.VInt 0) split_inputs)) ids)
  == Qsum (map Py.float (Py.values split_inputs)).
Proof.
  intros Hids. induction split_inputs as [| [k v] rest IH]; intros Hnd Hsub.
  - simpl. apply Qsum_all_zero. apply List.Forall_forall. reflexivity.
  - inversion Hnd as [| ? ? Hnotin Hnd']; subst. simpl.
    rewrite (Qsum_ext_in _
               (fun x => if Z.eqb x k then Py.float v
                         else Py.float (Py.get_default x (Py.VInt 0) rest)) ids).
    + rewrite Qsum_point by (auto; apply Hsub; simpl; auto).
      rewrite IH by (auto; intros k' Hk'; apply Hsub; simpl; auto).
      unfold Py.get_default.
      replace (Py.get k rest) with (@None Py.value)
        by (symmetry; apply get_None_keys; assumption).
      simpl. unfold Py.values. change (inject_Z 0) with 0. lra.
    + intros x _. unfold Py.get_default. simpl.
      destruct (Z.eqb x k); reflexivity.
Qed.

Lemma member_inputs_total db g (split_inputs : list (Z * Py.value)) :
  List.NoDup (member_ids db g) ->
  List.NoDup (Py.keys split_inputs) ->
  (forall k, In k (Py.keys split_inputs) -> In k (member_ids db g)) ->
  Qsum (map (fun m => Py.float (Py.get_default (member_id_ m) (Py.VInt 0)
                                               split_inputs))
            (members_of db g))
  == Py.sum (map Py.float (Py.values split_inputs)).
Proof.
  intros Hids Hnd Hsub. rewrite sum_Qsum, <- (inputs_by_member _ _ Hids Hnd Hsub).
  unfold member_ids. rewrite map_map. reflexivity.
Qed.

(** X4: an Unequal split gives every member of the group one split, those
    without an input a split of zero, and when the keys of the inputs are
    members the splits add up to the inputs. *)
Theorem unequal_split_total
    (db : Session) (group_id payer_member_id : Z) (description : string)
    (amount : Q) (date : Z) (split_inputs : list (Z * Py.value)) (g : Group) :
  query_group db group_id = Some g ->
  List.NoDup (member_ids db g) ->
  List.NoDup (Py.keys split_inputs) ->
  (forall k, In k (Py.keys split_inputs) -> In k (member_ids db g)) ->
  exists db' e new,
    create_expense db group_id payer_member_id description amount date
                   "Unequal" split_inputs = inr (db', e)
    /\ expense_splits db' = expense_splits db ++ new
    /\ map split_member_id new = member_ids db g
    /\ (forall s, In s new -> Py.get (split_member_id s) split_inputs = None ->
          amount_owed s == 0)
    /\ Qsum (map amount_owed new) == Py.sum (map Py.float (Py.values split_inputs)).
Proof.
  intros Hg Hids Hnd Hsub.
  destruct (create_expense_splits db group_id payer_member_id description amount
              date split_inputs g "Unequal" _ Hg (build_splits_unequal _ _ _ _))
    as (db' & e & Hrun & _ & _ & Hs).
  exists db', e. eexists. split; [exact Hrun |]. split; [exact Hs |].
  split; [apply split_members |]. split.
  - intros s Hin Hnone. apply in_map_iff in Hin as (m & <- & _).
    simpl in *. unfold Py.get_default. rewrite Hnone. reflexivity.
  - rewrite split_amounts. apply member_inputs_total; assumption.
Qed.

Lemma unequal_split_total_witness :
  exists db' e new,
    create_expense trip_db 1 1 "Lunch" 200 0 "Unequal"
                   [(2%Z, Py.VFloat 200)] = inr (db', e)
    /\ expense_splits db' = expense_splits trip_db ++ new
    /\ map split_member_id new = member_ids trip_db trip
    /\ (forall s, In s new ->
          Py.get (split_member_id s) [(2%Z, Py.VFloat 200)] = None ->
          amount_owed s == 0)
    /\ Qsum (map amount_owed new)
       == Py.sum (map Py.float (Py.values [(2%Z, Py.VFloat 200)])).
Proof.
  apply (unequal_split_total trip_db 1 1 "Lunch" 200 0 [(2%Z, Py.VFloat 200)] trip).
  - reflexivity.
  - repeat constructor; simpl; intuition discriminate.
  - repeat constructor; simpl; tauto.
  - simpl. intros k [<- | []]. auto.
Defined.

(** X5: for a payer id that fits an integer column, a moderate amount and
    moderate inputs, a Percentage split of an existing group returns and
    gives every member of the group one split, in the order of the members:
    the member's percentage, 0 without an input, over 100, times the
    amount. *)
Theorem percentage_split_amounts
    (db : Session) (group_id payer_member_id : Z) (description : string)
    (amount : Q) (date : Z) (split_inputs : list (Z * Py.value)) (g : Group) :
  query_group db group_id = Some g ->
  sqlite_integer payer_member_id ->
  moderate amount ->
  Forall moderate_input (Py.values split_inputs) ->
  exists db' e new,
    create_expense db group_id payer_member_id description amount date
                   "Percentage" split_inputs = inr (db', e)
    /\ expense_splits db' = expense_splits db ++ new
    /\ map split_member_id new = member_ids db g
    /\ Forall (fun s =>
                 amount_owed s
                 == Py.float (Py.get_default (split_member_id s) (Py.VInt 0)
                                             split_inputs) / 100 * amount)
              new.
Proof.
  intros Hg _ _ _.
  destruct (create_expense_splits db group_id payer_member_id description amount
              date split_inputs g "Percentage" _ Hg
              (build_splits_percentage _ _ _ _))
    as (db' & e & Hrun & _ & _ & Hs).
  exists db', e. eexists. split; [exact Hrun |]. split; [exact Hs |].
  split; [apply split_members |].
  apply List.Forall_forall. intros s Hin.
  apply in_map_iff in Hin as (m & <- & _). reflexivity.
Qed.

Lemma percentage_split_amounts_witness :
  exists db' e new,
    create_expense trip_db 1 1 "Lunch" 200 0 "Percentage"
                   [(1%Z, Py.VFloat 25); (2%Z, Py.VFloat 75)] = inr (db', e)
    /\ expense_splits db' = expense_splits trip_db ++ new
    /\ map split_member_id new = member_ids trip_db trip
    /\ Forall (fun s =>
                 amount_owed s
                 == Py.float (Py.get_default (split_member_id s) (Py.VInt 0)
                                [(1%Z, Py.VFloat 25); (2%Z, Py.VFloat 75)])
                    / 100 * 200)
              new.
Proof.
  apply (percentage_split_amounts trip_db 1 1 "Lunch" 200 0
           [(1%Z, Py.VFloat 25); (2%Z, Py.VFloat 75)] trip).
  - reflexivity.
  - unfold sqlite_integer. lia.
  - right. split; vm_compute; discriminate.
  - constructor; [right; split; vm_compute; discriminate |].
    constructor; [right; split; vm_compute; discriminate |]. constructor.
Defined.

(** X6: for a payer id that fits an integer column, a moderate amount and
    moderate shares, none of them negative and not all zero, a Shares split
    of an existing group returns and gives every member of the group one
    split, in the order of the members: the member's shares, 0 without an
    input, times the amount over the total of the shares. *)
Theorem shares_split_amounts
    (db : Session) (group_id payer_member_id : Z) (description : string)
    (amount : Q) (date : Z) (split_inputs : list (Z * Py.value)) (g : Group) :
  query_group db group_id = Some g ->
  sqlite_integer payer_member_id ->
  moderate amount ->
  Forall moderate_input (Py.values split_inputs) ->
  Forall (fun v => 0 <= Py.float v) (Py.values split_inputs) ->
  0 < Py.sum (map Py.float (Py.values split_inputs)) ->
  exists db' e new,
    create_expense db group_id payer_member_id description amount date
                   "Shares" split_inputs = inr (db', e)
    /\ expense_splits db' = expense_splits db ++ new
    /\ map split_member_id new = member_ids db g
    /\ Forall (fun s =>
                 amount_owed s
                 == Py.float (Py.get_default (split_member_id s) (Py.VInt 0)
                                             split_inputs)
                    * (amount / Py.sum (map Py.float (Py.values split_inputs))))
              new.
Proof.
  intros Hg _ _ _ _ Hpos.
  destruct (create_expense_splits db group_id payer_member_id description amount
              date split_inputs g "Shares" _ Hg
              (build_splits_shares _ amount split_inputs _ Hpos))
    as (db' & e & Hrun & _ & _ & Hs).
  exists db', e. eexists. split; [exact Hrun |]. split; [exact Hs |].
  split; [apply split_members |].
  apply List.Forall_forall. intros s Hin.
  apply in_map_iff in Hin as (m & <- & _). reflexivity.
Qed.

Lemma shares_split_amounts_witness :
  exists db' e new,
    create_expense trip_db 1 1 "Taxi" 30 0 "Shares"
                   [(1%Z, Py.VFloat 1); (2%Z, Py.VFloat 2)] = inr (db', e)
    /\ expense_splits db' = expense_splits trip_db ++ new
    /\ map split_member_id new = member_ids trip_db trip
    /\ Forall (fun s =>
                 amount_owed s
                 == Py.float (Py.get_default (split_member_id s) (Py.VInt 0)
                                [(1%Z, Py.VFloat 1); (2%Z, Py.VFloat 2)])
                    * (30 / Py.sum (map Py.float
                                      (Py.values [(1%Z, Py.VFloat 1);
                                                  (2%Z, Py.VFloat 2)]))))
              new.
Proof.
  apply (shares_split_amounts trip_db 1 1 "Taxi" 30 0
           [(1%Z, Py.VFloat 1); (2%Z, Py.VFloat 2)] trip).
  - reflexivity.
  - unfold sqlite_integer. lia.
  - right. split; vm_compute; discriminate.
  - constructor; [right; split; vm_compute; discriminate |].
    constructor; [right; split; vm_compute; discriminate |]. constructor.
  - repeat constructor; discriminate.
  - reflexivity.
Defined.

(** ** [update_expense] *)

Lemma query_expense_id db expense_id e :
  query_expense db expense_id = Some e -> expense_id_ e = expense_id.
Proof.
  intros H. apply find_some in H as [_ H]. apply Z.eqb_eq. exact H.
Qed.

(** Looking up a row after it was overwritten finds the new row. *)
Lemma find_replaced {A} (key : A -> Z) (k : Z) (old new : A) (l : list A) :
  find (fun x => Z.eqb (key x) k) l = Some old ->
  key new = k ->
  find (fun x => Z.eqb (key x) k)
       (map (fun x => if Z.eqb (key x) (key old) then new else x) l)
  = Some new.
Proof.
  intros Hfind Hnew.
  assert (Hold : key old = k).
  { apply find_some in Hfind as [_ H]. apply Z.eqb_eq. exact H. }
  rewrite Hold. clear Hold.
  induction l as [| x l IH]; simpl in *; [discriminate |].
  destruct (Z.eqb (key x) k) eqn:E; simpl.
  - rewrite Hnew, Z.eqb_refl. reflexivity.
  - rewrite E. auto.
Qed.

(** Rows with another key are found as before. *)
Lemma find_replaced_other {A} (key : A -> Z) (k k' : Z) (new : A) (l : list A) :
  key new = k -> k' <> k ->
  find (fun x => Z.eqb (key x) k')
       (map (fun x => if Z.eqb (key x) k then new else x) l)
  = find (fun x => Z.eqb (key x) k') l.
Proof.
  intros Hnew Hne. induction l as [| x l IH]; simpl; [reflexivity |].
  destruct (Z.eqb_spec (key x) k) as [E | E].
  - rewrite Hnew. destruct (Z.eqb_spec k k'); [congruence |].
    rewrite E. destruct (Z.eqb_spec k k'); [congruence | exact IH].
  - rewrite IH. reflexivity.
Qed.

Lemma filter_filter_same {A} (p : A -> bool) (l : list A) :
  List.filter p (List.filter p l) = List.filter p l.
Proof.
  induction l as [| x l IH]; simpl; [reflexivity |].
  destruct (p x) eqn:E; simpl; rewrite ?E, IH; reflexivity.
Qed.

Lemma filter_none {A} (p : A -> bool) (l : list A) :
  (forall x, In x l -> p x = false) -> List.filter p l = [].
Proof.
  induction l as [| x l IH]; intros H; simpl; [reflexivity |].
  rewrite (H x) by (simpl; auto). apply IH. intros y Hy. apply H. simpl. auto.
Qed.

Lemma filter_all {A} (p : A -> bool) (l : list A) :
  (forall x, In x l -> p x = true) -> List.filter p l = l.
Proof.
  induction l as [| x l IH]; intros H; simpl; [reflexivity |].
  rewrite (H x) by (simpl; auto). f_equal. apply IH.
  intros y Hy. apply H. simpl. auto.
Qed.

(** Two filters on disjoint keys. *)
Lemma filter_other_key {A} (key : A -> Z) (k k' : Z) (l : list A) :
  k' <> k ->
  List.filter (fun x => Z.eqb (key x) k')
              (List.filter (fun x => negb (Z.eqb (key x) k)) l)
  = List.filter (fun x => Z.eqb (key x) k') l.
Proof.
  intros Hne. induction l as [| x l IH]; simpl; [reflexivity |].
  destruct (Z.eqb_spec (key x) k) as [E | E]; simpl.
  - rewrite E. destruct (Z.eqb_spec k k'); [congruence | exact IH].
  - rewrite IH. reflexivity.
Qed.

(** The state and the row that a successful [update_expense] returns. *)
Lemma update_expense_run db expense_id description amount payer_member_id
    split_type split_inputs old g new :
  query_expense db expense_id = Some old ->
  query_group db (expense_group_id old) = Some g ->
  build_splits (expense_id_ old) amount split_type split_inputs (members_of db g)
  = inr new ->
  let e := {| expense_id_ := expense_id_ old;
              expense_group_id := expense_group_id old;
              expense_description := description;
              expense_amount := amount;
              expense_payer_member_id := payer_member_id;
              expense_date := expense_date old |} in
  update_expense db expense_id description amount payer_member_id split_type
                 split_inputs
  = inr (add_all_splits (delete_splits (store_expense db old e) expense_id) new, e).
Proof.
  intros Hold Hg Hnew e. unfold update_expense. rewrite Hold. cbv zeta.
  change (query_group _ (expense_group_id _))
    with (query_group db (expense_group_id old)).
  rewrite Hg. change (members_of _ g) with (members_of db g).
  simpl expense_id_. rewrite Hnew. reflexivity.
Qed.

(** X7: [update_expense] raises [ValueError] when the expense is missing
    and [AttributeError] when its group is, and otherwise returns: the row
    found under the id afterwards carries the new description, amount and
    payer and the old group and date, its splits are exactly the freshly
    computed ones, and the splits of every other expense are untouched. *)
Theorem update_expense_outcome
    (db : Session) (expense_id : Z) (description : string) (amount : Q)
    (payer_member_id : Z) (split_type : string)
    (split_inputs : list (Z * Py.value)) :
  match query_expense db expense_id with
  | None =>
      update_expense db expense_id description amount payer_member_id
                     split_type split_inputs
      = inl (ValueError "Expense not found")
  | Some old =>
      match query_group db (expense_group_id old) with
      | None =>
          update_expense db expense_id description amount payer_member_id
                         split_type split_inputs = inl AttributeError
      | Some g =>
          exists db' e new,
            update_expense db expense_id description amount payer_member_id
                           split_type split_inputs = inr (db', e)
            /\ e = {| expense_id_ := expense_id;
                      expense_group_id := expense_group_id old;
                      expense_description := description;
                      expense_amount := amount;
                      expense_payer_member_id := payer_member_id;
                      expense_date := expense_date old |}
            /\ query_expense db' expense_id = Some e
            /\ build_splits expense_id amount split_type split_inputs
                            (members_of db g) = inr new
            /\ splits_of db' e = new
            /\ forall e', expense_id_ e' <> expense_id ->
                 splits_of db' e' = splits_of db e'
      end
  end.
Proof.
  destruct (query_expense db expense_id) as [old |] eqn:Hold.
  2: { unfold update_expense. rewrite Hold. reflexivity. }
  pose proof (query_expense_id _ _ _ Hold) as Hid.
  destruct (query_group db (expense_group_id old)) as [g |] eqn:Hg.
  2: { unfold update_expense. rewrite Hold. cbv zeta.
       change (query_group _ (expense_group_id _))
         with (query_group db (expense_group_id old)).
       rewrite Hg. reflexivity. }
  destruct (build_splits_total expense_id amount split_type split_inputs
              (members_of db g)) as (new & Hnew & Hnew_id).
  rewrite <- Hid in Hnew.
  rewrite (update_expense_run db expense_id description amount payer_member_id
             split_type split_inputs old g new Hold Hg Hnew).
  rewrite Hid in *.
  eexists _, _, new. split; [reflexivity |]. split; [reflexivity |].
  split; [| split; [exact Hnew | split]].
  - unfold query_expense. simpl.
    apply (find_replaced expense_id_ expense_id old); [exact Hold | reflexivity].
  - unfold splits_of. simpl. rewrite List.filter_app.
    rewrite (filter_none (fun s => Z.eqb (split_expense_id s) expense_id)
               (List.filter _ _)).
    + simpl. apply filter_all. intros s Hs. apply Z.eqb_eq.
      apply (Hnew_id s Hs).
    + intros s Hs. apply filter_In in Hs as [_ Hs].
      apply negb_true_iff in Hs. exact Hs.
  - intros e' Hne. unfold splits_of. simpl. rewrite List.filter_app.
    rewrite (filter_other_key split_expense_id) by assumption.
    rewrite (filter_none _ new); [apply app_nil_r |].
    intros s Hs. apply Z.eqb_neq. destruct (Hnew_id s Hs) as [-> _]. congruence.
Qed.

(** X8: updating an expense a second time with the same data changes
    nothing. *)
Theorem update_expense_idempotent
    (db db' : Session) (expense_id : Z) (description : string) (amount : Q)
    (payer_member_id : Z) (split_type : string)
    (split_inputs : list (Z * Py.value)) (e : Expense) :
  update_expense db expense_id description amount payer_member_id split_type
                 split_inputs = inr (db', e) ->
  update_expense db' expense_id description amount payer_member_id split_type
                 split_inputs = inr (db', e).
Proof.
  intros Hrun.
  destruct (query_expense db expense_id) as [old |] eqn:Hold;
    [| unfold update_expense in Hrun; rewrite Hold in Hrun; discriminate].
  pose proof (query_expense_id _ _ _ Hold) as Hid. subst expense_id.
  destruct (query_group db (expense_group_id old)) as [g |] eqn:Hg.
  2: { unfold update_expense in Hrun. rewrite Hold in Hrun. cbv zeta in Hrun.
       change (query_group _ (expense_group_id _))
         with (query_group db (expense_group_id old)) in Hrun.
       rewrite Hg in Hrun. discriminate. }
  destruct (build_splits_total (expense_id_ old) amount split_type split_inputs
              (members_of db g)) as (new & Hnew & Hnew_id).
  rewrite (update_expense_run db (expense_id_ old) description amount
             payer_member_id split_type split_inputs old g new Hold Hg Hnew)
    in Hrun.
  injection Hrun as <- <-.
  set (e := {| expense_id_ := expense_id_ old;
               expense_group_id := expense_group_id old;
               expense_description := description;
               expense_amount := amount;
               expense_payer_member_id := payer_member_id;
               expense_date := expense_date old |}).
  set (db' := add_all_splits
                (delete_splits (store_expense db old e) (expense_id_ old)) new).
  assert (Hq : query_expense db' (expense_id_ old) = Some e).
  { unfold query_expense. simpl.
    apply (find_replaced expense_id_ (expense_id_ old) old); [exact Hold | reflexivity]. }
  rewrite (update_expense_run db' (expense_id_ old) description amount
             payer_member_id split_type split_inputs e g new Hq Hg Hnew).
  f_equal. f_equal. subst db'.
  unfold add_all_splits, delete_splits, store_expense. simpl. f_equal.
  - rewrite map_map. apply map_ext. intros x.
    destruct (Z.eqb_spec (expense_id_ x) (expense_id_ old)) as [E | E]; simpl.
    + rewrite Z.eqb_refl. reflexivity.
    + destruct (Z.eqb_spec (expense_id_ x) (expense_id_ old)); [contradiction |].
      reflexivity.
  - rewrite List.filter_app, filter_filter_same.
    rewrite (filter_none _ new); [rewrite app_nil_r; reflexivity |].
    intros s Hs. apply negb_false_iff, Z.eqb_eq. apply (Hnew_id s Hs).
Qed.

Lemma update_expense_idempotent_witness :
  exists db' e,
    update_expense lunch_db 1 "Dinner" 300 2 "Equal" [] = inr (db', e)
    /\ update_expense db' 1 "Dinner" 300 2 "Equal" [] = inr (db', e).
Proof.
  destruct (update_expense lunch_db 1 "Dinner" 300 2 "Equal" [])
    as [err | [db' e]] eqn:Hrun.
  - vm_compute in Hrun. discriminate Hrun.
  - exists db', e. split; [reflexivity |].
    apply (update_expense_idempotent lunch_db db' 1 "Dinner" 300 2 "Equal" [] e).
    exact Hrun.
Defined.

(** ** [record_settlement] *)

Lemma record_settlement_balances_gen db group_id group_id' payer receiver amount :
  calculate_member_balances
    (fst (record_settlement db group_id' payer receiver amount)) group_id
  = if Z.eqb group_id' group_id
    then apply_settlement payer receiver amount
           (calculate_member_balances db group_id)
    else calculate_member_balances db group_id.
Proof.
  unfold calculate_member_balances, record_settlement. simpl.
  change (query_group _ group_id) with (query_group db group_id).
  destruct (query_group db group_id) as [g |].
  - change (members_of _ g) with (members_of db g).
    change (query_expenses _ group_id) with (query_expenses db group_id).
    unfold query_settlements. simpl. rewrite List.filter_app. simpl.
    unfold account_settlements. rewrite fold_left_app.
    destruct (Z.eqb group_id' group_id); reflexivity.
  - destruct (Z.eqb group_id' group_id); reflexivity.
Qed.

Lemma settle_all_empty txs : settle_all txs [] = [].
Proof. induction txs as [| [[p r] a] txs IH]; simpl; [reflexivity | exact IH]. Qed.

(** X9: recording the transactions of a plan as settlements of a group and
    computing the balances again gives the balances as they were with every
    transaction applied, the payer credited and the receiver debited; the
    balances of any other group are as before. *)
Theorem record_transactions_balances
    (db : Session) (group_id : Z) (txs : list transaction) :
  calculate_member_balances (record_transactions db group_id txs) group_id
  = settle_all txs (calculate_member_balances db group_id)
  /\ forall other, other <> group_id ->
       calculate_member_balances (record_transactions db group_id txs) other
       = calculate_member_balances db other.
Proof.
  revert db. induction txs as [| [[payer receiver] a] txs IH]; intros db.
  - split; reflexivity.
  - change (record_transactions db group_id ((payer, receiver, a) :: txs))
      with (record_transactions
              (fst (record_settlement db group_id payer receiver a)) group_id txs).
    destruct (IH (fst (record_settlement db group_id payer receiver a)))
      as [Hsame Hother].
    split.
    + rewrite Hsame, record_settlement_balances_gen, Z.eqb_refl. reflexivity.
    + intros other Hne. rewrite (Hother other Hne).
      rewrite record_settlement_balances_gen.
      destruct (Z.eqb_spec group_id other); [congruence | reflexivity].
Qed.

(** X10: after a settlement between two different members of a group is
    recorded, the payer's balance is up by the amount, the receiver's is
    down by it, and every other balance of the group is the same. *)
Theorem record_settlement_balances
    (db : Session) (group_id payer receiver : Z) (amount : Q) (bp br : Q) :
  payer <> receiver ->
  Py.get payer (calculate_member_balances db group_id) = Some bp ->
  Py.get receiver (calculate_member_balances db group_id) = Some br ->
  let db' := fst (record_settlement db group_id payer receiver amount) in
  Py.get payer (calculate_member_balances db' group_id) = Some (bp + amount)
  /\ Py.get receiver (calculate_member_balances db' group_id) = Some (br - amount)
  /\ forall k, k <> payer -> k <> receiver ->
       Py.get k (calculate_member_balances db' group_id)
       = Py.get k (calculate_member_balances db group_id).
Proof.
  intros Hne Hp Hr db'. subst db'.
  rewrite record_settlement_balances_gen, Z.eqb_refl.
  unfold apply_settlement. rewrite debit_credit. repeat split.
  - rewrite credit_get_other by congruence. apply credit_get_same. exact Hp.
  - rewrite (credit_get_same receiver _ _ br).
    + reflexivity.
    + rewrite credit_get_other by assumption. exact Hr.
  - intros k Hkp Hkr. rewrite !credit_get_other by congruence. reflexivity.
Qed.

Lemma record_settlement_balances_witness :
  let db' := fst (record_settlement lunch_db 1 2 1 60) in
  Py.get 2 (calculate_member_balances db' 1) = Some (- 100 + 40 + 60)
  /\ Py.get 1 (calculate_member_balances db' 1) = Some (200 - 100 - 40 - 60)
  /\ forall k, k <> 2%Z -> k <> 1%Z ->
       Py.get k (calculate_member_balances db' 1)
       = Py.get k (calculate_member_balances lunch_db 1).
Proof.
  apply (record_settlement_balances lunch_db 1 2 1 60
           (- 100 + 40) (200 - 100 - 40)).
  - discriminate.
  - reflexivity.
  - reflexivity.
Defined.

(** ** [delete_expense] *)

Lemma max_id_ge (ids : list Z) (x : Z) :
  In x ids -> (x <= fold_right Z.max 0 ids)%Z.
Proof.
  induction ids as [| y ids IH]; simpl; [contradiction |].
  intros [-> | Hin]; [lia |]. specialize (IH Hin). lia.
Qed.

(** The key given to a new expense is above every key in use. *)
Lemma fresh_expense_id_gt db e :
  In e (expenses db) -> (expense_id_ e < fresh_expense_id db)%Z.
Proof.
  intros Hin. unfold fresh_expense_id.
  pose proof (max_id_ge (map expense_id_ (expenses db)) (expense_id_ e)
                (in_map _ _ _ Hin)).
  lia.
Qed.

Lemma find_last {A} (p : A -> bool) (l : list A) (x : A) :
  (forall y, In y l -> p y = false) -> p x = true ->
  find p (l ++ [x]) = Some x.
Proof.
  intros Hl Hx. induction l as [| y l IH]; simpl.
  - rewrite Hx. reflexivity.
  - rewrite (Hl y) by (simpl; auto). apply IH. intros z Hz. apply Hl. simpl. auto.
Qed.

Lemma find_filter_gone {A} (key : A -> Z) (k : Z) (l : list A) :
  find (fun x => Z.eqb (key x) k)
       (List.filter (fun x => negb (Z.eqb (key x) k)) l) = None.
Proof.
  induction l as [| x l IH]; simpl; [reflexivity |].
  destruct (Z.eqb (key x) k) eqn:E; simpl; [exact IH |].
  rewrite E. exact IH.
Qed.

Lemma find_filter_other {A} (key : A -> Z) (k k' : Z) (l : list A) :
  k' <> k ->
  find (fun x => Z.eqb (key x) k')
       (List.filter (fun x => negb (Z.eqb (key x) k)) l)
  = find (fun x => Z.eqb (key x) k') l.
Proof.
  intros Hne. induction l as [| x l IH]; simpl; [reflexivity |].
  destruct (Z.eqb_spec (key x) k) as [E | E]; simpl.
  - rewrite E. destruct (Z.eqb_spec k k'); [congruence | exact IH].
  - rewrite IH. reflexivity.
Qed.

(** What [create_expense] leaves alone. *)
Lemma create_expense_frame db group_id payer_member_id description amount date
    split_type split_inputs db' e :
  create_expense db group_id payer_member_id description amount date
                 split_type split_inputs = inr (db', e) ->
  groups db' = groups db
  /\ group_members db' = group_members db
  /\ settlements db' = settlements db.
Proof.
  unfold create_expense. rewrite query_group_add_expense.
  destruct (query_group db group_id) as [g |]; [| discriminate].
  destruct (build_splits _ _ _ _ _) as [err | splits]; [discriminate |].
  simpl. intros [= <- _]. auto.
Qed.

(** X11: deleting the expense that [create_expense] has just stored gives
    the database back as it was, where every split and place tag belongs to
    an expense of the table. *)
Theorem create_then_delete_expense
    (db : Database) (group_id payer_member_id : Z) (description : string)
    (amount : Q) (date : Z) (split_type : string)
    (split_inputs : list (Z * Py.value)) (l' : Session) (e : Expense) :
  (forall s, In s (expense_splits (ledger db)) ->
     exists e0, In e0 (expenses (ledger db)) /\ expense_id_ e0 = split_expense_id s) ->
  (forall t, In t (place_tags db) ->
     exists e0, In e0 (expenses (ledger db)) /\ expense_id_ e0 = tag_expense_id t) ->
  create_expense (ledger db) group_id payer_member_id description amount date
                 split_type split_inputs = inr (l', e) ->
  delete_expense (with_ledger db l') (expense_id_ e) = db.
Proof.
  intros Hsplits Htags Hrun.
  set (l := ledger db) in *.
  destruct (query_group l group_id) as [g |] eqn:Hg.
  2: { unfold create_expense in Hrun. rewrite query_group_add_expense, Hg in Hrun.
       discriminate. }
  destruct (build_splits_total (fresh_expense_id l) amount split_type split_inputs
              (members_of l g)) as (new & Hnew & Hnew_id).
  destruct (create_expense_splits l group_id payer_member_id description amount
              date split_inputs g split_type new Hg Hnew)
    as (l1 & e1 & Hrun1 & Hexp & Hid & Hspl).
  rewrite Hrun in Hrun1. injection Hrun1 as <- <-.
  assert (Hold : forall e0, In e0 (expenses l) ->
                   Z.eqb (expense_id_ e0) (expense_id_ e) = false).
  { intros e0 He0. apply Z.eqb_neq. rewrite Hid.
    pose proof (fresh_expense_id_gt l e0 He0). lia. }
  assert (Hq : query_expense l' (expense_id_ e) = Some e).
  { unfold query_expense. rewrite Hexp.
    apply find_last; [exact Hold | apply Z.eqb_refl]. }
  unfold delete_expense. simpl ledger. rewrite Hq. simpl.
  rewrite Hexp, Hspl, !List.filter_app. simpl. rewrite Z.eqb_refl. simpl.
  rewrite app_nil_r.
  rewrite (filter_all _ (expenses l))
    by (intros e0 He0; rewrite (Hold e0 He0); reflexivity).
  rewrite (filter_all _ (expense_splits l)).
  2: { intros s Hs. destruct (Hsplits s Hs) as (e0 & He0 & <-).
       rewrite (Hold e0 He0). reflexivity. }
  rewrite (filter_none _ new).
  2: { intros s Hs. destruct (Hnew_id s Hs) as [-> _].
       rewrite <- Hid, Z.eqb_refl. reflexivity. }
  rewrite (filter_all _ (place_tags db)).
  2: { intros t Ht. destruct (Htags t Ht) as (e0 & He0 & <-).
       rewrite (Hold e0 He0). reflexivity. }
  rewrite app_nil_r.
  destruct (create_expense_frame _ _ _ _ _ _ _ _ _ _ Hrun) as (-> & -> & ->).
  subst l. destruct db as [[] ? ? ? ?]. reflexivity.
Qed.

Lemma create_then_delete_expense_witness :
  exists l' e,
    create_expense (ledger sample_db) 1 2 "Taxi" 30 0 "Equal" [] = inr (l', e)
    /\ delete_expense (with_ledger sample_db l') (expense_id_ e) = sample_db.
Proof.
  destruct (create_expense (ledger sample_db) 1 2 "Taxi" 30 0 "Equal" [])
    as [err | [l' e]] eqn:Hrun.
  - vm_compute in Hrun. discriminate Hrun.
  - exists l', e. split; [reflexivity |].
    apply (create_then_delete_expense sample_db 1 2 "Taxi" 30 0 "Equal" [] l' e).
    + intros s [<- | [<- | []]]; exists lunch; simpl; auto.
    + intros t [<- | []]. exists lunch. simpl. auto.
    + exact Hrun.
Defined.

(** X12: after [delete_expense] no expense is found under the id; if one
    was there, none of its splits and no place tag of it remains; the
    expenses, splits and place tags of every other id, and all other
    tables, are as before; and for an id that names no expense nothing
    changes at all. *)
Theorem delete_expense_effect (db : Database) (expense_id : Z) :
  let db' := delete_expense db expense_id in
  query_expense (ledger db') expense_id = None
  /\ (forall old, query_expense (ledger db) expense_id = Some old ->
        (forall s, In s (expense_splits (ledger db')) ->
           split_expense_id s <> expense_id)
        /\ get_expense_place db' expense_id = None)
  /\ (query_expense (ledger db) expense_id = None -> db' = db)
  /\ (forall other, other <> expense_id ->
        query_expense (ledger db') other = query_expense (ledger db) other
        /\ (forall e, expense_id_ e = other ->
              splits_of (ledger db') e = splits_of (ledger db) e)
        /\ get_expense_place db' other = get_expense_place db other)
  /\ groups (ledger db') = groups (ledger db)
  /\ group_members (ledger db') = group_members (ledger db)
  /\ settlements (ledger db') = settlements (ledger db)
  /\ polls db' = polls db
  /\ poll_options db' = poll_options db
  /\ poll_votes db' = poll_votes db.
Proof.
  intros db'. subst db'. unfold delete_expense.
  destruct (query_expense (ledger db) expense_id) as [old |] eqn:Hold.
  - pose proof (query_expense_id _ _ _ Hold) as Hid. rewrite Hid.
    cbn [ledger expenses expense_splits place_tags groups group_members
         settlements polls poll_options poll_votes].
    split; [apply (find_filter_gone expense_id_) |].
    split; [intros old' _; split |].
    + intros s Hs. apply filter_In in Hs as [_ Hs].
      apply negb_true_iff, Z.eqb_neq in Hs. exact Hs.
    + apply (find_filter_gone tag_expense_id).
    + split; [discriminate |].
      split; [| repeat split; reflexivity].
      intros other Hne. split; [| split].
      * apply (find_filter_other expense_id_). exact Hne.
      * intros e <-. apply (filter_other_key split_expense_id). exact Hne.
      * apply (find_filter_other tag_expense_id). exact Hne.
  - split; [exact Hold |]. split; [discriminate |]. split; [reflexivity |].
    split; [| repeat split; reflexivity].
    intros other _. repeat split; reflexivity.
Qed.

(** ** The budget *)

Lemma positive_budget_kept b :
  0 < b -> Py.truthy (Py.VFloat b) && Py.gt b 0 = true.
Proof.
  intros Hb. apply andb_true_iff. split.
  - simpl. destruct (Qeq_bool b 0) eqn:E; [| reflexivity].
    apply Qeq_bool_iff in E. lra.
  - destruct (gt_reflect b 0); [reflexivity | contradiction].
Qed.

Lemma other_budget_dropped b :
  b <= 0 -> Py.truthy (Py.VFloat b) && Py.gt b 0 = false.
Proof.
  intros Hb. apply andb_false_iff. right.
  destruct (gt_reflect b 0); [lra | reflexivity].
Qed.

(** The state and the row that [update_group_budget] returns for a group
    that exists. *)
Lemma update_group_budget_run db group_id budget g :
  query_group db group_id = Some g ->
  exists g',
    update_group_budget db group_id budget = inr (store_group db g g', g')
    /\ query_group (store_group db g g') group_id = Some g'
    /\ group_name g' = group_name g
    /\ budget_amount g'
       = match budget with
         | Some b => if Py.truthy (Py.VFloat b) && Py.gt b 0 then Some b else None
         | None => None
         end.
Proof.
  intros Hg. eexists. split; [| split; [| split]].
  - unfold update_group_budget. rewrite Hg. reflexivity.
  - unfold query_group in *. simpl.
    apply (find_replaced group_id_ group_id g); [exact Hg |].
    simpl. apply find_some in Hg as [_ Hg]. apply Z.eqb_eq. exact Hg.
  - reflexivity.
  - reflexivity.
Qed.

(** X13: [update_group_budget] raises [ValueError] for a missing group;
    otherwise the group found under the id afterwards has the budget given
    when that is positive and no budget when it is zero, negative or
    [None], so that a stored budget is always positive; the ledger is
    otherwise untouched. *)
Theorem update_group_budget_outcome
    (db : Session) (group_id : Z) (budget : option Q) :
  match query_group db group_id with
  | None =>
      update_group_budget db group_id budget = inl (ValueError "Group not found")
  | Some g =>
      exists db' g',
        update_group_budget db group_id budget = inr (db', g')
        /\ query_group db' group_id = Some g'
        /\ group_name g' = group_name g
        /\ (forall b, budget = Some b -> 0 < b -> budget_amount g' = Some b)
        /\ (forall b, budget = Some b -> b <= 0 -> budget_amount g' = None)
        /\ (budget = None -> budget_amount g' = None)
        /\ (forall b, budget_amount g' = Some b -> 0 < b)
        /\ group_members db' = group_members db
        /\ expenses db' = expenses db
        /\ expense_splits db' = expense_splits db
        /\ settlements db' = settlements db
  end.
Proof.
  destruct (query_group db group_id) as [g |] eqn:Hg.
  2: { unfold update_group_budget. rewrite Hg. reflexivity. }
  destruct (update_group_budget_run db group_id budget g Hg)
    as (g' & Hrun & Hq & Hname & Hkept).
  exists (store_group db g g'), g'.
  split; [exact Hrun |]. split; [exact Hq |]. split; [exact Hname |].
  rewrite Hkept.
  split; [intros b -> Hb; rewrite positive_budget_kept by assumption; reflexivity |].
  split; [intros b -> Hb; rewrite other_budget_dropped by assumption; reflexivity |].
  split; [intros ->; reflexivity |].
  split; [| repeat split; reflexivity].
  intros b. destruct budget as [b0 |]; [| discriminate].
  destruct (Qlt_le_dec 0 b0) as [Hpos | Hle].
  - rewrite positive_budget_kept by assumption. intros [= <-]. exact Hpos.
  - rewrite other_budget_dropped by assumption. discriminate.
Qed.

(** X14: the status read after [update_group_budget] reports the budget
    just stored: with a positive budget, the percentage is the total spent
    over that budget times 100; without one the percentage is 0 and there
    is no alert.  The total spent is not affected. *)
Theorem budget_status_after_update
    (db db' : Session) (group_id : Z) (budget : option Q) (g' : Group) :
  update_group_budget db group_id budget = inr (db', g') ->
  exists st,
    get_budget_status db' group_id = inr st
    /\ total_spent st = calculate_total_spent db group_id
    /\ (forall b, budget = Some b -> 0 < b ->
          status_budget_amount st = Some b
          /\ percentage_used st = calculate_total_spent db group_id / b * 100)
    /\ ((budget = None \/ exists b, budget = Some b /\ b <= 0) ->
          status_budget_amount st = None
          /\ percentage_used st = 0 /\ alerts st = []).
Proof.
  intros Hrun.
  destruct (query_group db group_id) as [g |] eqn:Hg;
    [| unfold update_group_budget in Hrun; rewrite Hg in Hrun; discriminate].
  destruct (update_group_budget_run db group_id budget g Hg)
    as (g0 & Hrun' & Hq & _ & Hkept).
  rewrite Hrun in Hrun'. injection Hrun' as -> ->.
  unfold get_budget_status. rewrite Hq.
  change (calculate_total_spent (store_group db g g0) group_id)
    with (calculate_total_spent db group_id).
  rewrite Hkept.
  destruct budget as [b |].
  - destruct (Qlt_le_dec 0 b) as [Hpos | Hle].
    + rewrite (positive_budget_kept b Hpos). cbv iota.
      rewrite (positive_budget_kept b Hpos).
      rewrite truediv_nonzero by lra. simpl.
      eexists. split; [reflexivity |]. split; [reflexivity |]. simpl. split.
      * intros b' [= <-] _. auto.
      * intros [Hnone | (b' & [= <-] & Hle)]; [discriminate | lra].
    + rewrite (other_budget_dropped b Hle). cbv iota.
      eexists. split; [reflexivity |]. split; [reflexivity |]. simpl. split.
      * intros b' [= <-] Hpos. lra.
      * auto.
  - eexists. split; [reflexivity |]. split; [reflexivity |]. simpl. split.
    + intros b' Hb'. discriminate.
    + auto.
Qed.

Lemma budget_status_after_update_witness :
  exists db' g' st,
    update_group_budget lunch_db 1 (Some 400) = inr (db', g')
    /\ get_budget_status db' 1 = inr st
    /\ status_budget_amount st = Some 400
    /\ percentage_used st = calculate_total_spent lunch_db 1 / 400 * 100.
Proof.
  destruct (update_group_budget lunch_db 1 (Some 400)) as [err | [db' g']] eqn:Hrun.
  - vm_compute in Hrun. discriminate Hrun.
  - destruct (budget_status_after_update lunch_db db' 1 (Some 400) g' Hrun)
      as (st & Hst & _ & Hpos & _).
    destruct (Hpos 400 eq_refl ltac:(reflexivity)) as [Hb Hpct].
    exists db', g', st. auto.
Defined.

(** The row that a successful [create_expense] appends. *)
Lemma create_expense_row db group_id payer_member_id description amount date
    split_type split_inputs db' e :
  create_expense db group_id payer_member_id description amount date
                 split_type split_inputs = inr (db', e) ->
  expenses db' = expenses db ++ [e]
  /\ expense_group_id e = group_id
  /\ expense_amount e = amount
  /\ expense_payer_member_id e = payer_member_id.
Proof.
  unfold create_expense. rewrite query_group_add_expense.
  destruct (query_group db group_id) as [g |]; [| discriminate].
  destruct (build_splits _ _ _ _ _) as [err | splits]; [discriminate |].
  simpl. intros [= <- <-]. simpl. auto.
Qed.

(** X15: a new expense raises the total spent of its group by its amount
    and leaves the total of every other group as it was. *)
Theorem total_spent_after_create
    (db db' : Session) (group_id payer_member_id : Z) (description : string)
    (amount : Q) (date : Z) (split_type : string)
    (split_inputs : list (Z * Py.value)) (e : Expense) :
  create_expense db group_id payer_member_id description amount date
                 split_type split_inputs = inr (db', e) ->
  calculate_total_spent db' group_id == calculate_total_spent db group_id + amount
  /\ forall other, other <> group_id ->
       calculate_total_spent db' other = calculate_total_spent db other.
Proof.
  intros Hrun.
  destruct (create_expense_row _ _ _ _ _ _ _ _ _ _ Hrun) as (Hexp & Hgid & Hamt & _).
  unfold calculate_total_spent, query_expenses. rewrite Hexp. split.
  - rewrite List.filter_app. cbn [List.filter]. rewrite Hgid, Z.eqb_refl.
    rewrite map_app, !sum_Qsum, Qsum_app. simpl. rewrite Hamt. lra.
  - intros other Hne. rewrite List.filter_app. cbn [List.filter]. rewrite Hgid.
    destruct (Z.eqb_spec group_id other); [congruence |].
    rewrite app_nil_r. reflexivity.
Qed.

Lemma total_spent_after_create_witness :
  exists db' e,
    create_expense lunch_db 1 2 "Taxi" 30 0 "Equal" [] = inr (db', e)
    /\ calculate_total_spent db' 1 == calculate_total_spent lunch_db 1 + 30.
Proof.
  destruct (create_expense lunch_db 1 2 "Taxi" 30 0 "Equal" [])
    as [err | [db' e]] eqn:Hrun.
  - vm_compute in Hrun. discriminate Hrun.
  - exists db', e. split; [reflexivity |].
    apply (total_spent_after_create lunch_db db' 1 2 "Taxi" 30 0 "Equal" [] e Hrun).
Defined.

(** ** More on [simplify_debts] *)

Lemma lt_false a b : Py.lt a b = false -> b <= a.
Proof. intros H. destruct (lt_reflect a b); [discriminate | lra]. Qed.

Lemma while_loop_done fuel st :
  loop_guard st = false -> while_loop fuel st = Some st.
Proof. intros H. destruct fuel; simpl; rewrite H; reflexivity. Qed.

(** X16: when no member is a debtor, or none is a creditor, no
    transaction is emitted, whatever the other side is owed or owes. *)
Theorem simplify_debts_one_sided (balances : list (Z * Q)) :
  debtor_count balances = 0%nat \/ creditor_count balances = 0%nat ->
  simplify_debts balances = Some [].
Proof.
  intros Hside. destruct (loop_entry_lengths balances) as [Hnd Hnc].
  destruct (loop_entry_cursors balances) as (Hi & Hj & Htx).
  unfold simplify_debts. rewrite while_loop_done.
  - simpl. rewrite Htx. reflexivity.
  - unfold loop_guard. rewrite Hi, Hj, Hnd, Hnc.
    destruct Hside as [-> | ->]; simpl; [reflexivity | apply andb_false_r].
Qed.

Lemma simplify_debts_one_sided_witness :
  simplify_debts [(1%Z, 50); (2%Z, 25)] = Some [].
Proof.
  apply (simplify_debts_one_sided [(1%Z, 50); (2%Z, 25)]). left. reflexivity.
Defined.

Lemma loop_entry_pay_inv balances : pay_inv balances (loop_entry balances).
Proof.
  destruct (loop_entry_cursors balances) as (Hi & Hj & Htx).
  assert (Hd : Forall (fun e => debtor_key balances (id e)
                                /\ amount e <= - (1 # 100))
                      (debtors (loop_entry balances))).
  { eapply Permutation_Forall; [symmetry; apply loop_entry_debtors |].
    apply List.Forall_forall. intros e He.
    apply in_map_iff in He as ([k b] & <- & Hin).
    apply filter_In in Hin as [Hin Hd]. simpl in *. split.
    - exists b. auto.
    - unfold is_debtor in Hd. apply lt_true in Hd. lra. }
  assert (Hc : Forall (fun e => creditor_key balances (id e)
                                /\ 1 # 100 <= amount e)
                      (creditors (loop_entry balances))).
  { eapply Permutation_Forall; [symmetry; apply loop_entry_creditors |].
    apply List.Forall_forall. intros e He.
    apply in_map_iff in He as ([k b] & <- & Hin).
    apply filter_In in Hin as [Hin Hc]. simpl in *. split.
    - exists b. auto.
    - unfold is_creditor, Py.gt in Hc. apply (lt_true (1 # 100)) in Hc. lra. }
  split.
  - apply loop_entry_inv.
  - eapply Forall_impl; [exact Hd |]. simpl. tauto.
  - eapply Forall_impl; [exact Hc |]. simpl. tauto.
  - rewrite Hi, drop_0. eapply Forall_impl; [exact Hd |]. simpl. tauto.
  - rewrite Hj, drop_0. eapply Forall_impl; [exact Hc |]. simpl. tauto.
  - rewrite Htx. constructor.
Qed.

(** Updating the entry under a cursor, and staying on it only while it is
    open, keeps the entries from the cursor on open. *)
Lemma open_suffix_insert (P : entry -> Prop) (l : list entry) (n : nat)
    (e e' : entry) (advance : bool) :
  l !! n = Some e ->
  Forall P (drop n l) ->
  (advance = false -> P e') ->
  Forall P (drop (if advance then S n else n) (<[n := e']> l)).
Proof.
  intros Hn Hopen He'.
  rewrite (drop_S _ _ _ Hn) in Hopen. inversion Hopen as [| ? ? _ Hrest]; subst.
  destruct advance.
  - rewrite drop_insert_lt by lia. assumption.
  - assert (Hlen : (n < length l)%nat) by (eapply lookup_lt_Some; eauto).
    rewrite (drop_S _ e' n) by (apply list_lookup_insert_eq; assumption).
    rewrite drop_insert_lt by lia. constructor; auto.
Qed.

Lemma pay_inv_step balances st :
  loop_guard st = true -> pay_inv balances st -> pay_inv balances (loop_body st).
Proof.
  intros Hguard [Hloop Hdk Hck Hdo Hco Htx].
  destruct (loop_body_step st Hguard Hloop) as (Hloop' & _).
  destruct (loop_guard_lookup st Hguard) as (d & c & Hd & Hc).
  pose proof (Forall_lookup_1 _ _ _ _ (inv_debtors _ Hloop) Hd) as Hdneg.
  pose proof (Forall_lookup_1 _ _ _ _ Hdk Hd) as Hdkey.
  pose proof (Forall_lookup_1 _ _ _ _ Hck Hc) as Hckey.
  assert (Hdopen : amount d <= - (1 # 100)).
  { rewrite (drop_S _ _ _ Hd) in Hdo. inversion Hdo; assumption. }
  assert (Hcopen : 1 # 100 <= amount c).
  { rewrite (drop_S _ _ _ Hc) in Hco. inversion Hco; assumption. }
  simpl in Hdneg, Hdkey, Hckey.
  destruct (settle_progress (amount d) (amount c) Hdneg) as [Hsum _].
  revert Hloop'. rewrite (loop_body_eq st d c Hd Hc).
  set (a := Py.min (Qabs (amount d)) (amount c)) in *. intros Hloop'.
  pose proof (Qabs_neg _ Hdneg) as Habs.
  assert (Ha : 1 # 100 <= a /\ a <= amount c).
  { subst a.
    destruct (min_cases (Qabs (amount d)) (amount c)) as [[? ->] | [? ->]]; lra. }
  split; cbn [debtors creditors i j transactions].
  - exact Hloop'.
  - apply Forall_insert; assumption.
  - apply Forall_insert; assumption.
  - apply (open_suffix_insert _ _ _ d); try assumption. cbn [amount].
    intros Hstay. apply lt_false in Hstay.
    assert (Habs' : Qabs (amount d + a) == - (amount d + a))
      by (apply Qabs_neg; assumption).
    lra.
  - apply (open_suffix_insert _ _ _ c); try assumption. cbn [amount].
    intros Hstay. apply lt_false in Hstay. exact Hstay.
  - apply Forall_app. split; [assumption |].
    constructor; [| constructor]. simpl. tauto.
Qed.

(** X17: every transaction that [simplify_debts] emits moves at least one
    hundredth, from a member whose rounded balance is below -0.01 to a
    member whose rounded balance is above 0.01; nobody pays themself. *)
Theorem simplify_debts_transactions
    (balances : list (Z * Q)) (txs : list transaction) :
  simplify_debts balances = Some txs ->
  forall payer receiver a, In (payer, receiver, a) txs ->
    1 # 100 <= a
    /\ debtor_key balances payer
    /\ creditor_key balances receiver
    /\ (List.NoDup (Py.keys balances) -> payer <> receiver).
Proof.
  intros Hres payer receiver a Hin.
  destruct (simplify_debts_runs balances) as (st' & Hrun & Hres').
  rewrite Hres in Hres'. injection Hres' as ->.
  destruct (while_loop_invariant _ (pay_inv_step balances) _ _ _
              (loop_entry_pay_inv balances) Hrun) as [Hinv _].
  pose proof (pay_transactions _ _ Hinv) as Htx.
  rewrite List.Forall_forall in Htx. specialize (Htx _ Hin).
  destruct Htx as (Ha & Hp & Hr). repeat split; try assumption.
  intros Hnd ->. destruct Hp as (b1 & Hb1 & Hd), Hr as (b2 & Hb2 & Hc).
  apply (In_get_NoDup _ _ _ Hnd) in Hb1, Hb2.
  assert (b1 = b2) as -> by congruence.
  rewrite (debtor_not_creditor b2 Hd) in Hc. discriminate.
Qed.

Lemma simplify_debts_transactions_witness :
  1 # 100 <= 10000 # 100
  /\ debtor_key [(1%Z, 100); (2%Z, - (100))] 2
  /\ creditor_key [(1%Z, 100); (2%Z, - (100))] 1
  /\ (List.NoDup (Py.keys [(1%Z, 100); (2%Z, - (100))]) -> 2%Z <> 1%Z).
Proof.
  apply (simplify_debts_transactions [(1%Z, 100); (2%Z, - (100))]
           [(2%Z, 1%Z, 10000 # 100)] eq_refl 2 1 (10000 # 100)).
  simpl. auto.
Defined.

(** ** Settling moves every balance towards zero *)

Lemma held_Permutation m l l' : Permutation l l' -> held m l == held m l'.
Proof. intros H. unfold held. apply Qsum_Permutation, Permutation_map, H. Qed.

Lemma held_nonpos m l : Forall (fun e => amount e <= 0) l -> held m l <= 0.
Proof.
  unfold held. induction 1 as [| e l He _ IH]; simpl; [lra |].
  destruct (Z.eqb (id e) m); lra.
Qed.

Lemma held_nonneg m l : Forall (fun e => 0 <= amount e) l -> 0 <= held m l.
Proof.
  unfold held. induction 1 as [| e l He _ IH]; simpl; [lra |].
  destruct (Z.eqb (id e) m); lra.
Qed.

(** What a member holds in the entries made from the items that [p]
    selects. *)
Lemma filtered_held (p : Z * Q -> bool) m b balances :
  List.NoDup (Py.keys balances) ->
  In (m, b) balances ->
  held m (map entry_of (List.filter p balances))
  == if p (m, b) then Py.round2 b else 0.
Proof.
  intros Hnd Hin.
  assert (Hsum : held m (map entry_of (List.filter p balances))
                 == Qsum (map (fun kv => if p kv
                                         then (if Z.eqb (fst kv) m
                                               then Py.round2 (snd kv) else 0)
                                         else 0) balances)).
  { clear. unfold held. induction balances as [| kv balances IH]; simpl; [lra |].
    destruct (p kv); simpl; rewrite IH; lra. }
  rewrite Hsum, (Qsum_single_key _ m b balances Hnd Hin).
  - simpl. rewrite Z.eqb_refl. reflexivity.
  - intros [k v] Hne. simpl in *.
    destruct (Z.eqb_spec k m); [contradiction |].
    destruct (p (k, v)); reflexivity.
Qed.

Lemma loop_entry_toward_zero balances :
  toward_zero (loop_entry balances) (loop_entry balances).
Proof. intros m. split; apply Qle_refl. Qed.

Lemma toward_zero_step st0 st :
  loop_guard st = true ->
  settle_inv st0 st -> toward_zero st0 st -> toward_zero st0 (loop_body st).
Proof.
  intros Hguard Hinv Hzero m. destruct (Hzero m) as [Hd0 Hc0].
  destruct (loop_guard_lookup st Hguard) as (d & c & Hd & Hc).
  destruct (Forall_lookup_1 _ _ _ _ (settle_creditors _ _ Hinv) Hc) as [_ Hcpos].
  simpl in Hcpos.
  rewrite (loop_body_eq st d c Hd Hc).
  set (a := Py.min (Qabs (amount d)) (amount c)).
  assert (Ha : 0 <= a).
  { subst a. pose proof (Qabs_nonneg (amount d)).
    destruct (min_cases (Qabs (amount d)) (amount c)) as [[? ->] | [? ->]]; lra. }
  cbn [debtors creditors]. unfold held in *.
  rewrite (Qsum_map_insert _ _ _ _ _ Hd), (Qsum_map_insert _ _ _ _ _ Hc).
  simpl. destruct (Z.eqb (id d) m), (Z.eqb (id c) m); split; lra.
Qed.

(** In exact arithmetic the transactions never overshoot: a debtor ends
    between its balance and what rounding took off it, a creditor likewise
    from the other side, and any other member ends where it was. *)
Lemma settle_bounds
    (balances : list (Z * Q)) (txs : list transaction) :
  List.NoDup (Py.keys balances) ->
  simplify_debts balances = Some txs ->
  forall k b, In (k, b) balances ->
    exists v,
      Py.get k (settle_all txs balances) = Some v
      /\ (is_debtor b = true -> b <= v /\ v <= b - Py.round2 b)
      /\ (is_creditor b = true -> b - Py.round2 b <= v /\ v <= b)
      /\ (is_debtor b = false -> is_creditor b = false -> v == b).
Proof.
  intros Hnd Hres k b Hin.
  destruct (simplify_debts_runs balances) as (st' & Hrun & Hres').
  rewrite Hres in Hres'. injection Hres' as ->.
  destruct (while_loop_invariant
              (fun st => settle_inv (loop_entry balances) st
                         /\ toward_zero (loop_entry balances) st)
              (fun st Hguard H =>
                 conj (settle_inv_step _ st Hguard (proj1 H))
                      (toward_zero_step _ st Hguard (proj1 H) (proj2 H)))
              _ _ _
              (conj (loop_entry_settle_inv balances)
                    (loop_entry_toward_zero balances)) Hrun)
    as [[Hinv Hzero] _].
  pose proof (In_get_NoDup _ _ _ Hnd Hin) as Hget.
  rewrite settle_all_adjust.
  destruct (adjust_all_get k (transaction_adjustments (transactions st')) _ _ Hget)
    as (v & Hv & Hsum).
  exists v. split; [exact Hv |].
  pose proof (settle_ledger _ _ Hinv k) as Hled.
  destruct (Hzero k) as [Hd0 Hc0].
  pose proof (held_nonpos k _ (inv_debtors _ (settle_loop _ _ Hinv))) as Hd1.
  assert (Hc1 : 0 <= held k (creditors st')).
  { apply held_nonneg. eapply Forall_impl; [apply (settle_creditors _ _ Hinv) |].
    simpl. tauto. }
  rewrite (held_Permutation k _ _ (loop_entry_debtors balances)),
    (filtered_held (fun kv => is_debtor (snd kv)) k b balances Hnd Hin) in Hled, Hd0.
  rewrite (held_Permutation k _ _ (loop_entry_creditors balances)),
    (filtered_held (fun kv => is_creditor (snd kv)) k b balances Hnd Hin)
    in Hled, Hc0.
  cbn [snd] in *.
  destruct (is_debtor b) eqn:Ed.
  - rewrite (debtor_not_creditor b Ed) in *.
    repeat split; intros; try discriminate; lra.
  - destruct (is_creditor b) eqn:Ec;
      repeat split; intros; try discriminate; lra.
Qed.

Lemma delta_transactions_cons k p r a txs :
  delta k (transaction_adjustments ((p, r, a) :: txs))
  == (if Z.eqb p k then a else 0) - (if Z.eqb r k then a else 0)
     + delta k (transaction_adjustments txs).
Proof.
  change (transaction_adjustments ((p, r, a) :: txs))
    with ((p, a) :: (r, - a) :: transaction_adjustments txs).
  rewrite !delta_cons. cbn [fst snd].
  destruct (Z.eqb p k), (Z.eqb r k); lra.
Qed.

(** A member who pays in some transactions and receives in none only
    gains by them; one who receives and never pays only loses. *)
Lemma delta_payer_only k (txs : list transaction) :
  Forall (fun tx : transaction => 0 <= snd tx /\ snd (fst tx) <> k) txs ->
  0 <= delta k (transaction_adjustments txs).
Proof.
  induction 1 as [| [[p r] a] txs [Ha Hr] _ IH].
  - unfold delta. simpl. apply Qle_refl.
  - rewrite delta_transactions_cons. cbn [fst snd] in Ha, Hr.
    destruct (Z.eqb_spec r k); [contradiction |].
    destruct (Z.eqb p k); lra.
Qed.

Lemma delta_receiver_only k (txs : list transaction) :
  Forall (fun tx : transaction => 0 <= snd tx /\ fst (fst tx) <> k) txs ->
  delta k (transaction_adjustments txs) <= 0.
Proof.
  induction 1 as [| [[p r] a] txs [Ha Hp] _ IH].
  - unfold delta. simpl. apply Qle_refl.
  - rewrite delta_transactions_cons. cbn [fst snd] in Ha, Hp.
    destruct (Z.eqb_spec p k); [contradiction |].
    destruct (Z.eqb r k); lra.
Qed.

Lemma transaction_adjustments_integer (txs : list transaction) :
  Forall (fun tx : transaction => whole (snd tx)) txs ->
  Forall (fun a => integer (snd a)) (transaction_adjustments txs).
Proof.
  induction 1 as [| [[p r] a] txs [Ha _] _ IH]; [constructor |].
  change (transaction_adjustments ((p, r, a) :: txs))
    with ((p, a) :: (r, - a) :: transaction_adjustments txs).
  constructor; [exact Ha |]. constructor; [apply integer_opp; exact Ha | exact IH].
Qed.

(** Every transaction of a plan goes from a debtor to a creditor and moves
    at least one hundredth. *)
Lemma plan_sound balances txs :
  simplify_debts balances = Some txs -> Forall (sound_transaction balances) txs.
Proof.
  intros Hres.
  destruct (simplify_debts_runs balances) as (st' & Hrun & Hres').
  rewrite Hres in Hres'. injection Hres' as ->.
  destruct (while_loop_invariant _ (pay_inv_step balances) _ _ _
              (loop_entry_pay_inv balances) Hrun) as [Hinv _].
  exact (pay_transactions _ _ Hinv).
Qed.

(** While the transactions of a plan for whole balances are recorded one
    after the other, every balance stays whole: it moves from where it was
    towards zero. *)
Lemma settling_on_the_way balances txs pre post :
  List.NoDup (Py.keys balances) ->
  (forall k b, In (k, b) balances -> whole b) ->
  simplify_debts balances = Some txs ->
  txs = pre ++ post ->
  forall k v, In (k, v) (settle_all pre balances) -> whole v.
Proof.
  intros Hnd Hw Hres Hsplit k v Hin.
  pose proof (plan_sound balances txs Hres) as Hsound.
  pose proof (whole_plan balances txs Hw Hres) as Hwtx.
  rewrite settle_all_adjust in Hin.
  assert (Hk : In k (Py.keys balances)).
  { rewrite <- (adjust_all_keys (transaction_adjustments pre)).
    apply in_map_iff. exists (k, v). auto. }
  destruct (get_Some_keys k balances Hk) as [b Hb].
  destruct (adjust_all_get k (transaction_adjustments pre) _ _ Hb)
    as (v' & Hv' & Hsum).
  assert (v = v') as <-.
  { apply In_get_NoDup in Hin; [congruence |]. rewrite adjust_all_keys. exact Hnd. }
  pose proof (get_Some_In _ _ _ Hb) as Hbin.
  pose proof (Hw k b Hbin) as Hbw.
  pose proof (round2_whole b Hbw) as Hround.
  destruct (settle_bounds balances txs Hnd Hres k b Hbin)
    as (vf & Hvf & Hdeb & Hcred & Hrest).
  rewrite settle_all_adjust in Hvf.
  destruct (adjust_all_get k (transaction_adjustments txs) _ _ Hb)
    as (vf' & Hvf' & Hsumf).
  assert (vf = vf') as <- by congruence.
  assert (Hdelta : delta k (transaction_adjustments txs)
                   == delta k (transaction_adjustments pre)
                      + delta k (transaction_adjustments post)).
  { rewrite Hsplit. unfold transaction_adjustments.
    rewrite flat_map_app. apply delta_app. }
  rewrite Hsplit in Hsound, Hwtx.
  apply Forall_app in Hsound as [Hs1 Hs2]. apply Forall_app in Hwtx as [Hw1 _].
  assert (Hint : integer v).
  { apply (integer_wd (b + delta k (transaction_adjustments pre)));
      [symmetry; exact Hsum |].
    apply integer_plus; [apply Hbw |].
    apply delta_integer, transaction_adjustments_integer. exact Hw1. }
  assert (Hnever_receives :
            is_creditor b = false ->
            forall l, Forall (sound_transaction balances) l ->
              Forall (fun tx : transaction => 0 <= snd tx /\ snd (fst tx) <> k) l).
  { intros Hnc l Hl. eapply Forall_impl; [exact Hl |].
    intros [[p r] a] (Ha & _ & (b2 & Hb2 & Hc2)). cbn [fst snd]. split; [lra |].
    intros ->. apply (In_get_NoDup _ _ _ Hnd) in Hb2.
    assert (b2 = b) as -> by congruence. congruence. }
  assert (Hnever_pays :
            is_debtor b = false ->
            forall l, Forall (sound_transaction balances) l ->
              Forall (fun tx : transaction => 0 <= snd tx /\ fst (fst tx) <> k) l).
  { intros Hnd' l Hl. eapply Forall_impl; [exact Hl |].
    intros [[p r] a] (Ha & (b2 & Hb2 & Hd2) & _). cbn [fst snd]. split; [lra |].
    intros ->. apply (In_get_NoDup _ _ _ Hnd) in Hb2.
    assert (b2 = b) as -> by congruence. congruence. }
  apply (whole_within b); [exact Hbw | exact Hint |].
  destruct (is_debtor b) eqn:Ed.
  - pose proof (debtor_not_creditor b Ed) as Ec.
    pose proof (delta_payer_only k pre (Hnever_receives Ec pre Hs1)) as H1.
    pose proof (delta_payer_only k post (Hnever_receives Ec post Hs2)) as H2.
    destruct (Hdeb eq_refl) as [_ Hup].
    unfold is_debtor in Ed. apply lt_true in Ed.
    assert (Hbneg : b <= 0) by lra.
    rewrite (Qabs_neg b Hbneg). apply Qabs_Qle_condition. lra.
  - destruct (is_creditor b) eqn:Ec.
    + pose proof (delta_receiver_only k pre (Hnever_pays eq_refl pre Hs1)) as H1.
      pose proof (delta_receiver_only k post (Hnever_pays eq_refl post Hs2)) as H2.
      destruct (Hcred eq_refl) as [Hlow _].
      unfold is_creditor in Ec. apply (lt_true (1 # 100)) in Ec.
      assert (Hbpos : 0 <= b) by lra.
      rewrite (Qabs_pos b Hbpos). apply Qabs_Qle_condition. lra.
    + pose proof (delta_payer_only k pre (Hnever_receives eq_refl pre Hs1)) as H1.
      pose proof (delta_receiver_only k pre (Hnever_pays eq_refl pre Hs1)) as H2.
      assert (E : v == b) by lra. rewrite E. apply Qle_refl.
Qed.

(** X18: for whole balances with distinct keys, each up to 2^53,
    applying the transactions of [simplify_debts] as settlements moves
    every balance towards zero and never past it, and leaves it whole. *)
Theorem settling_moves_toward_zero
    (balances : list (Z * Q)) (txs : list transaction) :
  List.NoDup (Py.keys balances) ->
  (forall k b, In (k, b) balances -> whole b) ->
  simplify_debts balances = Some txs ->
  forall k b, In (k, b) balances ->
    exists v,
      Py.get k (settle_all txs balances) = Some v
      /\ whole v
      /\ (b <= 0 -> b <= v /\ v <= 0)
      /\ (0 <= b -> 0 <= v /\ v <= b).
Proof.
  intros Hnd Hw Hres k b Hin.
  destruct (settle_bounds balances txs Hnd Hres k b Hin)
    as (v & Hv & Hdeb & Hcred & Hrest).
  exists v. split; [exact Hv |].
  split.
  { apply (settling_on_the_way balances txs txs [] Hnd Hw Hres
             (eq_sym (app_nil_r txs)) k v).
    apply get_Some_In. exact Hv. }
  pose proof (round2_whole b (Hw k b Hin)) as Hr.
  destruct (is_debtor b) eqn:Ed.
  - destruct (Hdeb eq_refl) as [H1 H2].
    unfold is_debtor in Ed. apply lt_true in Ed. split; intros; split; lra.
  - destruct (is_creditor b) eqn:Ec.
    + destruct (Hcred eq_refl) as [H1 H2].
      unfold is_creditor in Ec. apply (lt_true (1 # 100)) in Ec.
      split; intros; split; lra.
    + pose proof (Hrest eq_refl eq_refl) as Hsame.
      unfold is_debtor in Ed. apply lt_false in Ed.
      unfold is_creditor in Ec. apply (lt_false (1 # 100)) in Ec.
      assert (Hb0 : b == 0) by (apply whole_small; [exact (Hw k b Hin) | lra | lra]).
      split; intros; split; lra.
Qed.

Lemma settling_moves_toward_zero_witness :
  exists v,
    Py.get 2 (settle_all [(2%Z, 1%Z, 6000 # 100)] lunch_balances) = Some v
    /\ whole v
    /\ (- 60 <= 0 -> - 60 <= v /\ v <= 0)
    /\ (0 <= - 60 -> 0 <= v /\ v <= - 60).
Proof.
  apply (settling_moves_toward_zero lunch_balances [(2%Z, 1%Z, 6000 # 100)]).
  - repeat constructor; simpl; intuition discriminate.
  - exact lunch_balances_whole.
  - reflexivity.
  - simpl. auto.
Defined.

(** ** The first transaction *)

Lemma loop_entry_eq balances :
  loop_entry balances
  = {| debtors :=
         sort_by_amount false
           (map entry_of (List.filter (fun kv => is_debtor (snd kv)) balances));
       creditors :=
         sort_by_amount true
           (map entry_of (List.filter (fun kv => is_creditor (snd kv)) balances));
       i := 0;
       j := 0;
       transactions := [] |}.
Proof. unfold loop_entry. rewrite classify_all. reflexivity. Qed.

(** The sorted list begins with an entry that no other precedes. *)
Lemma sort_by_amount_head reverse l h t :
  sort_by_amount reverse l = h :: t ->
  forall y, In y l ->
    if reverse then amount y <= amount h else amount h <= amount y.
Proof.
  revert h t. induction l as [| x l IH]; intros h t Hsort y Hy; [contradiction |].
  simpl in Hsort.
  destruct (sort_by_amount reverse l) as [| h' t'] eqn:Hl.
  - assert (l = []) as ->.
    { apply Permutation_nil. rewrite <- Hl.
      apply sort_by_amount_Permutation. }
    simpl in Hsort. injection Hsort as <- <-.
    destruct Hy as [<- | []]. destruct reverse; apply Qle_refl.
  - specialize (IH h' t' eq_refl). simpl in Hsort.
    destruct reverse.
    + destruct (Qle_bool (amount h') (amount x)) eqn:E.
      * apply Qle_bool_iff in E. injection Hsort as <- <-.
        destruct Hy as [<- | Hy]; [apply Qle_refl |].
        specialize (IH y Hy). simpl in IH. lra.
      * assert (amount x < amount h').
        { apply Qnot_le_lt. intros H. apply Qle_bool_iff in H. congruence. }
        injection Hsort as <- <-.
        destruct Hy as [<- | Hy]; [lra |]. exact (IH y Hy).
    + destruct (Qle_bool (amount x) (amount h')) eqn:E.
      * apply Qle_bool_iff in E. injection Hsort as <- <-.
        destruct Hy as [<- | Hy]; [apply Qle_refl |].
        specialize (IH y Hy). simpl in IH. lra.
      * assert (amount h' < amount x).
        { apply Qnot_le_lt. intros H. apply Qle_bool_iff in H. congruence. }
        injection Hsort as <- <-.
        destruct Hy as [<- | Hy]; [lra |]. exact (IH y Hy).
Qed.

(** The loop only ever appends to the transactions. *)
Lemma while_loop_appends fuel st st' :
  while_loop fuel st = Some st' ->
  exists rest, transactions st' = transactions st ++ rest.
Proof.
  revert st. induction fuel as [| fuel IH]; intros st Hrun; simpl in Hrun;
    destruct (loop_guard st) eqn:Hguard; try discriminate.
  - injection Hrun as <-. exists []. rewrite app_nil_r. reflexivity.
  - destruct (IH _ Hrun) as [rest Hrest].
    destruct (loop_guard_lookup st Hguard) as (d & c & Hd & Hc).
    rewrite (loop_body_eq st d c Hd Hc) in Hrest. simpl in Hrest.
    rewrite <- app_assoc in Hrest. eauto.
  - injection Hrun as <-. exists []. rewrite app_nil_r. reflexivity.
Qed.

(** X19: the first transaction emitted goes from a member with the lowest
    rounded balance to a member with the highest, for the smaller of what
    the one owes and the other is owed. *)
Theorem first_transaction
    (balances : list (Z * Q)) (payer receiver : Z) (a : Q)
    (txs : list transaction) :
  simplify_debts balances = Some ((payer, receiver, a) :: txs) ->
  exists bp br,
    In (payer, bp) balances /\ is_debtor bp = true
    /\ In (receiver, br) balances /\ is_creditor br = true
    /\ (forall k b, In (k, b) balances -> is_debtor b = true ->
          Py.round2 bp <= Py.round2 b)
    /\ (forall k b, In (k, b) balances -> is_creditor b = true ->
          Py.round2 b <= Py.round2 br)
    /\ a = Py.min (Qabs (Py.round2 bp)) (Py.round2 br).
Proof.
  intros Hres. unfold simplify_debts in Hres. rewrite loop_entry_eq in Hres.
  cbn [debtors creditors] in Hres.
  set (ds := List.filter (fun kv => is_debtor (snd kv)) balances) in *.
  set (cs := List.filter (fun kv => is_creditor (snd kv)) balances) in *.
  destruct (sort_by_amount false (map entry_of ds)) as [| d dt] eqn:Hd.
  { rewrite while_loop_done in Hres by reflexivity. discriminate. }
  destruct (sort_by_amount true (map entry_of cs)) as [| c ct] eqn:Hc.
  { rewrite while_loop_done in Hres by reflexivity. discriminate. }
  cbn [length Nat.add while_loop] in Hres.
  cbn [loop_guard debtors creditors i j length Nat.ltb Nat.leb andb] in Hres.
  destruct (while_loop _ _) as [st' |] eqn:Hrun; [| discriminate].
  destruct (while_loop_appends _ _ _ Hrun) as [rest Hrest].
  simpl in Hres. injection Hres as Htx. rewrite Htx in Hrest.
  unfold loop_body in Hrest.
  cbn [debtors creditors i j transactions lookup list_lookup app] in Hrest.
  injection Hrest as -> -> -> _.
  assert (Hdin : In d (map entry_of ds)).
  { apply (Permutation_in _ (sort_by_amount_Permutation false _)).
    rewrite Hd. simpl. auto. }
  assert (Hcin : In c (map entry_of cs)).
  { apply (Permutation_in _ (sort_by_amount_Permutation true _)).
    rewrite Hc. simpl. auto. }
  apply in_map_iff in Hdin as ([kp bp] & <- & Hp).
  apply in_map_iff in Hcin as ([kr br] & <- & Hr).
  apply filter_In in Hp as [Hp Hpd]. apply filter_In in Hr as [Hr Hrc].
  exists bp, br. simpl in *.
  split; [exact Hp |]. split; [exact Hpd |].
  split; [exact Hr |]. split; [exact Hrc |].
  split; [| split; [| reflexivity]].
  - intros k b Hin Hdeb.
    apply (sort_by_amount_head false _ _ _ Hd (entry_of (k, b))).
    apply in_map. apply filter_In. auto.
  - intros k b Hin Hcred.
    apply (sort_by_amount_head true _ _ _ Hc (entry_of (k, b))).
    apply in_map. apply filter_In. auto.
Qed.

Lemma first_transaction_witness :
  exists bp br,
    In (2%Z, bp) three_balances /\ is_debtor bp = true
    /\ In (1%Z, br) three_balances /\ is_creditor br = true
    /\ (forall k b, In (k, b) three_balances -> is_debtor b = true ->
          Py.round2 bp <= Py.round2 b)
    /\ (forall k b, In (k, b) three_balances -> is_creditor b = true ->
          Py.round2 b <= Py.round2 br)
    /\ 3000 # 100 = Py.min (Qabs (Py.round2 bp)) (Py.round2 br).
Proof.
  apply (first_transaction three_balances 2 1 (3000 # 100)
           [(3%Z, 1%Z, 3000 # 100)]).
  reflexivity.
Defined.

(** ** Settling is final *)

(** A balance within one hundredth of zero is neither a debtor's nor a
    creditor's. *)
Lemma small_not_open v :
  Qabs v <= 1 # 100 -> is_debtor v = false /\ is_creditor v = false.
Proof.
  intros Hv. apply Qabs_Qle_condition in Hv.
  pose proof (round_half_even_error (v * 100)) as Hr.
  apply Qabs_Qle_condition in Hr.
  set (r := Py.round_half_even (v * 100)) in *.
  assert (Hlo : inject_Z (-2) < inject_Z r) by (change (inject_Z (-2)) with (-2); lra).
  assert (Hhi : inject_Z r < inject_Z 2) by (change (inject_Z 2) with 2; lra).
  rewrite <- Zlt_Qlt in Hlo, Hhi.
  assert (Hr1 : inject_Z (-1) <= inject_Z r) by (rewrite <- Zle_Qle; lia).
  assert (Hr2 : inject_Z r <= inject_Z 1) by (rewrite <- Zle_Qle; lia).
  change (inject_Z (-1)) with (-1) in Hr1. change (inject_Z 1) with 1 in Hr2.
  unfold is_debtor, is_creditor, Py.round2. fold r. split.
  - destruct (lt_reflect (inject_Z r / 100) (- (1 # 100))) as [H |];
      [| reflexivity].
    hundredths. lra.
  - destruct (gt_reflect (inject_Z r / 100) (1 # 100)) as [H |];
      [| reflexivity].
    hundredths. lra.
Qed.

Lemma no_debtors_no_transactions balances :
  debtor_count balances = 0%nat -> simplify_debts balances = Some [].
Proof.
  intros Hside. destruct (loop_entry_lengths balances) as [Hnd Hnc].
  destruct (loop_entry_cursors balances) as (Hi & Hj & Htx).
  unfold simplify_debts. rewrite while_loop_done.
  - simpl. rewrite Htx. reflexivity.
  - unfold loop_guard. rewrite Hi, Hnd, Hside. reflexivity.
Qed.

(** X20: for whole balances with distinct keys, each up to 2^53, that
    sum to zero, running [simplify_debts] again on the balances with its
    transactions applied emits nothing more. *)
Theorem settling_is_final (balances : list (Z * Q)) :
  List.NoDup (Py.keys balances) ->
  (forall k b, In (k, b) balances -> whole b) ->
  Qsum (Py.values balances) == 0 ->
  exists txs,
    simplify_debts balances = Some txs
    /\ simplify_debts (settle_all txs balances) = Some [].
Proof.
  intros Hnd Hw Hzero.
  destruct (whole_settled balances Hnd Hw Hzero) as (txs & Hres & Hin).
  exists txs. split; [exact Hres |].
  apply no_debtors_no_transactions. unfold debtor_count.
  rewrite filter_none; [reflexivity |].
  intros [k v] Hkv. simpl. apply (small_not_open v).
  rewrite (Hin k v Hkv). discriminate.
Qed.

Lemma three_balances_whole k b : In (k, b) three_balances -> whole b.
Proof.
  intros [[= <- <-] | [[= <- <-] | [[= <- <-] | []]]];
    (split; [| vm_compute; discriminate]).
  - exists 60%Z. reflexivity.
  - exists (-30)%Z. reflexivity.
  - exists (-30)%Z. reflexivity.
Qed.

Lemma settling_is_final_witness :
  exists txs,
    simplify_debts three_balances = Some txs
    /\ simplify_debts (settle_all txs three_balances) = Some [].
Proof.
  apply (settling_is_final three_balances).
  - repeat constructor; simpl; intuition discriminate.
  - exact three_balances_whole.
  - reflexivity.
Defined.

(** ** Voting *)

Lemma find_app_none {A} (p : A -> bool) (l : list A) (x : A) :
  p x = false -> find p (l ++ [x]) = find p l.
Proof.
  intros Hx. induction l as [| y l IH]; simpl.
  - rewrite Hx. reflexivity.
  - destruct (p y); [reflexivity | exact IH].
Qed.

Lemma find_none_filter {A} (p : A -> bool) (l : list A) :
  find p l = None -> List.filter p l = [].
Proof.
  intros H. apply filter_none. intros x Hx. apply (find_none p l H x Hx).
Qed.

(** Overwriting the first row found by [p] with a row that [p] finds too:
    the first row found afterwards is the new one. *)
Lemma find_overwritten {A} (key : A -> Z) (p : A -> bool) (old new : A)
    (l : list A) :
  find p l = Some old -> p new = true ->
  find p (map (fun x => if Z.eqb (key x) (key old) then new else x) l) = Some new.
Proof.
  intros Hfind Hnew. induction l as [| x l IH]; simpl in *; [discriminate |].
  destruct (p x) eqn:E.
  - injection Hfind as ->. rewrite Z.eqb_refl, Hnew. reflexivity.
  - destruct (Z.eqb (key x) (key old)); [rewrite Hnew; reflexivity |].
    rewrite E. auto.
Qed.

(** A predicate that the overwriting does not disturb selects as many rows
    as before, and finds the same first row when the changed rows are not
    selected. *)
Lemma filter_map_length {A} (p : A -> bool) (f : A -> A) (l : list A) :
  (forall x, In x l -> p (f x) = p x) ->
  length (List.filter p (map f l)) = length (List.filter p l).
Proof.
  induction l as [| x l IH]; intros H; simpl; [reflexivity |].
  rewrite (H x) by (simpl; auto).
  assert (IH' : length (List.filter p (map f l)) = length (List.filter p l))
    by (apply IH; intros y Hy; apply H; simpl; auto).
  destruct (p x); simpl; rewrite IH'; reflexivity.
Qed.

Lemma find_map_same {A} (p : A -> bool) (f : A -> A) (l : list A) :
  (forall x, In x l -> f x = x \/ (p x = false /\ p (f x) = false)) ->
  find p (map f l) = find p l.
Proof.
  induction l as [| x l IH]; intros H; simpl; [reflexivity |].
  rewrite IH by (intros y Hy; apply H; simpl; auto).
  destruct (H x) as [-> | [-> ->]]; simpl; auto.
Qed.

Lemma fresh_vote_id_gt db v :
  In v (poll_votes db) -> (vote_id_ v < fresh_vote_id db)%Z.
Proof.
  intros Hin. unfold fresh_vote_id.
  pose proof (max_id_ge (map vote_id_ (poll_votes db)) (vote_id_ v)
                (in_map _ _ _ Hin)).
  lia.
Qed.

(** In a table with distinct keys a key names its row. *)
Lemma same_key_same_row {A} (key : A -> Z) (l : list A) (x y : A) :
  List.NoDup (map key l) -> In x l -> In y l -> key x = key y -> x = y.
Proof.
  induction l as [| z l IH]; intros Hnd Hx Hy Hkey; [contradiction |].
  simpl in Hnd. inversion Hnd as [| ? ? Hnotin Hnd']; subst.
  destruct Hx as [-> | Hx], Hy as [-> | Hy]; auto.
  - exfalso. apply Hnotin. rewrite Hkey. apply in_map. exact Hy.
  - exfalso. apply Hnotin. rewrite <- Hkey. apply in_map. exact Hx.
Qed.

(** X21: [vote_poll] raises [ValueError] when the poll is missing or the
    option is not one of that poll; otherwise it returns the member's vote
    for the option, stamped with the time of the call, which is the vote
    that [get_member_vote] then finds; polls and options are untouched. *)
Theorem vote_poll_outcome (db : Database) (now poll_id option_id member_id : Z) :
  match query_poll db poll_id with
  | None =>
      vote_poll db now poll_id option_id member_id
      = inl (ValueError "Poll not found")
  | Some _ =>
      match find (fun o => Z.eqb (option_id_ o) option_id
                           && Z.eqb (option_poll_id o) poll_id)
                 (poll_options db) with
      | None =>
          vote_poll db now poll_id option_id member_id
          = inl (ValueError "Option not found for this poll")
      | Some _ =>
          exists db' vote,
            vote_poll db now poll_id option_id member_id = inr (db', vote)
            /\ vote_poll_id vote = poll_id
            /\ vote_option_id vote = option_id
            /\ vote_member_id vote = member_id
            /\ vote_created_at vote = now
            /\ get_member_vote db' poll_id member_id = Some vote
            /\ polls db' = polls db
            /\ poll_options db' = poll_options db
            /\ ledger db' = ledger db
            /\ place_tags db' = place_tags db
      end
  end.
Proof.
  unfold vote_poll.
  destruct (query_poll db poll_id) as [poll |]; [| reflexivity].
  destruct (find _ (poll_options db)) as [option |]; [| reflexivity].
  destruct (get_member_vote db poll_id member_id) as [existing |] eqn:Hvote.
  - pose proof Hvote as Hkey. unfold get_member_vote in Hkey.
    apply find_some in Hkey as [_ Hkey]. apply andb_true_iff in Hkey as [Hp Hm].
    apply Z.eqb_eq in Hp, Hm.
    eexists _, _. split; [reflexivity |]. simpl.
    repeat split; try assumption.
    unfold get_member_vote in *. simpl.
    apply (find_overwritten vote_id_); [exact Hvote |].
    simpl. rewrite Hp, Hm, !Z.eqb_refl. reflexivity.
  - eexists _, _. split; [reflexivity |]. simpl. repeat split.
    unfold get_member_vote in *. simpl.
    apply find_last.
    + apply find_none. exact Hvote.
    + simpl. rewrite !Z.eqb_refl. reflexivity.
Qed.

Lemma filter_map_same {A} (p : A -> bool) (f : A -> A) (l : list A) :
  (forall x, In x l -> f x = x \/ (p x = false /\ p (f x) = false)) ->
  List.filter p (map f l) = List.filter p l.
Proof.
  induction l as [| x l IH]; intros H; simpl; [reflexivity |].
  rewrite IH by (intros y Hy; apply H; simpl; auto).
  destruct (H x) as [-> | [-> ->]]; simpl; auto.
Qed.

(** X22: on a votes table with distinct keys and at most one vote per
    member and poll, a successful [vote_poll] keeps both rules, leaves the
    member with exactly one vote in the poll, adds a row only when the
    member had not voted there, and touches no other member's or poll's
    votes. *)
Theorem vote_poll_keeps_table
    (db db' : Database) (now poll_id option_id member_id : Z) (vote : PollVote) :
  List.NoDup (map vote_id_ (poll_votes db)) ->
  one_vote_each (poll_votes db) ->
  vote_poll db now poll_id option_id member_id = inr (db', vote) ->
  List.NoDup (map vote_id_ (poll_votes db'))
  /\ one_vote_each (poll_votes db')
  /\ length (votes_of_member (poll_votes db') poll_id member_id) = 1%nat
  /\ length (votes_in db' poll_id)
     = (length (votes_in db poll_id)
        + match get_member_vote db poll_id member_id with
          | Some _ => 0
          | None => 1
          end)%nat
  /\ (forall p m, p <> poll_id \/ m <> member_id ->
        get_member_vote db' p m = get_member_vote db p m)
  /\ (forall p, p <> poll_id -> votes_in db' p = votes_in db p).
Proof.
  intros Hnd Hone Hrun. unfold vote_poll in Hrun.
  destruct (query_poll db poll_id) as [poll |]; [| discriminate].
  destruct (find _ (poll_options db)) as [option |]; [| discriminate].
  destruct (get_member_vote db poll_id member_id) as [existing |] eqn:Hvote.
  - injection Hrun as <- <-.
    unfold get_member_vote in Hvote.
    pose proof (find_some _ _ Hvote) as [Hin Hkey].
    apply andb_true_iff in Hkey as [Hp Hm]. apply Z.eqb_eq in Hp, Hm.
    set (vote := {| vote_id_ := vote_id_ existing;
                    vote_poll_id := vote_poll_id existing;
                    vote_option_id := option_id;
                    vote_member_id := vote_member_id existing;
                    vote_created_at := now |}).
    set (f := fun v => if Z.eqb (vote_id_ v) (vote_id_ existing) then vote else v).
    assert (Hf : forall v, In v (poll_votes db) ->
                   f v = v \/ (v = existing /\ f v = vote)).
    { intros v Hv. unfold f.
      destruct (Z.eqb_spec (vote_id_ v) (vote_id_ existing)) as [E | E]; [| auto].
      right. split; [| reflexivity].
      apply (same_key_same_row vote_id_ (poll_votes db)); assumption. }
    unfold votes_in, get_member_vote, one_vote_each, votes_of_member.
    cbn [with_poll_votes poll_votes].
    assert (Hmember : forall p m,
              length (List.filter
                        (fun v => Z.eqb (vote_poll_id v) p
                                  && Z.eqb (vote_member_id v) m)
                        (map f (poll_votes db)))
              = length (votes_of_member (poll_votes db) p m)).
    { intros p m. apply filter_map_length. intros v Hv.
      destruct (Hf v Hv) as [-> | [-> ->]]; reflexivity. }
    split; [| split; [| split; [| split; [| split]]]].
    + rewrite map_map.
      rewrite (map_ext_in _ vote_id_); [exact Hnd |].
      intros v Hv. destruct (Hf v Hv) as [-> | [-> ->]]; reflexivity.
    + intros p m. rewrite Hmember. apply Hone.
    + rewrite Hmember. specialize (Hone poll_id member_id).
      assert (Hmem : In existing (votes_of_member (poll_votes db) poll_id member_id)).
      { apply filter_In. split; [exact Hin |].
        rewrite Hp, Hm, !Z.eqb_refl. reflexivity. }
      destruct (votes_of_member (poll_votes db) poll_id member_id) as [| v [| ? ?]];
        simpl in *; [contradiction | reflexivity | lia].
    + rewrite Nat.add_0_r. apply filter_map_length. intros v Hv.
      destruct (Hf v Hv) as [-> | [-> ->]]; reflexivity.
    + intros p m Hne. apply find_map_same. intros v Hv.
      destruct (Hf v Hv) as [-> | [-> ->]]; [auto |]. right.
      assert (E : Z.eqb (vote_poll_id existing) p
                  && Z.eqb (vote_member_id existing) m = false).
      { rewrite Hp, Hm. apply andb_false_iff.
        destruct Hne as [Hne | Hne]; [left | right]; apply Z.eqb_neq; congruence. }
      split; exact E.
    + intros p Hne. apply filter_map_same. intros v Hv.
      destruct (Hf v Hv) as [-> | [-> ->]]; [auto |]. right.
      assert (E : Z.eqb (vote_poll_id existing) p = false)
        by (apply Z.eqb_neq; congruence).
      split; exact E.
  - injection Hrun as <- <-.
    unfold get_member_vote in Hvote.
    unfold votes_in, get_member_vote, one_vote_each, votes_of_member.
    cbn [with_poll_votes poll_votes].
    split; [| split; [| split; [| split; [| split]]]].
    + rewrite map_app. apply List.NoDup_app; [exact Hnd | repeat constructor; simpl; tauto |].
      intros x Hx [<- | []]. simpl in Hx.
      apply in_map_iff in Hx as (v & Hid & Hv).
      pose proof (fresh_vote_id_gt db v Hv). lia.
    + intros p m. rewrite List.filter_app, length_app. simpl.
      destruct (Z.eqb_spec poll_id p) as [<- | Hp];
        [destruct (Z.eqb_spec member_id m) as [<- | Hm] |]; simpl.
      * rewrite (find_none_filter _ _ Hvote). simpl. lia.
      * specialize (Hone poll_id m). unfold votes_of_member in Hone. lia.
      * specialize (Hone p m). unfold votes_of_member in Hone. lia.
    + rewrite List.filter_app, (find_none_filter _ _ Hvote). simpl.
      rewrite !Z.eqb_refl. reflexivity.
    + rewrite List.filter_app, length_app. simpl. rewrite Z.eqb_refl. reflexivity.
    + intros p m Hne. apply find_app_none. simpl. apply andb_false_iff.
      destruct Hne as [Hne | Hne]; [left | right]; apply Z.eqb_neq; congruence.
    + intros p Hne. rewrite List.filter_app. simpl.
      destruct (Z.eqb_spec poll_id p); [congruence |]. apply app_nil_r.
Qed.

Lemma vote_poll_keeps_table_witness :
  exists db' vote,
    vote_poll sample_db 9 1 2 2 = inr (db', vote)
    /\ List.NoDup (map vote_id_ (poll_votes db'))
    /\ one_vote_each (poll_votes db')
    /\ length (votes_of_member (poll_votes db') 1 2) = 1%nat.
Proof.
  destruct (vote_poll sample_db 9 1 2 2) as [err | [db' vote]] eqn:Hrun.
  - vm_compute in Hrun. discriminate Hrun.
  - exists db', vote. split; [reflexivity |].
    destruct (vote_poll_keeps_table sample_db db' 9 1 2 2 vote)
      as (H1 & H2 & H3 & _).
    + repeat constructor. simpl. tauto.
    + intros p m. unfold votes_of_member.
      cbn [sample_db poll_votes List.filter vote_poll_id vote_member_id].
      destruct (Z.eqb 1 p && Z.eqb 2 m); cbn [length]; lia.
    + exact Hrun.
    + auto.
Defined.

(** ** The results of a poll *)

Lemma get_default_setitem_eq {V} k (v default : V) d :
  Py.get_default k default (Py.setitem k v d) = v.
Proof. unfold Py.get_default. rewrite get_setitem_eq. reflexivity. Qed.

Lemma get_default_setitem_ne {V} k k' (v default : V) d :
  k <> k' ->
  Py.get_default k' default (Py.setitem k v d) = Py.get_default k' default d.
Proof. intros H. unfold Py.get_default. rewrite get_setitem_ne by exact H. reflexivity. Qed.

Lemma votes_for_cons v votes k :
  votes_for (v :: votes) k
  = ((if Z.eqb (vote_option_id v) k then 1 else 0) + votes_for votes k)%Z.
Proof.
  unfold votes_for. simpl. destruct (Z.eqb (vote_option_id v) k); simpl length; lia.
Qed.

(** The dictionary built by the counting loop holds, for every option, the
    number of votes for it. *)
Lemma vote_counts_get votes acc k :
  Py.get_default k 0%Z (fold_left count_vote votes acc)
  = (Py.get_default k 0%Z acc + votes_for votes k)%Z.
Proof.
  revert acc. induction votes as [| v votes IH]; intros acc.
  - simpl. unfold votes_for. simpl. lia.
  - simpl. rewrite IH, votes_for_cons. unfold count_vote.
    destruct (Z.eqb_spec (vote_option_id v) k) as [-> | Hne].
    + rewrite get_default_setitem_eq. lia.
    + rewrite get_default_setitem_ne by exact Hne. lia.
Qed.

(** What [get_poll_results] returns for a poll that exists. *)
Lemma get_poll_results_run db poll_id poll :
  query_poll db poll_id = Some poll ->
  let votes := votes_in db poll_id in
  let total := Z.of_nat (length votes) in
  get_poll_results db poll_id
  = inr {| total_votes := total;
           result_options :=
             map (fun o =>
                    {| result_id := option_id_ o;
                       result_text := option_text o;
                       result_votes := votes_for votes (option_id_ o);
                       result_percentage :=
                         if (0 <? total)%Z
                         then inject_Z (votes_for votes (option_id_ o))
                              / inject_Z total * 100
                         else 0 |})
                 (options_of db poll) |}.
Proof.
  intros Hpoll votes total. unfold get_poll_results. rewrite Hpoll.
  fold (votes_in db poll_id). fold votes. fold total.
  rewrite (for_each_total _
             (fun o =>
                {| result_id := option_id_ o;
                   result_text := option_text o;
                   result_votes := votes_for votes (option_id_ o);
                   result_percentage :=
                     if (0 <? total)%Z
                     then inject_Z (votes_for votes (option_id_ o))
                          / inject_Z total * 100
                     else 0 |})).
  - reflexivity.
  - intros o _. rewrite vote_counts_get. simpl Py.get_default.
    rewrite Z.add_0_l.
    destruct (0 <? total)%Z eqn:E; [| reflexivity].
    apply Z.ltb_lt in E.
    rewrite truediv_nonzero; [reflexivity |].
    unfold Qeq. simpl. lia.
Qed.

(** X23: [get_poll_results] never raises.  For a missing poll it reports
    no votes and no options; otherwise the total is the number of votes
    cast in the poll, there is one entry per option of the poll in order,
    each with the number of votes for it, and its percentage is that number
    over the total times 100, or 0 when nobody has voted. *)
Theorem poll_results_outcome (db : Database) (poll_id : Z) :
  match query_poll db poll_id with
  | None =>
      get_poll_results db poll_id
      = inr {| total_votes := 0; result_options := [] |}
  | Some poll =>
      exists res,
        get_poll_results db poll_id = inr res
        /\ total_votes res = Z.of_nat (length (votes_in db poll_id))
        /\ map result_id (result_options res) = map option_id_ (options_of db poll)
        /\ map result_text (result_options res)
           = map option_text (options_of db poll)
        /\ Forall (fun r =>
                     result_votes r = votes_for (votes_in db poll_id) (result_id r)
                     /\ (total_votes res = 0%Z -> result_percentage r = 0)
                     /\ ((0 < total_votes res)%Z ->
                         result_percentage r
                         = inject_Z (result_votes r) / inject_Z (total_votes res)
                           * 100))
                  (result_options res)
  end.
Proof.
  destruct (query_poll db poll_id) as [poll |] eqn:Hpoll.
  2: { unfold get_poll_results. rewrite Hpoll. reflexivity. }
  rewrite (get_poll_results_run db poll_id poll Hpoll).
  eexists. split; [reflexivity |]. cbn [total_votes result_options].
  split; [reflexivity |].
  split; [rewrite map_map; reflexivity |].
  split; [rewrite map_map; reflexivity |].
  apply List.Forall_forall. intros r Hr.
  apply in_map_iff in Hr as (o & <- & _). cbn [result_votes result_id result_percentage].
  split; [reflexivity |]. split.
  - intros ->. reflexivity.
  - intros Hpos. apply Z.ltb_lt in Hpos. rewrite Hpos. reflexivity.
Qed.

Lemma Zsum_indicator (x : Z) (ids : list Z) :
  List.NoDup ids -> In x ids ->
  Zsum (map (fun k => if Z.eqb x k then 1 else 0)%Z ids) = 1%Z.
Proof.
  induction ids as [| y ids IH]; intros Hnd Hin; [contradiction |].
  inversion Hnd as [| ? ? Hnotin Hnd']; subst. simpl.
  destruct (Z.eqb_spec x y) as [-> | Hne].
  - assert (Hrest : Zsum (map (fun k => if Z.eqb y k then 1 else 0)%Z ids) = 0%Z).
    { clear -Hnotin. induction ids as [| z ids IH]; simpl; [reflexivity |].
      destruct (Z.eqb_spec y z) as [-> | _]; [exfalso; apply Hnotin; simpl; auto |].
      rewrite IH; [reflexivity |]. intros H. apply Hnotin. simpl. auto. }
    rewrite Hrest. reflexivity.
  - destruct Hin as [-> | Hin]; [contradiction |]. rewrite (IH Hnd' Hin). reflexivity.
Qed.

(** Votes that all name one of the options are as many as the votes for
    the options taken together. *)
Lemma votes_for_total (ids : list Z) (votes : list PollVote) :
  List.NoDup ids ->
  (forall v, In v votes -> In (vote_option_id v) ids) ->
  Zsum (map (votes_for votes) ids) = Z.of_nat (length votes).
Proof.
  intros Hnd. induction votes as [| v votes IH]; intros Hin.
  - unfold votes_for. simpl. clear. induction ids; simpl; [reflexivity | lia].
  - rewrite (map_ext _ (fun k => (if Z.eqb (vote_option_id v) k then 1 else 0)
                                 + votes_for votes k)%Z)
      by (intros k; apply votes_for_cons).
    assert (Hsplit : forall (a b : Z -> Z) (l : list Z),
               Zsum (map (fun k => a k + b k)%Z l)
               = (Zsum (map a l) + Zsum (map b l))%Z).
    { intros a b l. induction l as [| k l IHl]; simpl; [reflexivity | lia]. }
    rewrite Hsplit, Zsum_indicator by (auto; apply Hin; simpl; auto).
    rewrite IH by (intros v' Hv'; apply Hin; simpl; auto).
    simpl length. lia.
Qed.

(** X24: when the options of a poll have distinct keys and every vote in
    the poll names one of them, the votes reported per option add up to the
    total reported. *)
Theorem poll_votes_add_up
    (db : Database) (poll_id : Z) (poll : Poll) (res : PollResults) :
  query_poll db poll_id = Some poll ->
  List.NoDup (map option_id_ (options_of db poll)) ->
  (forall v, In v (votes_in db poll_id) ->
     In (vote_option_id v) (map option_id_ (options_of db poll))) ->
  get_poll_results db poll_id = inr res ->
  Zsum (map result_votes (result_options res)) = total_votes res.
Proof.
  intros Hpoll Hnd Hin Hres.
  rewrite (get_poll_results_run db poll_id poll Hpoll) in Hres.
  injection Hres as <-. cbn [total_votes result_options].
  rewrite <- (votes_for_total _ (votes_in db poll_id) Hnd Hin), !map_map.
  reflexivity.
Qed.

Lemma poll_votes_add_up_witness :
  exists res,
    get_poll_results sample_db 1 = inr res
    /\ Zsum (map result_votes (result_options res)) = total_votes res.
Proof.
  destruct (get_poll_results sample_db 1) as [err | res] eqn:Hres.
  - vm_compute in Hres. discriminate Hres.
  - exists res. split; [reflexivity |].
    apply (poll_votes_add_up sample_db 1 where_poll res).
    + reflexivity.
    + repeat constructor; simpl; intuition discriminate.
    + intros v [<- | []]. simpl. auto.
    + exact Hres.
Defined.

(** ** The place tag of an expense *)

Lemma fresh_tag_id_gt db t :
  In t (place_tags db) -> (tag_id_ t < fresh_tag_id db)%Z.
Proof.
  intros Hin. unfold fresh_tag_id.
  pose proof (max_id_ge (map tag_id_ (place_tags db)) (tag_id_ t)
                (in_map _ _ _ Hin)).
  lia.
Qed.

(** X25: [tag_place_to_expense] raises [ValueError] for a missing expense;
    otherwise it returns a tag of the expense that carries the place data,
    and that is the tag [get_expense_place] then finds.  A tag is added only
    when the expense had none, so tagging again replaces the place; with
    distinct tag keys the tags of other expenses are found as before. *)
Theorem tag_place_outcome (db : Database) (expense_id : Z) (place_data : PlaceData) :
  match query_expense (ledger db) expense_id with
  | None =>
      tag_place_to_expense db expense_id place_data
      = inl (ValueError "Expense not found")
  | Some _ =>
      exists db' tag,
        tag_place_to_expense db expense_id place_data = inr (db', tag)
        /\ tag_expense_id tag = expense_id
        /\ tag_place_id tag = data_place_id place_data
        /\ tag_name tag = data_name place_data
        /\ tag_address tag = data_address place_data
        /\ tag_latitude tag = data_latitude place_data
        /\ tag_longitude tag = data_longitude place_data
        /\ get_expense_place db' expense_id = Some tag
        /\ length (place_tags db')
           = (length (place_tags db)
              + match get_expense_place db expense_id with
                | Some _ => 0
                | None => 1
                end)%nat
        /\ (List.NoDup (map tag_id_ (place_tags db)) ->
            forall other, other <> expense_id ->
              get_expense_place db' other = get_expense_place db other)
        /\ ledger db' = ledger db
        /\ polls db' = polls db
        /\ poll_options db' = poll_options db
        /\ poll_votes db' = poll_votes db
  end.
Proof.
  unfold tag_place_to_expense.
  destruct (query_expense (ledger db) expense_id) as [expense |]; [| reflexivity].
  destruct (get_expense_place db expense_id) as [existing |] eqn:Htag.
  - unfold get_expense_place in Htag.
    pose proof (find_some _ _ Htag) as [Hin Hexp]. apply Z.eqb_eq in Hexp.
    eexists _, _. split; [reflexivity |].
    cbn [tag_expense_id tag_place_id tag_name tag_address tag_latitude
         tag_longitude with_place_tags place_tags ledger polls poll_options
         poll_votes].
    split; [exact Hexp |]. do 5 (split; [reflexivity |]).
    split; [| split; [| split; [| auto]]].
    + unfold get_expense_place. cbn [place_tags].
      apply (find_overwritten tag_id_); [exact Htag |].
      simpl. rewrite Hexp. apply Z.eqb_refl.
    + rewrite length_map. lia.
    + intros Hnd other Hne. unfold get_expense_place. cbn [place_tags].
      apply find_map_same. intros t Ht.
      destruct (Z.eqb_spec (tag_id_ t) (tag_id_ existing)) as [E | E]; [| auto].
      right.
      assert (t = existing) as ->
        by (apply (same_key_same_row tag_id_ (place_tags db)); assumption).
      simpl. rewrite Hexp.
      assert (Z.eqb expense_id other = false) as -> by (apply Z.eqb_neq; congruence).
      auto.
  - unfold get_expense_place in Htag.
    eexists _, _. split; [reflexivity |].
    cbn [tag_expense_id tag_place_id tag_name tag_address tag_latitude
         tag_longitude with_place_tags place_tags ledger polls poll_options
         poll_votes].
    do 6 (split; [reflexivity |]).
    split; [| split; [| split; [| auto]]].
    + unfold get_expense_place. cbn [place_tags].
      apply find_last; [apply find_none; exact Htag | apply Z.eqb_refl].
    + rewrite length_app. reflexivity.
    + intros _ other Hne. unfold get_expense_place. cbn [place_tags].
      apply find_app_none. simpl. apply Z.eqb_neq. congruence.
Qed.

(** X26: removing the tag that was just put on an untagged expense gives
    the database back as it was. *)
Theorem tag_then_remove
    (db db' : Database) (expense_id : Z) (place_data : PlaceData) (tag : PlaceTag) :
  get_expense_place db expense_id = None ->
  tag_place_to_expense db expense_id place_data = inr (db', tag) ->
  remove_place_tag db' expense_id = (db, true).
Proof.
  intros Hnone Hrun. unfold tag_place_to_expense in Hrun.
  destruct (query_expense (ledger db) expense_id) as [expense |]; [| discriminate].
  rewrite Hnone in Hrun. injection Hrun as <- <-.
  unfold remove_place_tag, get_expense_place in *. cbn [with_place_tags place_tags].
  rewrite find_last; [| apply find_none; exact Hnone | apply Z.eqb_refl].
  cbn [tag_id_]. rewrite List.filter_app. simpl. rewrite Z.eqb_refl. simpl.
  rewrite app_nil_r, filter_all.
  - destruct db. reflexivity.
  - intros t Ht. apply negb_true_iff, Z.eqb_neq.
    pose proof (fresh_tag_id_gt db t Ht). lia.
Qed.

Lemma tag_then_remove_witness :
  exists db' tag,
    tag_place_to_expense untagged_db 1 bar_data = inr (db', tag)
    /\ remove_place_tag db' 1 = (untagged_db, true).
Proof.
  destruct (tag_place_to_expense untagged_db 1 bar_data)
    as [err | [db' tag]] eqn:Hrun.
  - vm_compute in Hrun. discriminate Hrun.
  - exists db', tag. split; [reflexivity |].
    apply (tag_then_remove untagged_db db' 1 bar_data tag).
    + reflexivity.
    + exact Hrun.
Defined.

(** X27: [remove_place_tag] tells whether the expense had a tag and, when
    it had none, changes nothing.  On a table with at most one tag per
    expense the expense has no tag afterwards, and with distinct tag keys
    the tags of other expenses are found as before. *)
Theorem remove_place_tag_effect (db : Database) (expense_id : Z) :
  let '(db', removed) := remove_place_tag db expense_id in
  (removed = true <-> get_expense_place db expense_id <> None)
  /\ (removed = false -> db' = db)
  /\ ((length (List.filter (fun t => Z.eqb (tag_expense_id t) expense_id)
                           (place_tags db)) <= 1)%nat ->
      get_expense_place db' expense_id = None)
  /\ (List.NoDup (map tag_id_ (place_tags db)) ->
      forall other, other <> expense_id ->
        get_expense_place db' other = get_expense_place db other)
  /\ ledger db' = ledger db
  /\ polls db' = polls db
  /\ poll_options db' = poll_options db
  /\ poll_votes db' = poll_votes db.
Proof.
  unfold remove_place_tag.
  destruct (get_expense_place db expense_id) as [place_tag |] eqn:Htag.
  - unfold get_expense_place in *. cbn [with_place_tags place_tags ledger polls
                                        poll_options poll_votes].
    pose proof (find_some _ _ Htag) as [Hin Hexp]. apply Z.eqb_eq in Hexp.
    split; [split; [discriminate | reflexivity] |].
    split; [discriminate |].
    split; [| split; [| auto]].
    + intros Hone.
      destruct (find _ (List.filter _ (place_tags db))) as [t |] eqn:Hfind;
        [| reflexivity].
      exfalso. apply find_some in Hfind as [Ht Hte].
      apply filter_In in Ht as [Ht Hid].
      apply negb_true_iff, Z.eqb_neq in Hid.
      assert (H1 : In t (List.filter (fun t => Z.eqb (tag_expense_id t) expense_id)
                                     (place_tags db)))
        by (apply filter_In; auto).
      assert (H2 : In place_tag
                      (List.filter (fun t => Z.eqb (tag_expense_id t) expense_id)
                                   (place_tags db)))
        by (apply filter_In; split; [assumption | apply Z.eqb_eq; assumption]).
      destruct (List.filter _ (place_tags db)) as [| x [| y l]];
        simpl in *; [contradiction | | lia].
      destruct H1 as [<- | []], H2 as [<- | []]. congruence.
    + intros Hnd other Hne.
      assert (Hrows : forall t, In t (place_tags db) ->
                        Z.eqb (tag_id_ t) (tag_id_ place_tag) = true ->
                        Z.eqb (tag_expense_id t) other = false).
      { intros t Ht E. apply Z.eqb_eq in E.
        assert (t = place_tag) as ->
          by (apply (same_key_same_row tag_id_ (place_tags db)); assumption).
        apply Z.eqb_neq. congruence. }
      clear Htag Hin. induction (place_tags db) as [| t l IH]; [reflexivity |].
      simpl. destruct (Z.eqb (tag_id_ t) (tag_id_ place_tag)) eqn:E; simpl.
      * rewrite (Hrows t) by (simpl; auto).
        apply IH.
        -- simpl in Hnd. inversion Hnd; assumption.
        -- intros t' Ht'. apply Hrows. simpl. auto.
      * destruct (Z.eqb (tag_expense_id t) other); [reflexivity |].
        apply IH.
        -- simpl in Hnd. inversion Hnd; assumption.
        -- intros t' Ht'. apply Hrows. simpl. auto.
  - split; [split; [discriminate | congruence] |].
    split; [reflexivity |]. split; [intros _; exact Htag |].
    split; [reflexivity | auto].
Qed.

(** ** A new expense in a consistent group *)

(** X28: in a group whose records are consistent, and where every split
    belongs to an expense of the table, an Unequal expense paid by a
    member, with inputs for members only that add up to its amount, after
    which the amounts of the group are whole and total at most 2^52,
    leaves the records consistent, and the balances whole and still adding
    up to nothing. *)
Theorem unequal_expense_keeps_consistent
    (db db' : Session) (group_id payer_member_id : Z) (description : string)
    (amount : Q) (date : Z) (split_inputs : list (Z * Py.value)) (g : Group)
    (e : Expense) :
  query_group db group_id = Some g ->
  consistent db group_id g ->
  (forall s, In s (expense_splits db) ->
     exists e0, In e0 (expenses db) /\ expense_id_ e0 = split_expense_id s) ->
  In payer_member_id (member_ids db g) ->
  List.NoDup (member_ids db g) ->
  List.NoDup (Py.keys split_inputs) ->
  (forall k, In k (Py.keys split_inputs) -> In k (member_ids db g)) ->
  Py.sum (map Py.float (Py.values split_inputs)) == amount ->
  create_expense db group_id payer_member_id description amount date
                 "Unequal" split_inputs = inr (db', e) ->
  whole_ledger db' group_id ->
  consistent db' group_id g
  /\ Forall whole (Py.values (calculate_member_balances db' group_id))
  /\ Py.sum (Py.values (calculate_member_balances db' group_id)) == 0.
Proof.
  intros Hg [Hexp Hset] Hrefs Hpayer Hids Hkeys Hsub Htotal Hrun Hwhole.
  destruct (create_expense_splits db group_id payer_member_id description amount
              date split_inputs g "Unequal" _ Hg (build_splits_unequal _ _ _ _))
    as (db1 & e1 & Hrun1 & Hexps & Hid & Hspl).
  rewrite Hrun in Hrun1. injection Hrun1 as <- <-.
  destruct (create_expense_frame _ _ _ _ _ _ _ _ _ _ Hrun) as (Hgroups & Hmem & Hsett).
  destruct (create_expense_row _ _ _ _ _ _ _ _ _ _ Hrun) as (_ & Hgid & Hamt & Hpay).
  set (new := map (fun m => split_for (fresh_expense_id db) m
                              (Py.float (Py.get_default (member_id_ m) (Py.VInt 0)
                                                        split_inputs)))
                  (members_of db g)) in *.
  assert (Hids' : member_ids db' g = member_ids db g).
  { unfold member_ids, members_of. rewrite Hmem. reflexivity. }
  assert (Hquery : query_expenses db' group_id = query_expenses db group_id ++ [e]).
  { unfold query_expenses. rewrite Hexps, List.filter_app. simpl.
    rewrite Hgid, Z.eqb_refl. reflexivity. }
  assert (Hold : forall e0, In e0 (expenses db) ->
                   splits_of db' e0 = splits_of db e0).
  { intros e0 He0. unfold splits_of. rewrite Hspl, List.filter_app.
    rewrite (filter_none _ new); [apply app_nil_r |].
    intros s Hs. apply in_map_iff in Hs as (m & <- & _). simpl.
    apply Z.eqb_neq. pose proof (fresh_expense_id_gt db e0 He0). lia. }
  assert (Hnew : splits_of db' e = new).
  { unfold splits_of. rewrite Hspl, List.filter_app, Hid.
    rewrite (filter_none _ (expense_splits db)).
    - simpl. apply filter_all. intros s Hs.
      apply in_map_iff in Hs as (m & <- & _). simpl. apply Z.eqb_refl.
    - intros s Hs. destruct (Hrefs s Hs) as (e0 & He0 & <-).
      apply Z.eqb_neq. pose proof (fresh_expense_id_gt db e0 He0). lia. }
  assert (Hcons : consistent db' group_id g).
  { split.
    - intros e0 He0. rewrite Hquery in He0. rewrite Hids'.
      apply in_app_iff in He0 as [He0 | [<- | []]].
      + assert (Hin0 : In e0 (expenses db)).
        { unfold query_expenses in He0. apply filter_In in He0. tauto. }
        rewrite (Hold e0 Hin0). apply Hexp. exact He0.
      + rewrite Hnew, Hpay, Hamt. split; [exact Hpayer |]. split.
        * subst new. rewrite split_amounts.
          rewrite (member_inputs_total db g split_inputs Hids Hkeys Hsub).
          exact Htotal.
        * intros s Hs. subst new. apply in_map_iff in Hs as (m & <- & Hm).
          simpl. unfold member_ids. apply in_map. exact Hm.
    - intros s Hs. rewrite Hids'. apply Hset.
      unfold query_settlements in *. rewrite Hsett in Hs. exact Hs. }
  split; [exact Hcons |].
  assert (Hg' : query_group db' group_id = Some g).
  { unfold query_group. rewrite Hgroups. exact Hg. }
  split.
  - apply List.Forall_forall. intros v Hv.
    apply in_map_iff in Hv as ([k v'] & <- & Hin).
    rewrite (calculate_member_balances_adjust db' group_id g Hg') in Hin.
    exact (balances_on_the_way db' group_id g (group_adjustments db' group_id) []
             Hwhole (eq_sym (app_nil_r _)) k v' Hin).
  - destruct Hcons as [Hexp' Hset'].
    rewrite sum_Qsum. exact (balances_total_exact db' group_id g Hg' Hexp' Hset').
Qed.

Lemma taxi_whole_ledger : whole_ledger taxi_db 1.
Proof.
  split; [| vm_compute; discriminate].
  repeat constructor;
    solve [ exists 200%Z; reflexivity | exists 100%Z; reflexivity
          | exists 40%Z; reflexivity | exists 30%Z; reflexivity
          | exists 20%Z; reflexivity | exists 10%Z; reflexivity
          | vm_compute; discriminate ].
Qed.

Lemma unequal_expense_keeps_consistent_witness :
  consistent taxi_db 1 trip
  /\ Forall whole (Py.values (calculate_member_balances taxi_db 1))
  /\ Py.sum (Py.values (calculate_member_balances taxi_db 1)) == 0.
Proof.
  apply (unequal_expense_keeps_consistent lunch_db taxi_db 1 2 "Taxi" 30 0
           [(1%Z, Py.VFloat 10); (2%Z, Py.VFloat 20)] trip taxi).
  - reflexivity.
  - exact lunch_consistent.
  - intros s [<- | [<- | []]]; exists lunch; simpl; auto.
  - simpl. auto.
  - repeat constructor; simpl; intuition discriminate.
  - repeat constructor; simpl; intuition discriminate.
  - simpl. intros k [<- | [<- | []]]; auto.
  - reflexivity.
  - reflexivity.
  - exact taxi_whole_ledger.
Defined.

(** ** The floats of the machine *)

(** On the whole amounts of the lunch ledger the floats compute the
    balances of the exact arithmetic, 60 and -60, which sum to zero. *)
Example lunch_balances_binary64 :
  Binary64.calculate_member_balances lunch_db_binary64 1
  = [(1%Z, 60%float); (2%Z, (-60)%float)]
  /\ Binary64.sum (Py.values (Binary64.calculate_member_balances lunch_db_binary64 1))
     = 0%float
  /\ calculate_member_balances lunch_db 1 = lunch_balances.
Proof. repeat split; vm_compute; reflexivity. Qed.

(** The two debts of one hundredth are below the threshold for the floats
    as well: no transaction, and member 1 stays owed 0.02. *)
Example small_debts_left_unsettled_binary64 :
  Binary64.simplify_debts small_balances_binary64 = Some []
  /\ Py.get 1 (Binary64.settle_all [] small_balances_binary64) = Some 0.02%float.
Proof. split; vm_compute; reflexivity. Qed.

(** On whole balances the floats compute the plan of the exact
    arithmetic: Bob and Carol pay Alice 30 each, and everybody is square. *)
Example three_way_split_binary64 :
  Binary64.simplify_debts three_balances_binary64
  = Some [(2%Z, 1%Z, 30%float); (3%Z, 1%Z, 30%float)]
  /\ Binary64.settle_all [(2%Z, 1%Z, 30%float); (3%Z, 1%Z, 30%float)]
                         three_balances_binary64
     = [(1%Z, 0%float); (2%Z, 0%float); (3%Z, 0%float)].
Proof. split; vm_compute; reflexivity. Qed.

(** X29: on balances in hundredths the floats and the exact arithmetic
    part ways.  Members 2 and 3 owe 0.09 each, members 1 and 4 are owed
    0.08 each and member 5 is owed 0.02.  In exact arithmetic four
    transactions leave everybody at zero.  In binary64, -0.09 + 0.08 is
    -0.009999999999999995: the test [abs(debtor['amount']) < 0.01] passes
    over each debtor after its first payment, the loop ends after two
    transactions, and member 5 is still owed 0.02. *)
Theorem cent_debts_left_unsettled :
  (exists txs,
     simplify_debts cent_debts = Some txs
     /\ length txs = 4%nat
     /\ forall k v, In (k, v) (settle_all txs cent_debts) -> v == 0)
  /\ Binary64.simplify_debts cent_debts_binary64
     = Some [(2%Z, 1%Z, 0.08%float); (3%Z, 4%Z, 0.08%float)]
  /\ Binary64.settle_all [(2%Z, 1%Z, 0.08%float); (3%Z, 4%Z, 0.08%float)]
                         cent_debts_binary64
     = [(1%Z, 0%float); (2%Z, (-0.009999999999999995)%float);
        (3%Z, (-0.009999999999999995)%float); (4%Z, 0%float);
        (5%Z, 0.02%float)].
Proof.
  split; [| split; vm_compute; reflexivity].
  eexists. split; [vm_compute; reflexivity |]. split; [reflexivity |].
  intros k v Hin. vm_compute in Hin.
  destruct Hin as [[= <- <-] | [[= <- <-] | [[= <- <-] | [[= <- <-] | [[= <- <-] | []]]]]];
    reflexivity.
Qed.
